(** * Backend feature wiring: BackendInitializer

    A shallow embedding of [BackendInitializer] (the class that registers
    backend features, resolves the dependencies of every plugin and module
    initializer, runs them in dependency order and drives the lifecycle
    services), together with the properties of it that the specification
    states.

    Asynchronous code is embedded as follows.  A promise is a [result]: the
    value it resolves with or the error it rejects with.  The sequential
    part of [#doStart] is a computation in a state-and-error monad over the
    fields of the class.  The part that runs concurrently (one task per
    plugin under [Promise.all], one visit per module under the parallel
    traversal) is a transition system: an [Action] is the continuation of one
    task being run by the event loop, [exec] runs it, and a run is a list of
    actions. *)

From Stdlib Require Import String List Bool Arith ZArith Lia.
Import ListNotations.
Open Scope string_scope.
Open Scope list_scope.

Set Implicit Arguments.

(* ===================================================================== *)
(** ** JavaScript values, errors and promises *)
(* ===================================================================== *)

(** Classes probed with [instanceof] by the initializer. *)
Inductive JsClass : Type :=
| BackendLifecycleImpl
| BackendPluginLifecycleImpl
| OtherClass (name : string).

Inductive JsValue : Type :=
| JUndefined
| JNull
| JBool (b : bool)
| JNumber (z : Z)
| JString (s : string)
| JObject (cls : JsClass) (handle : nat).

(** [if (v)] *)
Definition truthy (v : JsValue) : bool :=
  match v with
  | JUndefined | JNull => false
  | JBool b => b
  | JNumber z => negb (Z.eqb z 0)
  | JString s => negb (String.eqb s "")
  | JObject _ _ => true
  end.

(** Error kinds that the specification names for the collaborators of the
    initializer (service registry and lifecycle services). *)
Inductive CollaboratorFailure : Type :=
| MissingDependency
| ServiceCycle
| LifecycleAlreadyInvoked.

(** Thrown values.  [JsError m] is [new Error(m)]. *)
Inductive Error : Type :=
| JsError (message : string)
| ConflictError (message : string)
| ForwardedError (message : string) (cause : Error)
| Collaborator (kind : CollaboratorFailure) (detail : string).

(** The outcome of a call that may throw, or of a settled promise. *)
Inductive result (A : Type) : Type :=
| Ok (a : A)
| Err (e : Error).
Arguments Ok {A} a.
Arguments Err {A} e.

Definition is_ok {A} (r : result A) : bool :=
  match r with Ok _ => true | Err _ => false end.

(** [xs.join(sep)] *)
Fixpoint join (sep : string) (xs : list string) : string :=
  match xs with
  | [] => ""
  | [x] => x
  | x :: rest => (x ++ sep ++ join sep rest)%string
  end.

(* ===================================================================== *)
(** ** Maps and sets with insertion order (JS [Map], [Set], objects) *)
(* ===================================================================== *)

Section AssocMaps.
Variable V : Type.

(** [m.get(k)] *)
Fixpoint map_get (m : list (string * V)) (k : string) : option V :=
  match m with
  | [] => None
  | (k', v) :: rest => if String.eqb k' k then Some v else map_get rest k
  end.

(** [m.has(k)] *)
Definition map_has (m : list (string * V)) (k : string) : bool :=
  match map_get m k with Some _ => true | None => false end.

(** [m.set(k, v)]: an existing key keeps its position. *)
Fixpoint map_set (m : list (string * V)) (k : string) (v : V)
  : list (string * V) :=
  match m with
  | [] => [(k, v)]
  | (k', v') :: rest =>
      if String.eqb k' k then (k', v) :: rest
      else (k', v') :: map_set rest k v
  end.

(** [[...m.keys()]] *)
Definition map_keys (m : list (string * V)) : list string := map fst m.
End AssocMaps.

Section InsertionSets.
Variable A : Type.
Variable eqb : A -> A -> bool.

Definition set_has (s : list A) (x : A) : bool := existsb (eqb x) s.

(** [s.add(x)] *)
Definition set_add (s : list A) (x : A) : list A :=
  if set_has s x then s else s ++ [x].

(** [new Set(xs)] *)
Definition set_of (xs : list A) : list A := fold_left set_add xs [].
End InsertionSets.

(* ===================================================================== *)
(** ** Service and extension point references, features *)
(* ===================================================================== *)

Inductive Scope : Type := RootScope | PluginScope.

Inductive RefKind : Type :=
| ServiceKind (scope : Scope)
| ExtensionPointKind.

(** [ServiceOrExtensionPoint]: [ref_text] is what [toString()] gives, it is
    only used in the message that lists missing refs.  Two refs are the same
    object when they agree on every field. *)
Record Ref : Type := {
  ref_id : string;
  ref_kind : RefKind;
  ref_text : string
}.

Definition Scope_eqb (a b : Scope) : bool :=
  match a, b with
  | RootScope, RootScope | PluginScope, PluginScope => true
  | _, _ => false
  end.

Definition RefKind_eqb (a b : RefKind) : bool :=
  match a, b with
  | ServiceKind s, ServiceKind t => Scope_eqb s t
  | ExtensionPointKind, ExtensionPointKind => true
  | _, _ => false
  end.

Definition Ref_eqb (a b : Ref) : bool :=
  String.eqb (ref_id a) (ref_id b)
  && RefKind_eqb (ref_kind a) (ref_kind b)
  && String.eqb (ref_text a) (ref_text b).

Definition is_root_scoped (r : Ref) : bool :=
  match ref_kind r with
  | ServiceKind RootScope => true
  | _ => false
  end.

(** [ServiceFactory]: [sf_factory deps pluginId] builds the implementation. *)
Record ServiceFactory : Type := {
  sf_service : Ref;
  sf_deps : list Ref;
  sf_factory : list JsValue -> string -> result JsValue
}.

(** [init: { deps, func }].  [init_deps] lists the entries of the [deps]
    object in the order of [Object.entries]; [init_func] gives the way the
    promise returned by [func(deps)] settles. *)
Record Init : Type := {
  init_deps : list (string * Ref);
  init_func : list (string * JsValue) -> result unit
}.

Inductive RegistrationType : Type := PluginType | ModuleType.

Record Registration : Type := {
  r_type : RegistrationType;
  r_pluginId : string;
  r_moduleId : string;
  r_extensionPoints : list (Ref * JsValue);
  r_init : Init
}.

(** [BackendFeature] as the shape probes of [#addFeature] see it:
    [$$type], the optional [service] (the feature then is a service
    factory), [version] and the optional [getRegistrations]. [f_json] is
    [JSON.stringify(feature)]. *)
Record BackendFeature : Type := {
  f_type : string;
  f_service : option ServiceFactory;
  f_version : string;
  f_getRegistrations : option (list Registration);
  f_json : string
}.

(** [BackendRegisterInit] *)
Record BackendRegisterInit : Type := {
  consumes : list Ref;
  provides : list Ref;
  init : Init
}.

(* ===================================================================== *)
(** ** Core service references *)
(* ===================================================================== *)

Module coreServices.
(** Modelled from the spec: the core service references ([pluginMetadata],
    [rootLifecycle], [lifecycle], [rootLogger]) and the feature discovery
    reference are declared in the plugin API package, which is not part of
    this file; only their scope and the fact that their ids differ
    matter. *)
Definition pluginMetadata : Ref :=
  {| ref_id := "core.pluginMetadata"; ref_kind := ServiceKind PluginScope;
     ref_text := "serviceRef{core.pluginMetadata}" |}.
Definition rootLifecycle : Ref :=
  {| ref_id := "core.rootLifecycle"; ref_kind := ServiceKind RootScope;
     ref_text := "serviceRef{core.rootLifecycle}" |}.
Definition lifecycle : Ref :=
  {| ref_id := "core.lifecycle"; ref_kind := ServiceKind PluginScope;
     ref_text := "serviceRef{core.lifecycle}" |}.
Definition rootLogger : Ref :=
  {| ref_id := "core.rootLogger"; ref_kind := ServiceKind RootScope;
     ref_text := "serviceRef{core.rootLogger}" |}.
Definition featureDiscoveryServiceRef : Ref :=
  {| ref_id := "core.featureDiscovery"; ref_kind := ServiceKind RootScope;
     ref_text := "serviceRef{core.featureDiscovery}" |}.
End coreServices.

(* ===================================================================== *)
(** ** Service registry *)
(* ===================================================================== *)

Module ServiceRegistry.
(** Modelled from the spec: the service registry is built from a flat list
    of factories, defaults first and overrides appended, and the last
    factory of a service id wins. *)
Record t : Type := { factories : list ServiceFactory }.

Definition create (fs : list ServiceFactory) : t := {| factories := fs |}.

Fixpoint lookup (fs : list ServiceFactory) (id : string)
  : option ServiceFactory :=
  match fs with
  | [] => None
  | f :: rest =>
      match lookup rest id with
      | Some g => Some g
      | None =>
          if String.eqb (ref_id (sf_service f)) id then Some f else None
      end
  end.

(** Modelled from the spec: [getServiceRefs()] is every reference known,
    one per service id. *)
Definition getServiceRefs (r : t) : list Ref :=
  flat_map
    (fun id => match lookup (factories r) id with
               | Some f => [sf_service f]
               | None => []
               end)
    (set_of String.eqb (map (fun f => ref_id (sf_service f)) (factories r))).

(** Modelled from the spec: [get(ref, pluginId)] gives [undefined] when
    the id has no factory; otherwise it resolves the declared deps of the
    factory under the same plugin id (a dep without factory is a
    [MissingDependency], a factory that is reached again while it is being
    resolved is a [ServiceCycle]) and invokes the factory, a root scoped
    one with the plugin id ["root"].  The factories here are functions, so
    the memoization per scope key cannot be observed and is left out. *)
Fixpoint resolve (fuel : nat) (fs : list ServiceFactory)
         (stack : list string) (ref : Ref) (pluginId : string)
  : result JsValue :=
  match fuel with
  | 0 => Err (Collaborator ServiceCycle (ref_id ref))
  | S fuel' =>
      match lookup fs (ref_id ref) with
      | None => Ok JUndefined
      | Some sf =>
          if existsb (String.eqb (ref_id ref)) stack
          then Err (Collaborator ServiceCycle (ref_id ref))
          else
            let fix deps_loop (ds : list Ref) : result (list JsValue) :=
              match ds with
              | [] => Ok []
              | d :: ds' =>
                  match lookup fs (ref_id d) with
                  | None => Err (Collaborator MissingDependency (ref_id d))
                  | Some _ =>
                      match resolve fuel' fs (ref_id ref :: stack) d pluginId with
                      | Err e => Err e
                      | Ok v =>
                          match deps_loop ds' with
                          | Err e => Err e
                          | Ok vs => Ok (v :: vs)
                          end
                      end
                  end
              end in
            match deps_loop (sf_deps sf) with
            | Err e => Err e
            | Ok impls =>
                sf_factory sf impls
                  (if is_root_scoped (sf_service sf) then "root" else pluginId)
            end
      end
  end.

Definition get (r : t) (ref : Ref) (pluginId : string) : result JsValue :=
  resolve (S (length (factories r))) (factories r) [] ref pluginId.
End ServiceRegistry.

(* ===================================================================== *)
(** ** Dependency graph *)
(* ===================================================================== *)

Module DependencyGraph.
Section Graph.
Variable T : Type.

Record Node : Type := {
  value : T;
  node_provides : list string;
  node_consumes : list string
}.

Definition fromIterable (nodes : list Node) : list Node := nodes.

(** [n] consumes an id that [m] provides. *)
Definition depends (n m : Node) : bool :=
  existsb (fun c => existsb (String.eqb c) (node_provides m))
          (node_consumes n).

(** Modelled from the spec: in the parallel traversal a node becomes
    ready when every node providing any id it consumes has completed;
    an id that no node provides does not hold the node back. *)
Definition ready (completed : T -> bool) (g : list Node) (n : Node)
  : bool :=
  forallb (fun m => if depends n m then completed (value m) else true) g.

(** Nodes are told apart by their position in the graph. *)
Definition indexed (g : list Node) : list (nat * Node) :=
  combine (seq 0 (length g)) g.

(** One round of removing the nodes that depend on none of the others
    left. *)
Definition peel_round (rest : list (nat * Node)) : list (nat * Node) :=
  filter (fun n => existsb (fun m => depends (snd n) (snd m)) rest) rest.

(** What is left after [fuel] rounds: empty for an acyclic graph,
    otherwise nodes that each depend on one of the nodes left. *)
Fixpoint peel (fuel : nat) (rest : list (nat * Node)) : list (nat * Node) :=
  match fuel with
  | 0 => rest
  | S fuel' => peel fuel' (peel_round rest)
  end.

Definition same_node (a b : nat * Node) : bool := Nat.eqb (fst a) (fst b).

(** The nodes of [seen] in front of [cur]. *)
Fixpoint until_node (cur : nat * Node) (seen : list (nat * Node))
  : list (nat * Node) :=
  match seen with
  | [] => []
  | s :: rest => if same_node cur s then [] else s :: until_node cur rest
  end.

(** Follow dependencies inside [core] until a node comes back. [seen] is
    the path so far, the latest node first. *)
Fixpoint walk (fuel : nat) (core seen : list (nat * Node))
         (cur : nat * Node) : list (nat * Node) :=
  if existsb (same_node cur) seen
  then cur :: rev (until_node cur seen) ++ [cur]
  else
    match fuel with
    | 0 => []
    | S fuel' =>
        match find (fun m => depends (snd cur) (snd m)) core with
        | None => []
        | Some next => walk fuel' core (cur :: seen) next
        end
    end.

(** Modelled from the spec: [detectCircularDependency()] gives nothing
    for an acyclic graph and otherwise a cycle n0 -> n1 -> ... -> n0 in
    which every node consumes an id that the next one provides. *)
Definition detectCircularDependency (g : list Node) : option (list T) :=
  match peel (length g) (indexed g) with
  | [] => None
  | start :: rest =>
      Some (map (fun n => value (snd n))
                (walk (S (length rest)) (start :: rest) [] start))
  end.
End Graph.
Arguments depends {T} n m.
Arguments ready {T} completed g n.
Arguments detectCircularDependency {T} g.
Arguments fromIterable {T} nodes.
End DependencyGraph.

(* ===================================================================== *)
(** ** The initializer: state *)
(* ===================================================================== *)

(** Listeners registered on [process]. *)
Inductive Listener : Type :=
| ExitHandler
| UnhandledRejectionLogger
| UncaughtExceptionLogger.

(** What can be observed of a run: the calls made to initializers and
    lifecycle services and the settling of the promises they return. *)
Inductive Event : Type :=
| ModuleInitCalled (pluginId moduleId : string)
| ModuleInitDone (pluginId moduleId : string)
| PluginInitCalled (pluginId : string)
| PluginInitDone (pluginId : string)
| PluginStartupCalled (pluginId : string)
| PluginStartupDone (pluginId : string)
| RootStartupCalled
| RootStartupDone
| RootShutdownCalled
| ProcessExit (code : nat).

(** Modelled from the spec: a lifecycle operation ([startup] or [shutdown])
    goes through Idle -> Running -> Done | Failed once; the lifecycle
    services are not part of this file. *)
Inductive HookPhase : Type := Idle | Running | Done | HookFailed.

(** One visit of the parallel traversal. *)
Inductive ModuleState : Type :=
| Waiting
| InFlight (settles : result unit)   (* [init.func] was called *)
| Completed
| Failed.

(** Where the task of one plugin (the callback given to
    [allPluginIds.map]) stands. *)
Inductive Phase : Type :=
| InModules                               (* awaiting the traversal *)
| InPluginInit (settles : result unit)    (* awaiting [pluginInit.init.func] *)
| BeforeStartup                           (* about to fetch the lifecycle *)
| InStartup                               (* awaiting [lifecycleService.startup()] *)
| PluginDone
| PluginFailed (e : Error).

Record PluginTask : Type := {
  t_pluginId : string;
  t_phase : Phase;
  t_modules : list (string * ModuleState)
}.

(** Where the body of [#doStart] stands; [Settled] carries the way its
    promise settled. *)
Inductive Stage : Type :=
| AwaitPlugins
| AwaitRootStartup
| Settled (outcome : result unit).

(** The activation of [#doStart] behind [#startPromise], with its locals. *)
Record DoStart : Type := {
  ds_stage : Stage;
  ds_pluginInits : list (string * BackendRegisterInit);
  ds_moduleInits : list (string * list (string * BackendRegisterInit));
  ds_tasks : list PluginTask
}.

(** The private fields of [BackendInitializer], followed by the part of
    the host it acts on: the listeners of [process], the root lifecycle
    service and the log of events. *)
Record State : Type := {
  startPromise : option DoStart;
  features : list BackendFeature;
  extensionPoints : list (string * (JsValue * string));
  serviceHolder : option ServiceRegistry.t;
  providedServiceFactories : list ServiceFactory;
  defaultApiFactories : list ServiceFactory;
  listeners : list (string * Listener);
  rootStartup : HookPhase;
  rootShutdown : HookPhase;
  log : list Event          (* latest event first *)
}.

(** What the initializer is given from outside and does not change. *)
Record World : Type := {
  (** [process.env.NODE_ENV === 'test'] *)
  test_mode : bool;
  (** [featureDiscovery.getBackendFeatures()], the [features] of its answer *)
  getBackendFeatures : JsValue -> result (list BackendFeature);
  (** how the startup hooks of a plugin lifecycle settle *)
  pluginStartupHooks : string -> result unit;
  (** how the startup hooks of the root lifecycle settle *)
  rootStartupHooks : result unit
}.

Definition set_startPromise (p : option DoStart) (s : State) : State :=
  {| startPromise := p; features := features s;
     extensionPoints := extensionPoints s; serviceHolder := serviceHolder s;
     providedServiceFactories := providedServiceFactories s;
     defaultApiFactories := defaultApiFactories s; listeners := listeners s;
     rootStartup := rootStartup s; rootShutdown := rootShutdown s;
     log := log s |}.

Definition set_features (f : list BackendFeature) (s : State) : State :=
  {| startPromise := startPromise s; features := f;
     extensionPoints := extensionPoints s; serviceHolder := serviceHolder s;
     providedServiceFactories := providedServiceFactories s;
     defaultApiFactories := defaultApiFactories s; listeners := listeners s;
     rootStartup := rootStartup s; rootShutdown := rootShutdown s;
     log := log s |}.

Definition set_extensionPoints (e : list (string * (JsValue * string)))
           (s : State) : State :=
  {| startPromise := startPromise s; features := features s;
     extensionPoints := e; serviceHolder := serviceHolder s;
     providedServiceFactories := providedServiceFactories s;
     defaultApiFactories := defaultApiFactories s; listeners := listeners s;
     rootStartup := rootStartup s; rootShutdown := rootShutdown s;
     log := log s |}.

Definition set_serviceHolder (r : option ServiceRegistry.t) (s : State)
  : State :=
  {| startPromise := startPromise s; features := features s;
     extensionPoints := extensionPoints s; serviceHolder := r;
     providedServiceFactories := providedServiceFactories s;
     defaultApiFactories := defaultApiFactories s; listeners := listeners s;
     rootStartup := rootStartup s; rootShutdown := rootShutdown s;
     log := log s |}.

Definition set_providedServiceFactories (p : list ServiceFactory) (s : State)
  : State :=
  {| startPromise := startPromise s; features := features s;
     extensionPoints := extensionPoints s; serviceHolder := serviceHolder s;
     providedServiceFactories := p;
     defaultApiFactories := defaultApiFactories s; listeners := listeners s;
     rootStartup := rootStartup s; rootShutdown := rootShutdown s;
     log := log s |}.

Definition set_listeners (l : list (string * Listener)) (s : State) : State :=
  {| startPromise := startPromise s; features := features s;
     extensionPoints := extensionPoints s; serviceHolder := serviceHolder s;
     providedServiceFactories := providedServiceFactories s;
     defaultApiFactories := defaultApiFactories s; listeners := l;
     rootStartup := rootStartup s; rootShutdown := rootShutdown s;
     log := log s |}.

Definition set_rootStartup (p : HookPhase) (s : State) : State :=
  {| startPromise := startPromise s; features := features s;
     extensionPoints := extensionPoints s; serviceHolder := serviceHolder s;
     providedServiceFactories := providedServiceFactories s;
     defaultApiFactories := defaultApiFactories s; listeners := listeners s;
     rootStartup := p; rootShutdown := rootShutdown s;
     log := log s |}.

Definition set_rootShutdown (p : HookPhase) (s : State) : State :=
  {| startPromise := startPromise s; features := features s;
     extensionPoints := extensionPoints s; serviceHolder := serviceHolder s;
     providedServiceFactories := providedServiceFactories s;
     defaultApiFactories := defaultApiFactories s; listeners := listeners s;
     rootStartup := rootStartup s; rootShutdown := p;
     log := log s |}.

Definition emit (evs : list Event) (s : State) : State :=
  {| startPromise := startPromise s; features := features s;
     extensionPoints := extensionPoints s; serviceHolder := serviceHolder s;
     providedServiceFactories := providedServiceFactories s;
     defaultApiFactories := defaultApiFactories s; listeners := listeners s;
     rootStartup := rootStartup s; rootShutdown := rootShutdown s;
     log := evs ++ log s |}.

(** The events of a run in the order in which they happened. *)
Definition trace (s : State) : list Event := rev (log s).

(** [new BackendInitializer(defaultApiFactories)] in a fresh process. *)
Definition new_BackendInitializer (defaults : list ServiceFactory) : State :=
  {| startPromise := None; features := []; extensionPoints := [];
     serviceHolder := None; providedServiceFactories := [];
     defaultApiFactories := defaults; listeners := [];
     rootStartup := Idle; rootShutdown := Idle; log := [] |}.

(* ===================================================================== *)
(** ** A state and error monad for the sequential code *)
(* ===================================================================== *)

(** A computation reads and changes the state and either returns or
    throws; what it changed before it threw stays changed. *)
Definition M (A : Type) : Type := State -> result A * State.

Definition ret {A} (a : A) : M A := fun s => (Ok a, s).

Definition bind {A B} (c : M A) (k : A -> M B) : M B :=
  fun s => match c s with
           | (Ok a, s') => k a s'
           | (Err e, s') => (Err e, s')
           end.

Definition throw {A} (e : Error) : M A := fun s => (Err e, s).

Definition get_state : M State := fun s => (Ok s, s).

Definition modify (f : State -> State) : M unit := fun s => (Ok tt, f s).

(** [await p] for a promise that settles as [r]. *)
Definition await {A} (r : result A) : M A := fun s => (r, s).

Notation "x <- c ;; k" := (bind c (fun x => k))
  (at level 61, c at next level, right associativity).
Notation "c ;;; k" := (bind c (fun _ => k))
  (at level 61, right associativity).

(** [for (const x of xs) body(x)] with a value carried along. *)
Fixpoint foldM {A B} (body : B -> A -> M B) (acc : B) (xs : list A) : M B :=
  match xs with
  | [] => ret acc
  | x :: rest => acc' <- body acc x ;; foldM body acc' rest
  end.

Definition forM_ {A} (xs : list A) (body : A -> M unit) : M unit :=
  foldM (fun _ x => body x) tt xs.

(* ===================================================================== *)
(** ** The errors thrown by the initializer *)
(* ===================================================================== *)

Definition ExtensionPointOwnershipViolation (owner pluginId : string) : Error :=
  JsError ("Extension point registered for plugin '" ++ owner
           ++ "' may not be used by module for plugin '" ++ pluginId ++ "'")%string.

Definition UnresolvedDependencies (missing : list Ref) : Error :=
  JsError ("No extension point or service available for the following ref(s): "
           ++ join ", " (map ref_text missing))%string.

Definition AlreadyStarted_add : Error :=
  JsError "feature can not be added after the backend has started".

Definition AlreadyStarted : Error := JsError "Backend has already started".

Definition MalformedFeature_type (ty : string) : Error :=
  JsError ("Failed to add feature, invalid type '" ++ ty ++ "'")%string.

Definition MalformedFeature (json : string) : Error :=
  JsError ("Failed to add feature, invalid feature " ++ json)%string.

Definition UnsupportedFeatureVersion (version : string) : Error :=
  JsError ("Failed to add feature, invalid version '" ++ version ++ "'")%string.

Definition ForbiddenServiceOverride : Error :=
  JsError ("The " ++ ref_id coreServices.pluginMetadata
           ++ " service cannot be overridden")%string.

Definition DuplicateServiceImpl (id : string) : Error :=
  JsError ("Duplicate service implementations provided for " ++ id)%string.

Definition DuplicateExtensionPoint (id : string) : Error :=
  JsError ("ExtensionPoint with ID '" ++ id ++ "' is already registered")%string.

Definition DuplicatePluginRegistration (pluginId : string) : Error :=
  JsError ("Plugin '" ++ pluginId ++ "' is already registered")%string.

Definition DuplicateModuleRegistration (moduleId pluginId : string) : Error :=
  JsError ("Module '" ++ moduleId ++ "' for plugin '" ++ pluginId
           ++ "' is already registered")%string.

Definition CircularModuleDependency (pluginId : string)
           (circular : list string) : Error :=
  ConflictError
    ("Circular dependency detected for modules of plugin '" ++ pluginId
     ++ "', "
     ++ join " -> " (map (fun moduleId => "'" ++ moduleId ++ "'") circular))%string.

Definition ModuleStartupFailed (moduleId pluginId : string) (cause : Error)
  : Error :=
  ForwardedError ("Module '" ++ moduleId ++ "' for plugin '" ++ pluginId
                  ++ "' startup failed")%string cause.

Definition PluginStartupFailed (pluginId : string) (cause : Error) : Error :=
  ForwardedError ("Plugin '" ++ pluginId ++ "' startup failed")%string cause.

Definition UnexpectedRootLifecycle : Error :=
  JsError "Unexpected root lifecycle service implementation".

Definition UnexpectedPluginLifecycle : Error :=
  JsError "Unexpected plugin lifecycle service implementation".

(** [this.#serviceHolder!.get] while [#serviceHolder] is still undefined. *)
Definition UndefinedServiceHolder : Error :=
  JsError "Cannot read properties of undefined (reading 'get')".

(* ===================================================================== *)
(** ** [#getInitDeps] *)
(* ===================================================================== *)

Definition holder_get (holder : option ServiceRegistry.t) (ref : Ref)
           (pluginId : string) : result JsValue :=
  match holder with
  | Some reg => ServiceRegistry.get reg ref pluginId
  | None => Err UndefinedServiceHolder
  end.

(** The loop over [Object.entries(deps)]; [bound] (the local [result] of
    the source) and [missingRefs] are the two locals it fills. *)
Fixpoint getInitDeps_loop (eps : list (string * (JsValue * string)))
         (holder : option ServiceRegistry.t) (pluginId : string)
         (deps : list (string * Ref))
         (bound : list (string * JsValue)) (missingRefs : list Ref)
  : result (list (string * JsValue) * list Ref) :=
  match deps with
  | [] => Ok (bound, missingRefs)
  | (name, ref) :: rest =>
      match map_get eps (ref_id ref) with
      | Some (ep_impl, ep_pluginId) =>
          if negb (String.eqb ep_pluginId pluginId)
          then Err (ExtensionPointOwnershipViolation ep_pluginId pluginId)
          else getInitDeps_loop eps holder pluginId rest
                                (map_set bound name ep_impl) missingRefs
      | None =>
          match holder_get holder ref pluginId with
          | Err e => Err e
          | Ok impl =>
              if truthy impl
              then getInitDeps_loop eps holder pluginId rest
                                    (map_set bound name impl) missingRefs
              else getInitDeps_loop eps holder pluginId rest
                                    bound (set_add Ref_eqb missingRefs ref)
          end
      end
  end.

Definition getInitDeps (eps : list (string * (JsValue * string)))
           (holder : option ServiceRegistry.t)
           (deps : list (string * Ref)) (pluginId : string)
  : result (list (string * JsValue)) :=
  match getInitDeps_loop eps holder pluginId deps [] [] with
  | Err e => Err e
  | Ok (bound, missingRefs) =>
      if Nat.ltb 0 (List.length missingRefs)
      then Err (UnresolvedDependencies missingRefs)
      else Ok bound
  end.

(* ===================================================================== *)
(** ** [add] and [#addFeature] *)
(* ===================================================================== *)

Definition addFeature (feature : BackendFeature) : M unit :=
  if negb (String.eqb (f_type feature) "@backstage/BackendFeature")
  then throw (MalformedFeature_type (f_type feature))
  else
    match f_service feature with
    | Some sf =>
        if String.eqb (ref_id (sf_service sf)) (ref_id coreServices.pluginMetadata)
        then throw ForbiddenServiceOverride
        else
          s <- get_state ;;
          if existsb (fun g => String.eqb (ref_id (sf_service g))
                                          (ref_id (sf_service sf)))
                     (providedServiceFactories s)
          then throw (DuplicateServiceImpl (ref_id (sf_service sf)))
          else modify (fun s =>
                 set_providedServiceFactories
                   (providedServiceFactories s ++ [sf]) s)
    | None =>
        match f_getRegistrations feature with
        | Some _ =>
            if negb (String.eqb (f_version feature) "v1")
            then throw (UnsupportedFeatureVersion (f_version feature))
            else modify (fun s => set_features (features s ++ [feature]) s)
        | None => throw (MalformedFeature (f_json feature))
        end
    end.

Definition add (feature : BackendFeature) : M unit :=
  s <- get_state ;;
  match startPromise s with
  | Some _ => throw AlreadyStarted_add
  | None => addFeature feature
  end.

(* ===================================================================== *)
(** ** [#doStart]: the sequential part *)
(* ===================================================================== *)

Definition PluginInits : Type := list (string * BackendRegisterInit).
Definition ModuleInits : Type :=
  list (string * list (string * BackendRegisterInit)).

Definition getRegistrations (feature : BackendFeature) : list Registration :=
  match f_getRegistrations feature with
  | Some rs => rs
  | None => []
  end.

(** The loop over [r.extensionPoints]; gives the [provides] set. *)
Definition registerExtensionPoints (r : Registration) : M (list Ref) :=
  foldM (fun provides (ext : Ref * JsValue) =>
           let (extRef, extImpl) := ext in
           s <- get_state ;;
           if map_has (extensionPoints s) (ref_id extRef)
           then throw (DuplicateExtensionPoint (ref_id extRef))
           else
             modify (fun s =>
               set_extensionPoints
                 (map_set (extensionPoints s) (ref_id extRef)
                          (extImpl, r_pluginId r)) s) ;;;
             ret (set_add Ref_eqb provides extRef))
        [] (r_extensionPoints r).

(** The body of the loop over the registrations of the features. *)
Definition indexRegistration (idx : PluginInits * ModuleInits)
           (r : Registration) : M (PluginInits * ModuleInits) :=
  provides <- registerExtensionPoints r ;;
  let (pluginInits, moduleInits) := idx in
  let entry := {| provides := provides;
                  consumes := set_of Ref_eqb (map snd (init_deps (r_init r)));
                  init := r_init r |} in
  match r_type r with
  | PluginType =>
      if map_has pluginInits (r_pluginId r)
      then throw (DuplicatePluginRegistration (r_pluginId r))
      else ret (map_set pluginInits (r_pluginId r) entry, moduleInits)
  | ModuleType =>
      let modules := match map_get moduleInits (r_pluginId r) with
                     | Some modules => modules
                     | None => []
                     end in
      if map_has modules (r_moduleId r)
      then throw (DuplicateModuleRegistration (r_moduleId r) (r_pluginId r))
      else ret (pluginInits,
                map_set moduleInits (r_pluginId r)
                        (map_set modules (r_moduleId r) entry))
  end.

Definition indexFeatures (fs : list BackendFeature)
  : M (PluginInits * ModuleInits) :=
  foldM (fun idx feature => foldM indexRegistration idx (getRegistrations feature))
        ([], []) fs.

(** The features found by the discovery service go through [#addFeature]. *)
Definition discoverFeatures (w : World) (reg : ServiceRegistry.t) : M unit :=
  featureDiscovery <-
    await (ServiceRegistry.get reg coreServices.featureDiscoveryServiceRef "root") ;;
  if truthy featureDiscovery
  then found <- await (getBackendFeatures w featureDiscovery) ;;
       forM_ found addFeature
  else ret tt.

(** "Initialize all root scoped services" *)
Definition initRootServices (reg : ServiceRegistry.t) : M unit :=
  forM_ (ServiceRegistry.getServiceRefs reg)
        (fun ref => if is_root_scoped ref
                    then _ <- await (ServiceRegistry.get reg ref "root") ;; ret tt
                    else ret tt).

(** [#doStart] up to and with the enumeration of the features. *)
Definition doStart_sequential (w : World) : M (PluginInits * ModuleInits) :=
  s <- get_state ;;
  let reg := ServiceRegistry.create
               (defaultApiFactories s ++ providedServiceFactories s) in
  modify (set_serviceHolder (Some reg)) ;;;
  discoverFeatures w reg ;;;
  initRootServices reg ;;;
  s <- get_state ;;
  indexFeatures (features s).

Definition allPluginIds (pluginInits : PluginInits) (moduleInits : ModuleInits)
  : list string :=
  set_of String.eqb (map_keys pluginInits ++ map_keys moduleInits).

(* ===================================================================== *)
(** ** [#doStart]: the plugin tasks *)
(* ===================================================================== *)

Definition ModuleNode : Type :=
  DependencyGraph.Node (string * BackendRegisterInit).

(** The graph of the modules of one plugin; "relationships are reversed at
    this point": a node consumes what the module provides and provides
    what the module consumes. *)
Definition moduleGraph (modules : list (string * BackendRegisterInit))
  : list ModuleNode :=
  DependencyGraph.fromIterable
    (map (fun entry : string * BackendRegisterInit =>
            let (moduleId, moduleInit) := entry in
            {| DependencyGraph.value := (moduleId, moduleInit);
               DependencyGraph.node_consumes := map ref_id (provides moduleInit);
               DependencyGraph.node_provides := map ref_id (consumes moduleInit) |})
         modules).

Definition modules_of (moduleInits : ModuleInits) (pluginId : string)
  : list (string * BackendRegisterInit) :=
  match map_get moduleInits pluginId with
  | Some modules => modules
  | None => []
  end.

(** The task of a plugin up to its first [await]: the graph is built and
    checked for a cycle. *)
Definition spawnTask (moduleInits : ModuleInits) (pluginId : string)
  : PluginTask :=
  let modules := modules_of moduleInits pluginId in
  {| t_pluginId := pluginId;
     t_phase :=
       match DependencyGraph.detectCircularDependency (moduleGraph modules) with
       | Some circular =>
           PluginFailed (CircularModuleDependency pluginId (map fst circular))
       | None => InModules
       end;
     t_modules := map (fun m => (fst m, Waiting)) modules |}.

(** The first task that is rejected already. *)
Fixpoint first_rejection (tasks : list PluginTask) : option Error :=
  match tasks with
  | [] => None
  | t :: rest =>
      match t_phase t with
      | PluginFailed e => Some e
      | _ => first_rejection rest
      end
  end.

(** [Promise.all(allPluginIds.map(async pluginId => ...))] when it is
    called: every callback has run up to its first [await], and the tasks
    that threw by then are the first to reject the promise. *)
Definition spawn (pluginInits : PluginInits) (moduleInits : ModuleInits)
  : DoStart :=
  let tasks := map (spawnTask moduleInits) (allPluginIds pluginInits moduleInits) in
  {| ds_stage := match first_rejection tasks with
                 | Some e => Settled (Err e)
                 | None => AwaitPlugins
                 end;
     ds_pluginInits := pluginInits;
     ds_moduleInits := moduleInits;
     ds_tasks := tasks |}.

(** [#doStart] when it threw before it reached the plugins. *)
Definition rejected_doStart (e : Error) : DoStart :=
  {| ds_stage := Settled (Err e); ds_pluginInits := []; ds_moduleInits := [];
     ds_tasks := [] |}.

Definition getPluginLifecycleImpl (holder : option ServiceRegistry.t)
           (pluginId : string) : result nat :=
  match holder_get holder coreServices.lifecycle pluginId with
  | Err e => Err e
  | Ok (JObject BackendPluginLifecycleImpl h) => Ok h
  | Ok _ => Err UnexpectedPluginLifecycle
  end.

Definition getRootLifecycleImpl (holder : option ServiceRegistry.t)
  : result nat :=
  match holder_get holder coreServices.rootLifecycle "root" with
  | Err e => Err e
  | Ok (JObject BackendLifecycleImpl h) => Ok h
  | Ok _ => Err UnexpectedRootLifecycle
  end.

(** The continuations of one plugin task that the event loop can run. *)
Inductive TaskAction : Type :=
| VisitModule (moduleId : string)   (* the traversal visits a ready module *)
| SettleModule (moduleId : string)  (* the promise of its [init.func] settles *)
| TraversalDone                     (* the traversal resolved: plugin init *)
| SettlePluginInit                  (* the promise of the plugin's [init.func] settles *)
| CallStartup                       (* fetch the plugin lifecycle, call [startup()] *)
| SettleStartup.                    (* the promise of [startup()] settles *)

Definition module_state (t : PluginTask) (moduleId : string) : ModuleState :=
  match map_get (t_modules t) moduleId with
  | Some st => st
  | None => Waiting
  end.

Definition is_completed (st : ModuleState) : bool :=
  match st with Completed => true | _ => false end.

Definition completed (t : PluginTask) (v : string * BackendRegisterInit)
  : bool :=
  is_completed (module_state t (fst v)).

Definition set_phase (p : Phase) (t : PluginTask) : PluginTask :=
  {| t_pluginId := t_pluginId t; t_phase := p; t_modules := t_modules t |}.

Definition set_module (moduleId : string) (st : ModuleState) (t : PluginTask)
  : PluginTask :=
  {| t_pluginId := t_pluginId t; t_phase := t_phase t;
     t_modules := map_set (t_modules t) moduleId st |}.

Section TaskSteps.
Variable w : World.
Variable eps : list (string * (JsValue * string)).
Variable holder : option ServiceRegistry.t.
(** [pluginInits.get(pluginId)] and [moduleInits.get(pluginId)] *)
Variable pluginInit : option BackendRegisterInit.
Variable modules : list (string * BackendRegisterInit).

Definition node_of (moduleId : string) : option ModuleNode :=
  find (fun n : ModuleNode => String.eqb (fst (DependencyGraph.value n)) moduleId)
       (moduleGraph modules).

Definition is_InModules (p : Phase) : bool :=
  match p with InModules => true | _ => false end.

(** The visit of a module: [#getInitDeps], then [init.func]. *)
Definition visitModule (moduleId : string) (t : PluginTask)
  : option (PluginTask * list Event) :=
  match t_phase t, module_state t moduleId, node_of moduleId with
  | InModules, Waiting, Some n =>
      if DependencyGraph.ready (completed t) (moduleGraph modules) n
      then
        let moduleInit := snd (DependencyGraph.value n) in
        match getInitDeps eps holder (init_deps (init moduleInit))
                          (t_pluginId t) with
        | Ok moduleDeps =>
            Some (set_module moduleId
                             (InFlight (init_func (init moduleInit) moduleDeps)) t,
                  [ModuleInitCalled (t_pluginId t) moduleId])
        | Err e =>
            Some (set_phase (PluginFailed e) (set_module moduleId Failed t), [])
        end
      else None
  | _, _, _ => None
  end.

Definition settleModule (moduleId : string) (t : PluginTask)
  : option (PluginTask * list Event) :=
  match map_get (t_modules t) moduleId with
  | Some (InFlight (Ok _)) =>
      Some (set_module moduleId Completed t,
            [ModuleInitDone (t_pluginId t) moduleId])
  | Some (InFlight (Err cause)) =>
      let t' := set_module moduleId Failed t in
      Some (if is_InModules (t_phase t)
            then set_phase (PluginFailed
                              (ModuleStartupFailed moduleId (t_pluginId t) cause)) t'
            else t',
            [])
  | _ => None
  end.

(** "Once all modules have been initialized, we can initialize the plugin
    itself" *)
Definition traversalDone (t : PluginTask)
  : option (PluginTask * list Event) :=
  match t_phase t with
  | InModules =>
      if forallb (fun m => is_completed (snd m)) (t_modules t)
      then
        match pluginInit with
        | Some pluginInit =>
            match getInitDeps eps holder (init_deps (init pluginInit))
                              (t_pluginId t) with
            | Ok pluginDeps =>
                Some (set_phase
                        (InPluginInit (init_func (init pluginInit) pluginDeps)) t,
                      [PluginInitCalled (t_pluginId t)])
            | Err e => Some (set_phase (PluginFailed e) t, [])
            end
        | None => Some (set_phase BeforeStartup t, [])
        end
      else None
  | _ => None
  end.

Definition settlePluginInit (t : PluginTask)
  : option (PluginTask * list Event) :=
  match t_phase t with
  | InPluginInit (Ok _) =>
      Some (set_phase BeforeStartup t, [PluginInitDone (t_pluginId t)])
  | InPluginInit (Err cause) =>
      Some (set_phase (PluginFailed (PluginStartupFailed (t_pluginId t) cause)) t,
            [])
  | _ => None
  end.

Definition callStartup (t : PluginTask) : option (PluginTask * list Event) :=
  match t_phase t with
  | BeforeStartup =>
      match getPluginLifecycleImpl holder (t_pluginId t) with
      | Ok _ => Some (set_phase InStartup t, [PluginStartupCalled (t_pluginId t)])
      | Err e => Some (set_phase (PluginFailed e) t, [])
      end
  | _ => None
  end.

Definition settleStartup (t : PluginTask)
  : option (PluginTask * list Event) :=
  match t_phase t with
  | InStartup =>
      match pluginStartupHooks w (t_pluginId t) with
      | Ok _ => Some (set_phase PluginDone t, [PluginStartupDone (t_pluginId t)])
      | Err e => Some (set_phase (PluginFailed e) t, [])
      end
  | _ => None
  end.

Definition exec_task (a : TaskAction) (t : PluginTask)
  : option (PluginTask * list Event) :=
  match a with
  | VisitModule moduleId => visitModule moduleId t
  | SettleModule moduleId => settleModule moduleId t
  | TraversalDone => traversalDone t
  | SettlePluginInit => settlePluginInit t
  | CallStartup => callStartup t
  | SettleStartup => settleStartup t
  end.
End TaskSteps.

(* ===================================================================== *)
(** ** [#doStart]: the event loop *)
(* ===================================================================== *)

Inductive Action : Type :=
| TaskStep (pluginId : string) (a : TaskAction)
| PluginsSettled        (* [Promise.all] resolved: root lifecycle startup *)
| SettleRootStartup.    (* the promise of the root [startup()] settles *)

Definition find_task (pluginId : string) (tasks : list PluginTask)
  : option PluginTask :=
  find (fun t => String.eqb (t_pluginId t) pluginId) tasks.

Definition replace_task (t' : PluginTask) (tasks : list PluginTask)
  : list PluginTask :=
  map (fun t => if String.eqb (t_pluginId t) (t_pluginId t') then t' else t)
      tasks.

Definition is_PluginDone (t : PluginTask) : bool :=
  match t_phase t with PluginDone => true | _ => false end.

Definition set_stage (st : Stage) (ds : DoStart) : DoStart :=
  {| ds_stage := st; ds_pluginInits := ds_pluginInits ds;
     ds_moduleInits := ds_moduleInits ds; ds_tasks := ds_tasks ds |}.

Definition set_tasks (ts : list PluginTask) (ds : DoStart) : DoStart :=
  {| ds_stage := ds_stage ds; ds_pluginInits := ds_pluginInits ds;
     ds_moduleInits := ds_moduleInits ds; ds_tasks := ts |}.

(** [Promise.all] rejects with the first rejection of a task. *)
Definition stage_after (st : Stage) (t' : PluginTask) : Stage :=
  match st, t_phase t' with
  | AwaitPlugins, PluginFailed e => Settled (Err e)
  | _, _ => st
  end.

Definition errorHooks : list (string * Listener) :=
  [("unhandledRejection", UnhandledRejectionLogger);
   ("uncaughtException", UncaughtExceptionLogger)].

(** The end of [#doStart], after the root [startup()] resolved. *)
Definition installErrorHooks (w : World) (ds : DoStart) (s : State) : State :=
  if test_mode w
  then set_startPromise (Some (set_stage (Settled (Ok tt)) ds)) s
  else
    match holder_get (serviceHolder s) coreServices.rootLogger "root" with
    | Err e => set_startPromise (Some (set_stage (Settled (Err e)) ds)) s
    | Ok _ =>
        set_startPromise (Some (set_stage (Settled (Ok tt)) ds))
                         (set_listeners (listeners s ++ errorHooks) s)
    end.

(** One turn of the event loop on the pending [#doStart]; [None] when the
    continuation is not there to be run. *)
Definition exec (w : World) (a : Action) (s : State) : option State :=
  match startPromise s with
  | None => None
  | Some ds =>
      match a with
      | TaskStep pluginId ta =>
          match find_task pluginId (ds_tasks ds) with
          | None => None
          | Some t =>
              match exec_task w (extensionPoints s) (serviceHolder s)
                              (map_get (ds_pluginInits ds) pluginId)
                              (modules_of (ds_moduleInits ds) pluginId) ta t with
              | None => None
              | Some (t', evs) =>
                  Some (emit evs
                          (set_startPromise
                             (Some (set_stage (stage_after (ds_stage ds) t')
                                      (set_tasks (replace_task t' (ds_tasks ds)) ds)))
                             s))
              end
          end
      | PluginsSettled =>
          match ds_stage ds with
          | AwaitPlugins =>
              if forallb is_PluginDone (ds_tasks ds)
              then
                match getRootLifecycleImpl (serviceHolder s) with
                | Err e =>
                    Some (set_startPromise (Some (set_stage (Settled (Err e)) ds)) s)
                | Ok _ =>
                    match rootStartup s with
                    | Idle =>
                        Some (emit [RootStartupCalled]
                                (set_rootStartup Running
                                   (set_startPromise
                                      (Some (set_stage AwaitRootStartup ds)) s)))
                    | _ =>
                        Some (set_startPromise
                                (Some (set_stage
                                         (Settled (Err (Collaborator
                                                          LifecycleAlreadyInvoked
                                                          "startup"))) ds)) s)
                    end
                end
              else None
          | _ => None
          end
      | SettleRootStartup =>
          match ds_stage ds with
          | AwaitRootStartup =>
              match rootStartupHooks w with
              | Err e =>
                  Some (set_rootStartup HookFailed
                          (set_startPromise
                             (Some (set_stage (Settled (Err e)) ds)) s))
              | Ok _ =>
                  Some (installErrorHooks w ds
                          (emit [RootStartupDone] (set_rootStartup Done s)))
              end
          | _ => None
          end
      end
  end.

(** A run: the actions the event loop takes, in order. *)
Fixpoint run (w : World) (actions : list Action) (s : State) : option State :=
  match actions with
  | [] => Some s
  | a :: rest =>
      match exec w a s with
      | Some s' => run w rest s'
      | None => None
      end
  end.

(* ===================================================================== *)
(** ** [start], [stop] and the exit handler *)
(* ===================================================================== *)

Definition exitListeners : list (string * Listener) :=
  [("SIGTERM", ExitHandler); ("SIGINT", ExitHandler);
   ("beforeExit", ExitHandler)].

(** [start()] up to [await this.#startPromise].  The first component is
    the error of the call when it throws at once; otherwise the promise of
    the call settles as [#startPromise] does. *)
Definition start (w : World) (s : State) : option Error * State :=
  match startPromise s with
  | Some _ => (Some AlreadyStarted, s)
  | None =>
      let s1 := set_listeners (listeners s ++ exitListeners) s in
      match doStart_sequential w s1 with
      | (Ok (pluginInits, moduleInits), s2) =>
          (None, set_startPromise (Some (spawn pluginInits moduleInits)) s2)
      | (Err e, s2) =>
          (None, set_startPromise (Some (rejected_doStart e)) s2)
      end
  end.

(** The way [#startPromise] settled, if it has. *)
Definition startOutcome (s : State) : option (result unit) :=
  match startPromise s with
  | Some ds => match ds_stage ds with
               | Settled r => Some r
               | _ => None
               end
  | None => None
  end.

(** The states that a backend started from [s0] goes through. *)
Definition reachable (w : World) (s0 s : State) : Prop :=
  exists actions, run w actions (snd (start w s0)) = Some s.

(** Modelled from the spec: [shutdown()] of the root lifecycle runs the
    shutdown hooks once, their errors are logged and not thrown again; a
    second call is rejected. *)
Definition rootLifecycle_shutdown : M unit :=
  modify (emit [RootShutdownCalled]) ;;;
  s <- get_state ;;
  match rootShutdown s with
  | Idle => modify (set_rootShutdown Done)
  | _ => throw (Collaborator LifecycleAlreadyInvoked "shutdown")
  end.

(** [stop()]: [None] while the call is still awaiting [#startPromise]. *)
Definition stop (s : State) : option (result unit * State) :=
  match startPromise s with
  | None => Some (Ok tt, s)
  | Some ds =>
      match ds_stage ds with
      | Settled _ =>
          Some ((_ <- await (getRootLifecycleImpl (serviceHolder s)) ;;
                 rootLifecycle_shutdown) s)
      | _ => None
      end
  end.

(** [process.removeListener(event, exitHandler)] *)
Fixpoint removeListener (event : string) (l : Listener)
         (ls : list (string * Listener)) : list (string * Listener) :=
  match ls with
  | [] => []
  | (ev, l') :: rest =>
      if String.eqb ev event
         && match l, l' with
            | ExitHandler, ExitHandler
            | UnhandledRejectionLogger, UnhandledRejectionLogger
            | UncaughtExceptionLogger, UncaughtExceptionLogger => true
            | _, _ => false
            end
      then rest
      else (ev, l') :: removeListener event l rest
  end.

(** The [exitHandler] closure of [start()]. *)
Definition exitHandler (s : State) : option State :=
  let s1 := set_listeners
              (removeListener "beforeExit" ExitHandler
                 (removeListener "SIGINT" ExitHandler
                    (removeListener "SIGTERM" ExitHandler (listeners s)))) s in
  match stop s1 with
  | Some (Ok _, s2) => Some (emit [ProcessExit 0] s2)
  | Some (Err _, s2) => Some (emit [ProcessExit 1] s2)
  | None => None
  end.

(** The state of a backend that was constructed with [defaults] and then
    given the features [fs] through [add], one call each (a call that
    throws leaves the state as it was when it threw). *)
Definition configured (defaults : list ServiceFactory)
           (fs : list BackendFeature) : State :=
  fold_left (fun s f => snd (add f s)) fs (new_BackendInitializer defaults).

(* ===================================================================== *)
(** ** What holds of every run *)
(* ===================================================================== *)

Definition module_ids (moduleInits : ModuleInits) (pluginId : string)
  : list string :=
  map fst (modules_of moduleInits pluginId).

(** What has happened before an event can happen.  The wiring (the two
    indexes, the extension point table and the service holder) is fixed
    once [#doStart] has reached the plugin tasks. *)
Definition justified (pluginInits : PluginInits) (moduleInits : ModuleInits)
           (eps : list (string * (JsValue * string)))
           (holder : option ServiceRegistry.t)
           (ev : Event) (before : list Event) : Prop :=
  match ev with
  | ModuleInitCalled p m =>
      exists n,
        node_of (modules_of moduleInits p) m = Some n
        /\ is_ok (getInitDeps eps holder
                    (init_deps (init (snd (DependencyGraph.value n)))) p) = true
        /\ forall n', In n' (moduleGraph (modules_of moduleInits p)) ->
                      DependencyGraph.depends n n' = true ->
                      In (ModuleInitDone p (fst (DependencyGraph.value n'))) before
  | ModuleInitDone p m => In (ModuleInitCalled p m) before
  | PluginInitCalled p =>
      (exists pluginInit,
          map_get pluginInits p = Some pluginInit
          /\ is_ok (getInitDeps eps holder (init_deps (init pluginInit)) p) = true)
      /\ forall m, In m (module_ids moduleInits p) -> In (ModuleInitDone p m) before
  | PluginInitDone p => In (PluginInitCalled p) before
  | PluginStartupCalled p =>
      (forall m, In m (module_ids moduleInits p) -> In (ModuleInitDone p m) before)
      /\ (map_has pluginInits p = true -> In (PluginInitDone p) before)
  | PluginStartupDone p => In (PluginStartupCalled p) before
  | RootStartupCalled =>
      forall p, In p (allPluginIds pluginInits moduleInits) ->
                In (PluginStartupDone p) before
  | RootStartupDone => In RootStartupCalled before
  | RootShutdownCalled | ProcessExit _ => True
  end.

(** Every event of a log (latest first) was justified when it happened. *)
Fixpoint ordered (pluginInits : PluginInits) (moduleInits : ModuleInits)
         (eps : list (string * (JsValue * string)))
         (holder : option ServiceRegistry.t) (l : list Event) : Prop :=
  match l with
  | [] => True
  | ev :: before =>
      justified pluginInits moduleInits eps holder ev before
      /\ ordered pluginInits moduleInits eps holder before
  end.

Definition all_completed (t : PluginTask) : Prop :=
  forallb (fun m : string * ModuleState => is_completed (snd m)) (t_modules t)
  = true.

Definition module_logged (l : list Event) (p : string)
           (m : string * ModuleState) : Prop :=
  match snd m with
  | InFlight _ => In (ModuleInitCalled p (fst m)) l
  | Completed => In (ModuleInitDone p (fst m)) l
  | Waiting | Failed => True
  end.

(** What the state of a plugin task says about the log. *)
Definition task_inv (pluginInits : PluginInits) (moduleInits : ModuleInits)
           (l : list Event) (t : PluginTask) : Prop :=
  map fst (t_modules t) = module_ids moduleInits (t_pluginId t)
  /\ Forall (module_logged l (t_pluginId t)) (t_modules t)
  /\ match t_phase t with
     | InModules | PluginFailed _ => True
     | InPluginInit _ =>
         all_completed t /\ In (PluginInitCalled (t_pluginId t)) l
     | BeforeStartup =>
         all_completed t
         /\ (map_has pluginInits (t_pluginId t) = true ->
             In (PluginInitDone (t_pluginId t)) l)
     | InStartup =>
         all_completed t /\ In (PluginStartupCalled (t_pluginId t)) l
     | PluginDone =>
         all_completed t /\ In (PluginStartupDone (t_pluginId t)) l
     end.

Definition stage_inv (ds : DoStart) (l : list Event) : Prop :=
  match ds_stage ds with
  | AwaitPlugins | Settled (Err _) => True
  | AwaitRootStartup =>
      Forall (fun t => t_phase t = PluginDone) (ds_tasks ds)
      /\ In RootStartupCalled l
  | Settled (Ok _) =>
      Forall (fun t => t_phase t = PluginDone) (ds_tasks ds)
      /\ In RootStartupDone l
  end.

Definition resolved (ds : DoStart) : bool :=
  match ds_stage ds with
  | Settled (Ok _) => true
  | _ => false
  end.

(** The invariant of the runs of a backend whose wiring is [pluginInits],
    [moduleInits], [eps], [holder] and whose process had the listeners
    [ls0] when [start()] was called. *)
Definition run_inv (w : World) (pluginInits : PluginInits)
           (moduleInits : ModuleInits)
           (eps : list (string * (JsValue * string)))
           (holder : option ServiceRegistry.t)
           (ls0 : list (string * Listener)) (s : State) : Prop :=
  exists ds,
    startPromise s = Some ds
    /\ ds_pluginInits ds = pluginInits
    /\ ds_moduleInits ds = moduleInits
    /\ extensionPoints s = eps
    /\ serviceHolder s = holder
    /\ map t_pluginId (ds_tasks ds) = allPluginIds pluginInits moduleInits
    /\ Forall (task_inv pluginInits moduleInits (log s)) (ds_tasks ds)
    /\ ordered pluginInits moduleInits eps holder (log s)
    /\ stage_inv ds (log s)
    /\ listeners s
       = ls0 ++ exitListeners
             ++ (if resolved ds && negb (test_mode w) then errorHooks else []).

(* ===================================================================== *)
(** ** How [#getInitDeps] treats one ref *)
(* ===================================================================== *)

(** The ref is an extension point registered for another plugin. *)
Definition foreign (eps : list (string * (JsValue * string)))
           (pluginId : string) (ref : Ref) : bool :=
  match map_get eps (ref_id ref) with
  | Some (_, owner) => negb (String.eqb owner pluginId)
  | None => false
  end.

(** The ref is no extension point and resolving it as a service throws. *)
Definition resolution_throws (eps : list (string * (JsValue * string)))
           (holder : option ServiceRegistry.t) (pluginId : string) (ref : Ref)
  : bool :=
  match map_get eps (ref_id ref) with
  | Some _ => false
  | None => negb (is_ok (holder_get holder ref pluginId))
  end.

(** The ref is no extension point and the service holder has nothing
    (truthy) for it. *)
Definition is_missing (eps : list (string * (JsValue * string)))
           (holder : option ServiceRegistry.t) (pluginId : string) (ref : Ref)
  : bool :=
  match map_get eps (ref_id ref) with
  | Some _ => false
  | None =>
      match holder_get holder ref pluginId with
      | Ok impl => negb (truthy impl)
      | Err _ => false
      end
  end.

(** The loop of [#getInitDeps] goes past the ref: it is neither an
    extension point of another plugin nor a service whose resolution
    throws. *)
Definition passes (eps : list (string * (JsValue * string)))
           (holder : option ServiceRegistry.t) (pluginId : string) (ref : Ref)
  : Prop :=
  foreign eps pluginId ref = false
  /\ resolution_throws eps holder pluginId ref = false.

(** A step logs at most one event, and that event is justified. *)
Definition one_justified (pluginInits : PluginInits)
           (moduleInits : ModuleInits)
           (eps : list (string * (JsValue * string)))
           (holder : option ServiceRegistry.t) (evs l : list Event) : Prop :=
  match evs with
  | [] => True
  | ev :: rest =>
      rest = [] /\ justified pluginInits moduleInits eps holder ev l
  end.

(** The events that the task of a plugin logs. *)
Definition task_event (ev : Event) : Prop :=
  ev <> RootStartupCalled /\ ev <> RootStartupDone.

(** A computation keeps a field of the state. *)
Definition keeps {A X : Type} (f : State -> X) (c : M A) : Prop :=
  forall s, f (snd (c s)) = f s.

(** The state that [start()] leaves. *)
Definition started (w : World) (s0 : State) : State := snd (start w s0).

(** The state after the event loop took [actions] on a started backend
    (the started state itself when they cannot be taken). *)
Definition after (w : World) (actions : list Action) (s0 : State) : State :=
  match run w actions (started w s0) with
  | Some s => s
  | None => started w s0
  end.

(** The number of times the root lifecycle [shutdown()] was called. *)
Definition shutdown_calls (s : State) : nat :=
  List.length (filter (fun ev => match ev with
                                 | RootShutdownCalled => true
                                 | _ => false
                                 end) (log s)).

(* ===================================================================== *)
(** ** Example backends *)
(* ===================================================================== *)

Module Examples.

Definition constant_factory (ref : Ref) (impl : JsValue) : ServiceFactory :=
  {| sf_service := ref; sf_deps := []; sf_factory := fun _ _ => Ok impl |}.

(** The default services of a backend: root logger, the two lifecycles and
    the plugin metadata. *)
Definition defaults : list ServiceFactory :=
  [constant_factory coreServices.rootLogger (JObject (OtherClass "Logger") 0);
   constant_factory coreServices.rootLifecycle (JObject BackendLifecycleImpl 1);
   constant_factory coreServices.lifecycle (JObject BackendPluginLifecycleImpl 2);
   constant_factory coreServices.pluginMetadata (JObject (OtherClass "PluginMetadata") 3)].

(** No discovery service, every hook succeeds. *)
Definition production : World :=
  {| test_mode := false;
     getBackendFeatures := fun _ => Ok [];
     pluginStartupHooks := fun _ => Ok tt;
     rootStartupHooks := Ok tt |}.

Definition testing : World :=
  {| test_mode := true;
     getBackendFeatures := fun _ => Ok [];
     pluginStartupHooks := fun _ => Ok tt;
     rootStartupHooks := Ok tt |}.

Definition extensionPoint (id : string) : Ref :=
  {| ref_id := id; ref_kind := ExtensionPointKind;
     ref_text := ("extensionPoint{" ++ id ++ "}")%string |}.

Definition serviceRef (id : string) : Ref :=
  {| ref_id := id; ref_kind := ServiceKind PluginScope;
     ref_text := ("serviceRef{" ++ id ++ "}")%string |}.

Definition feature (r : Registration) : BackendFeature :=
  {| f_type := "@backstage/BackendFeature"; f_service := None;
     f_version := "v1"; f_getRegistrations := Some [r]; f_json := "{}" |}.

Definition succeeds (deps : list (string * Ref)) : Init :=
  {| init_deps := deps; init_func := fun _ => Ok tt |}.

Definition rejects (deps : list (string * Ref)) (cause : string) : Init :=
  {| init_deps := deps; init_func := fun _ => Err (JsError cause) |}.

Definition plugin (pluginId : string) (exts : list (Ref * JsValue))
           (i : Init) : BackendFeature :=
  feature {| r_type := PluginType; r_pluginId := pluginId; r_moduleId := "";
             r_extensionPoints := exts; r_init := i |}.

Definition module (pluginId moduleId : string) (exts : list (Ref * JsValue))
           (i : Init) : BackendFeature :=
  feature {| r_type := ModuleType; r_pluginId := pluginId;
             r_moduleId := moduleId; r_extensionPoints := exts; r_init := i |}.

Definition impl (n : nat) : JsValue := JObject (OtherClass "Extension") n.

(** Plugin A without modules; plugin B with module B1, which provides the
    extension point Bx, and module B2, which consumes it. *)
Definition two_plugins : list BackendFeature :=
  [plugin "A" [] (succeeds []);
   plugin "B" [] (succeeds []);
   module "B" "B1" [(extensionPoint "Bx", impl 10)] (succeeds []);
   module "B" "B2" [] (succeeds [("bx", extensionPoint "Bx")])].

Definition two_plugins_run : list Action :=
  [TaskStep "A" TraversalDone;
   TaskStep "B" (VisitModule "B2");
   TaskStep "A" SettlePluginInit;
   TaskStep "B" (SettleModule "B2");
   TaskStep "B" (VisitModule "B1");
   TaskStep "B" (SettleModule "B1");
   TaskStep "B" TraversalDone;
   TaskStep "B" SettlePluginInit;
   TaskStep "A" CallStartup;
   TaskStep "B" CallStartup;
   TaskStep "B" SettleStartup;
   TaskStep "A" SettleStartup;
   PluginsSettled;
   SettleRootStartup].

(** Plugin A registers the extension point ExtA; module M of plugin B asks
    for it. *)
Definition cross_plugin : list BackendFeature :=
  [plugin "A" [(extensionPoint "ExtA", impl 20)] (succeeds []);
   module "B" "M" [] (succeeds [("ext", extensionPoint "ExtA")])].

(** As [cross_plugin], and M also provides the extension point Bx that the
    module M0 of B consumes, so that M0 runs first; the [init.func] of M0
    rejects. *)
Definition cross_plugin_after_failure : list BackendFeature :=
  [plugin "A" [(extensionPoint "ExtA", impl 20)] (succeeds []);
   module "B" "M" [(extensionPoint "Bx", impl 21)]
          (succeeds [("ext", extensionPoint "ExtA")]);
   module "B" "M0" [] (rejects [("bx", extensionPoint "Bx")] "boom")].

(** Plugin B itself asks for the extension point of A; its module M0
    rejects. *)
Definition cross_plugin_init : list BackendFeature :=
  [plugin "A" [(extensionPoint "ExtA", impl 20)] (succeeds []);
   plugin "B" [] (succeeds [("ext", extensionPoint "ExtA")])].

Definition cross_plugin_init_after_failure : list BackendFeature :=
  [plugin "A" [(extensionPoint "ExtA", impl 20)] (succeeds []);
   plugin "B" [] (succeeds [("ext", extensionPoint "ExtA")]);
   module "B" "M0" [] (rejects [] "boom")].

(** Modules M1 (provides X, consumes Y) and M2 (provides Y, consumes X). *)
Definition cyclic_modules : list BackendFeature :=
  [module "P" "M1" [(extensionPoint "X", impl 30)]
          (succeeds [("y", extensionPoint "Y")]);
   module "P" "M2" [(extensionPoint "Y", impl 31)]
          (succeeds [("x", extensionPoint "X")])].

(** Module M of plugin P, and no plugin P. *)
Definition module_only : list BackendFeature :=
  [module "P" "M" [] (succeeds [])].

Definition module_only_run : list Action :=
  [TaskStep "P" (VisitModule "M");
   TaskStep "P" (SettleModule "M");
   TaskStep "P" TraversalDone;
   TaskStep "P" CallStartup;
   TaskStep "P" SettleStartup;
   PluginsSettled;
   SettleRootStartup].

(** Deps of an initializer of plugin B: a service that nobody provides and
    the extension point of plugin A. *)
Definition unknown_then_foreign : list (string * Ref) :=
  [("svc", serviceRef "unknown"); ("ext", extensionPoint "ExtA")].


Definition table : list (string * (JsValue * string)) :=
  [("ExtA", (impl 20, "A")); ("ExtB", (impl 22, "B"))].

Definition holder : option ServiceRegistry.t :=
  Some (ServiceRegistry.create defaults).

(** A discovery service that finds one more factory for the root logger
    and one for the plugin metadata. *)
Definition discovery_factory : ServiceFactory :=
  constant_factory coreServices.featureDiscoveryServiceRef
                   (JObject (OtherClass "FeatureDiscovery") 4).

Definition factory_feature (sf : ServiceFactory) : BackendFeature :=
  {| f_type := "@backstage/BackendFeature"; f_service := Some sf;
     f_version := ""; f_getRegistrations := None; f_json := "{}" |}.

Definition discovering (found : list BackendFeature) : World :=
  {| test_mode := false;
     getBackendFeatures := fun _ => Ok found;
     pluginStartupHooks := fun _ => Ok tt;
     rootStartupHooks := Ok tt |}.

End Examples.

(* ===================================================================== *)
(** ** Notions used in the statements *)
(* ===================================================================== *)

Unset Implicit Arguments.

(** *** Cycles *)







(** *** Reading a state *)

(** The activation of [#doStart] of a backend that has been started. *)
Definition final_DoStart (s : State) : DoStart :=
  match startPromise s with
  | Some ds => ds
  | None => rejected_doStart AlreadyStarted
  end.

(** [start()] has resolved: the backend is running. *)
Definition is_running (s : State) : bool :=
  match startOutcome s with
  | Some (Ok _) => true
  | _ => false
  end.

(** The way a call of [stop()] settles, and the state it leaves. *)
Definition stop_outcome (s : State) : option (result unit) :=
  option_map fst (stop s).

Definition stop_state (s : State) : State :=
  match stop s with
  | Some (_, s') => s'
  | None => s
  end.

(** The entry of module [m] of plugin [p] in [moduleInits], and the entry
    of plugin [p] in [pluginInits]. *)
Definition module_init (s : State) (p m : string) : BackendRegisterInit :=
  match map_get (modules_of (ds_moduleInits (final_DoStart s)) p) m with
  | Some moduleInit => moduleInit
  | None => {| consumes := []; provides := []; init := Examples.succeeds [] |}
  end.

Definition plugin_init (s : State) (p : string) : BackendRegisterInit :=
  match map_get (ds_pluginInits (final_DoStart s)) p with
  | Some pluginInit => pluginInit
  | None => {| consumes := []; provides := []; init := Examples.succeeds [] |}
  end.

(** The modules of every plugin have distinct ids (they are the keys of a
    [Map]). *)
Definition distinct_modules (moduleInits : ModuleInits) : Prop :=
  forall p ms, map_get moduleInits p = Some ms -> NoDup (map fst ms).

(** *** Progress of a plugin task *)











(** *** Backends with a discovery service *)

Definition extra_factory (n : nat) : ServiceFactory :=
  Examples.constant_factory (Examples.serviceRef "extra") (Examples.impl n).

Definition discovery_defaults : list ServiceFactory :=
  Examples.defaults ++ [Examples.discovery_factory].

(** *** Adding features *)

(** The feature is one that [#addFeature] pushes to [#features]: it has
    the type tag, no [service], a [getRegistrations] and the version v1. *)
Definition accepted_feature (f : BackendFeature) : bool :=
  String.eqb (f_type f) "@backstage/BackendFeature"
  && match f_service f with Some _ => false | None => true end
  && match f_getRegistrations f with Some _ => true | None => false end
  && String.eqb (f_version f) "v1".

Definition service_ids (fs : list ServiceFactory) : list string :=
  map (fun f => ref_id (sf_service f)) fs.

(** The errors that [add] throws for a feature. *)
Definition add_errors (feature : BackendFeature) : list Error :=
  [AlreadyStarted_add;
   MalformedFeature_type (f_type feature);
   ForbiddenServiceOverride;
   UnsupportedFeatureVersion (f_version feature);
   MalformedFeature (f_json feature)]
  ++ match f_service feature with
     | Some sf => [DuplicateServiceImpl (ref_id (sf_service sf))]
     | None => []
     end.

(** The features are given to [add], one call each. *)
Definition add_all (fs : list BackendFeature) (s : State) : State :=
  fold_left (fun s f => snd (add f s)) fs s.

(** No two provided factories are for the same service, and none is for
    the plugin metadata service. *)
Definition distinct_factories (s : State) : Prop :=
  NoDup (service_ids (providedServiceFactories s))
  /\ ~ In (ref_id coreServices.pluginMetadata)
          (service_ids (providedServiceFactories s)).

(** A computation keeps a property of the state. *)
Definition preserves {A : Type} (I : State -> Prop) (c : M A) : Prop :=
  forall s, I s -> I (snd (c s)).

(** [xs] without the elements of [seen], as a [Set] built from
    [[...seen, ...xs]] lists them after [seen]. *)
Definition unseen (seen xs : list string) : list string :=
  filter (fun x => negb (set_has String.eqb seen x)) xs.

(** *** The enumeration of the features *)

(** The registrations in the order in which [#doStart] goes through
    them. *)
Definition all_registrations (fs : list BackendFeature) : list Registration :=
  flat_map getRegistrations fs.

(** The entries of the extension point table that a registration asks
    for. *)
Definition declared (r : Registration) : list (string * (JsValue * string)) :=
  map (fun ext : Ref * JsValue => (ref_id (fst ext), (snd ext, r_pluginId r)))
      (r_extensionPoints r).

Definition is_plugin (r : Registration) : bool :=
  match r_type r with PluginType => true | ModuleType => false end.

Definition is_module_of (pluginId : string) (r : Registration) : bool :=
  negb (is_plugin r) && String.eqb (r_pluginId r) pluginId.

(** The [BackendRegisterInit] of a registration. *)
Definition entry_of (r : Registration) : BackendRegisterInit :=
  {| provides := set_of Ref_eqb (map fst (r_extensionPoints r));
     consumes := set_of Ref_eqb (map snd (init_deps (r_init r)));
     init := r_init r |}.

(** No extension point id is registered twice, no plugin id has two plugin
    registrations and no plugin has two modules with the same id. *)
Definition distinct_registrations (regs : list Registration) : Prop :=
  NoDup (map fst (flat_map declared regs))
  /\ NoDup (map r_pluginId (filter is_plugin regs))
  /\ forall p, NoDup (map r_moduleId (filter (is_module_of p) regs)).

(** The tables after the registrations [regs] have been gone through. *)
Definition indexed_as (regs : list Registration)
           (idx : PluginInits * ModuleInits) (s : State) : Prop :=
  extensionPoints s = flat_map declared regs
  /\ fst idx = map (fun r => (r_pluginId r, entry_of r)) (filter is_plugin regs)
  /\ forall p,
      modules_of (snd idx) p
      = map (fun r => (r_moduleId r, entry_of r)) (filter (is_module_of p) regs).

(** *** What the log says about the tasks *)

(** The event is logged by the task of plugin [p]. *)
Definition about (p : string) (ev : Event) : Prop :=
  match ev with
  | ModuleInitCalled q _ | ModuleInitDone q _ | PluginInitCalled q
  | PluginInitDone q | PluginStartupCalled q | PluginStartupDone q => q = p
  | _ => False
  end.

(** Where a task stands once it has logged the event. *)
Definition allows (holder : option ServiceRegistry.t) (t : PluginTask)
           (ev : Event) : Prop :=
  match ev with
  | ModuleInitCalled _ m => module_state t m <> Waiting
  | ModuleInitDone _ m => module_state t m = Completed
  | PluginInitCalled _ => t_phase t <> InModules
  | PluginInitDone _ =>
      match t_phase t with InModules | InPluginInit _ => False | _ => True end
  | PluginStartupCalled _ =>
      is_ok (getPluginLifecycleImpl holder (t_pluginId t)) = true
      /\ match t_phase t with
         | InStartup | PluginDone | PluginFailed _ => True
         | _ => False
         end
  | PluginStartupDone _ => t_phase t = PluginDone
  | _ => True
  end.

Definition reflects (holder : option ServiceRegistry.t) (l : list Event)
           (t : PluginTask) : Prop :=
  forall ev, In ev l -> about (t_pluginId t) ev -> allows holder t ev.

(** Where [#doStart] stands once the root lifecycle events are logged. *)
Definition stage_reflects (w : World) (holder : option ServiceRegistry.t)
           (st : Stage) (l : list Event) : Prop :=
  (In RootStartupCalled l ->
   st <> AwaitPlugins /\ is_ok (getRootLifecycleImpl holder) = true)
  /\ (In RootStartupDone l ->
      rootStartupHooks w = Ok tt
      /\ match st with Settled _ => True | _ => False end).

(** A failed task has rejected [#doStart], and a rejection after the
    plugin tasks were spawned is the error of a failed task unless every
    task is done. *)
Definition rejection_explained (ds : DoStart) : Prop :=
  (forall t e, In t (ds_tasks ds) -> t_phase t = PluginFailed e ->
               exists e', ds_stage ds = Settled (Err e'))
  /\ (forall e, ds_stage ds = Settled (Err e) ->
                (exists t, In t (ds_tasks ds) /\ t_phase t = PluginFailed e)
                \/ Forall (fun t => t_phase t = PluginDone) (ds_tasks ds)).

Definition log_inv (w : World) (s : State) : Prop :=
  exists ds,
    startPromise s = Some ds
    /\ Forall (reflects (serviceHolder s) (log s)) (ds_tasks ds)
    /\ stage_reflects w (serviceHolder s) (ds_stage ds) (log s)
    /\ rejection_explained ds
    /\ NoDup (log s)
    /\ Forall (fun ev => ev = RootStartupCalled \/ ev = RootStartupDone
                         \/ exists p, about p ev) (log s).

(** *** Backends with other lifecycle services, and runs *)

(** The defaults with a plugin lifecycle service and a root lifecycle
    service that are not the implementations the initializer expects. *)
Definition custom_plugin_lifecycle : list ServiceFactory :=
  Examples.defaults
  ++ [Examples.constant_factory coreServices.lifecycle
        (JObject (OtherClass "CustomLifecycle") 5)].

Definition custom_root_lifecycle : list ServiceFactory :=
  Examples.defaults
  ++ [Examples.constant_factory coreServices.rootLifecycle
        (JObject (OtherClass "CustomRootLifecycle") 6)].

(** Runs of the example backends: the module of B rejects while A starts;
    the module of P is initialized and the startup of P is called; P has
    started and [Promise.all] resolves. *)
Definition module_failure_run : list Action :=
  [TaskStep "A" TraversalDone; TaskStep "B" (VisitModule "M0");
   TaskStep "B" (SettleModule "M0"); TaskStep "A" SettlePluginInit;
   TaskStep "A" CallStartup; TaskStep "A" SettleStartup].

Definition until_plugin_startup : list Action :=
  [TaskStep "P" (VisitModule "M"); TaskStep "P" (SettleModule "M");
   TaskStep "P" TraversalDone; TaskStep "P" CallStartup].

Definition until_root_startup : list Action :=
  until_plugin_startup ++ [TaskStep "P" SettleStartup; PluginsSettled].

(** The task of a plugin in a state. *)
Definition task_of (s : State) (p : string) : PluginTask :=
  match find_task p (ds_tasks (final_DoStart s)) with
  | Some t => t
  | None => spawnTask [] p
  end.

(** *** What a start that resolved has been through *)

(** The deps of the initializer resolve for plugin [p], and the promise of
    its [init.func] on them settles as [r]. *)
Definition init_settles (s : State) (p : string) (i : BackendRegisterInit)
           (r : result unit) : Prop :=
  exists deps,
    getInitDeps (extensionPoints s) (serviceHolder s) (init_deps (init i)) p
    = Ok deps
    /\ init_func (init i) deps = r.

Definition init_resolves (s : State) (p : string) (i : BackendRegisterInit)
  : Prop :=
  init_settles s p i (Ok tt).

(** The initializers that a task has been through resolved. *)
Definition went_well (w : World) (s : State) (l : list Event)
           (t : PluginTask) : Prop :=
  (forall m r,
      map_get (t_modules t) m = Some (InFlight r) ->
      exists mi,
        map_get (modules_of (ds_moduleInits (final_DoStart s)) (t_pluginId t)) m
        = Some mi
        /\ init_settles s (t_pluginId t) mi r)
  /\ (forall m,
         map_get (t_modules t) m = Some Completed ->
         exists mi,
           map_get (modules_of (ds_moduleInits (final_DoStart s)) (t_pluginId t)) m
           = Some mi
           /\ init_resolves s (t_pluginId t) mi)
  /\ match t_phase t with
     | InModules | PluginFailed _ => True
     | InPluginInit r =>
         exists pi,
           map_get (ds_pluginInits (final_DoStart s)) (t_pluginId t) = Some pi
           /\ init_settles s (t_pluginId t) pi r
     | BeforeStartup =>
         forall pi,
           map_get (ds_pluginInits (final_DoStart s)) (t_pluginId t) = Some pi ->
           init_resolves s (t_pluginId t) pi
     | InStartup =>
         (forall pi,
             map_get (ds_pluginInits (final_DoStart s)) (t_pluginId t) = Some pi ->
             init_resolves s (t_pluginId t) pi)
         /\ is_ok (getPluginLifecycleImpl (serviceHolder s) (t_pluginId t)) = true
     | PluginDone =>
         (forall pi,
             map_get (ds_pluginInits (final_DoStart s)) (t_pluginId t) = Some pi ->
             init_resolves s (t_pluginId t) pi)
         /\ is_ok (getPluginLifecycleImpl (serviceHolder s) (t_pluginId t)) = true
         /\ pluginStartupHooks w (t_pluginId t) = Ok tt
     end.

(** *** What [#getInitDeps] binds *)

(** The value a dep is bound to: the implementation of the extension
    point when the ref is one of this plugin, the implementation of the
    service when the ref is no extension point and the service holder has a
    truthy one; nothing otherwise. *)
Definition dep_value (eps : list (string * (JsValue * string)))
           (holder : option ServiceRegistry.t) (pluginId : string) (ref : Ref)
  : option JsValue :=
  match map_get eps (ref_id ref) with
  | Some (impl, owner) => if String.eqb owner pluginId then Some impl else None
  | None =>
      match holder_get holder ref pluginId with
      | Ok impl => if truthy impl then Some impl else None
      | Err _ => None
      end
  end.

Definition bound_value (eps : list (string * (JsValue * string)))
           (holder : option ServiceRegistry.t) (pluginId : string) (ref : Ref)
  : JsValue :=
  match dep_value eps holder pluginId ref with
  | Some impl => impl
  | None => JUndefined
  end.

(** A service whose factory gives [null]. *)
Definition null_service : ServiceFactory :=
  Examples.constant_factory (Examples.serviceRef "nothing") JNull.

(** *** The registry of a backend *)

(** The registry that [#doStart] creates for a backend that has not been
    started. *)
Definition registry_of (s : State) : ServiceRegistry.t :=
  ServiceRegistry.create (defaultApiFactories s ++ providedServiceFactories s).

(** A root scoped service whose factory throws. *)
Definition broken_root_service : ServiceFactory :=
  {| sf_service := {| ref_id := "broken"; ref_kind := ServiceKind RootScope;
                      ref_text := "serviceRef{broken}" |};
     sf_deps := [];
     sf_factory := fun _ _ => Err (JsError "broken") |}.

(** A factory for the root logger other than the default one. *)
Definition custom_logger : ServiceFactory :=
  Examples.constant_factory coreServices.rootLogger
                            (JObject (OtherClass "CustomLogger") 7).

(* ===================================================================== *)
(** * Properties *)
(* ===================================================================== *)

Lemma map_get_set_eq (V : Type) (m : list (string * V)) k v :
  map_get (map_set m k v) k = Some v.
Proof.
  induction m as [|[k' v'] m IH]; simpl.
  - now rewrite String.eqb_refl.
  - destruct (String.eqb k' k) eqn:E; simpl; rewrite E; auto.
Qed.

Lemma map_get_set_ne (V : Type) (m : list (string * V)) k k' v :
  k <> k' -> map_get (map_set m k v) k' = map_get m k'.
Proof.
  intros Hne. induction m as [|[k0 v0] m IH]; simpl.
  - destruct (String.eqb k k') eqn:E; auto.
    apply String.eqb_eq in E. contradiction.
  - destruct (String.eqb k0 k) eqn:E; simpl.
    + apply String.eqb_eq in E. subst k0.
      destruct (String.eqb k k') eqn:E'; auto.
      apply String.eqb_eq in E'. contradiction.
    + now rewrite IH.
Qed.

Lemma map_get_In (V : Type) (m : list (string * V)) k v :
  map_get m k = Some v -> In (k, v) m.
Proof.
  induction m as [|[k' v'] m IH]; simpl; [discriminate|].
  destruct (String.eqb k' k) eqn:E.
  - apply String.eqb_eq in E. intros [= ->]. subst. now left.
  - intros Hg. right. auto.
Qed.

Lemma map_get_None_notin (V : Type) (m : list (string * V)) k :
  map_get m k = None -> ~ In k (map fst m).
Proof.
  induction m as [|[k' v'] m IH]; simpl; [tauto|].
  destruct (String.eqb k' k) eqn:E; [discriminate|].
  intros Hg [Heq|Hin]; [|now apply IH].
  apply String.eqb_neq in E. contradiction.
Qed.

Lemma map_get_in_keys (V : Type) (m : list (string * V)) k :
  In k (map fst m) -> exists v, map_get m k = Some v.
Proof.
  induction m as [|[k' v'] m IH]; simpl; [tauto|].
  intros H. destruct (String.eqb k' k) eqn:E; [eauto|].
  destruct H as [H|H]; [|auto].
  apply String.eqb_neq in E. contradiction.
Qed.

Lemma map_set_keys (V : Type) (m : list (string * V)) k v :
  In k (map fst m) -> map fst (map_set m k v) = map fst m.
Proof.
  induction m as [|[k0 v0] m IH]; simpl; [tauto|].
  intros H. destruct (String.eqb k0 k) eqn:E; simpl; [reflexivity|].
  f_equal. destruct H as [H|H]; [|auto].
  apply String.eqb_neq in E. contradiction.
Qed.

Lemma Ref_eqb_eq a b : Ref_eqb a b = true <-> a = b.
Proof.
  unfold Ref_eqb. split.
  - intros H. apply andb_true_iff in H as [H H3].
    apply andb_true_iff in H as [H1 H2].
    apply String.eqb_eq in H1, H3.
    destruct a as [ia ka ta], b as [ib kb tb]; simpl in *. subst.
    f_equal. destruct ka as [[]|], kb as [[]|]; simpl in H2; congruence.
  - intros <-. rewrite !String.eqb_refl.
    destruct (ref_kind a) as [[]|]; reflexivity.
Qed.

Lemma set_add_In (x y : Ref) s :
  In y (set_add Ref_eqb s x) <-> In y s \/ y = x.
Proof.
  unfold set_add, set_has.
  destruct (existsb (Ref_eqb x) s) eqn:E.
  - split; [auto|]. intros [H| ->]; auto.
    apply existsb_exists in E as (z & Hz & Hxz).
    apply Ref_eqb_eq in Hxz. now subst.
  - rewrite in_app_iff. simpl. intuition.
Qed.

Lemma fold_set_add_In (xs : list Ref) : forall s y,
  In y (fold_left (set_add Ref_eqb) xs s) <-> In y s \/ In y xs.
Proof.
  induction xs as [|x xs IH]; simpl; intros s y; [tauto|].
  rewrite IH, set_add_In. intuition.
Qed.

Section GetInitDepsFacts.
Variable eps : list (string * (JsValue * string)).
Variable holder : option ServiceRegistry.t.
Variable pluginId : string.

Let passes := passes eps holder pluginId.

Lemma loop_without_abort deps : forall bound missing,
  (forall name ref, In (name, ref) deps -> passes ref) ->
  exists bound',
    getInitDeps_loop eps holder pluginId deps bound missing
    = Ok (bound',
          fold_left (set_add Ref_eqb)
                    (filter (is_missing eps holder pluginId) (map snd deps))
                    missing).
Proof.
  induction deps as [|[name ref] deps IH]; intros bound missing Hpass.
  - simpl. eauto.
  - assert (Hhd : passes ref) by (apply (Hpass name); now left).
    assert (Htl : forall n r, In (n, r) deps -> passes r)
      by (intros n r Hin; apply (Hpass n); now right).
    destruct Hhd as [Hf Ht]. revert Hf Ht.
    unfold foreign, resolution_throws. simpl. unfold is_missing.
    destruct (map_get eps (ref_id ref)) as [[impl owner]|].
    + intros -> _. simpl. apply IH, Htl.
    + intros _. destruct (holder_get holder ref pluginId) as [impl|e];
        [intros _|discriminate].
      destruct (truthy impl); simpl; apply IH, Htl.
Qed.

Lemma loop_foreign_fails deps : forall bound missing name ref,
  In (name, ref) deps -> foreign eps pluginId ref = true ->
  exists e, getInitDeps_loop eps holder pluginId deps bound missing = Err e.
Proof.
  induction deps as [|[n r] deps IH]; intros bound missing name ref Hin Hf;
    [destruct Hin|].
  simpl. destruct Hin as [[= -> ->]|Hin].
  - unfold foreign in Hf.
    destruct (map_get eps (ref_id ref)) as [[impl owner]|]; [|discriminate].
    rewrite Hf. eauto.
  - destruct (map_get eps (ref_id r)) as [[impl owner]|].
    + destruct (negb (String.eqb owner pluginId)); eauto.
    + destruct (holder_get holder r pluginId) as [impl|e]; eauto.
      destruct (truthy impl); eauto.
Qed.

Lemma loop_foreign_ownership deps : forall bound missing name ref,
  In (name, ref) deps -> foreign eps pluginId ref = true ->
  (forall n r, In (n, r) deps -> resolution_throws eps holder pluginId r = false) ->
  exists owner,
    owner <> pluginId
    /\ getInitDeps_loop eps holder pluginId deps bound missing
       = Err (ExtensionPointOwnershipViolation owner pluginId).
Proof.
  induction deps as [|[n r] deps IH]; intros bound missing name ref Hin Hf Hnt;
    [destruct Hin|].
  assert (Hhd : resolution_throws eps holder pluginId r = false)
    by (apply (Hnt n); now left).
  assert (Htl : forall n' r', In (n', r') deps ->
                              resolution_throws eps holder pluginId r' = false)
    by (intros n' r' H; apply (Hnt n'); now right).
  simpl. unfold resolution_throws in Hhd.
  destruct (map_get eps (ref_id r)) as [[impl owner]|] eqn:Hep.
  - destruct (String.eqb owner pluginId) eqn:Eo; simpl.
    + destruct Hin as [[= -> ->]|Hin]; [|eauto].
      unfold foreign in Hf. rewrite Hep, Eo in Hf. discriminate.
    + exists owner. split; [|reflexivity]. now apply String.eqb_neq.
  - destruct Hin as [[= -> ->]|Hin].
    + unfold foreign in Hf. rewrite Hep in Hf. discriminate.
    + destruct (holder_get holder r pluginId) as [impl|e]; [|discriminate].
      destruct (truthy impl); eauto.
Qed.

Lemma loop_keeps_bound deps : forall bound missing bound' missing' k v,
  getInitDeps_loop eps holder pluginId deps bound missing = Ok (bound', missing') ->
  map_get bound k = Some v -> ~ In k (map fst deps) ->
  map_get bound' k = Some v.
Proof.
  induction deps as [|[n r] deps IH]; simpl;
    intros bound missing bound' missing' k v Hloop Hk Hnotin.
  - now injection Hloop as <- _.
  - assert (Hne : n <> k) by tauto.
    assert (Hnotin' : ~ In k (map fst deps)) by tauto.
    destruct (map_get eps (ref_id r)) as [[impl owner]|].
    + destruct (negb (String.eqb owner pluginId)); [discriminate|].
      eapply IH; eauto. now rewrite map_get_set_ne.
    + destruct (holder_get holder r pluginId) as [impl|e]; [|discriminate].
      destruct (truthy impl); eapply IH; eauto. now rewrite map_get_set_ne.
Qed.

Lemma loop_binds_own_extension_point deps :
  forall bound missing bound' missing' name ref impl,
  getInitDeps_loop eps holder pluginId deps bound missing = Ok (bound', missing') ->
  NoDup (map fst deps) -> In (name, ref) deps ->
  map_get eps (ref_id ref) = Some (impl, pluginId) ->
  map_get bound' name = Some impl.
Proof.
  induction deps as [|[n r] deps IH]; simpl;
    intros bound missing bound' missing' name ref impl Hloop Hnd Hin Hep;
    [destruct Hin|].
  inversion Hnd as [|? ? Hnotin Hnd']; subst.
  destruct Hin as [[= -> ->]|Hin].
  - rewrite Hep, String.eqb_refl in Hloop. simpl in Hloop.
    eapply loop_keeps_bound; eauto. apply map_get_set_eq.
  - destruct (map_get eps (ref_id r)) as [[impl' owner]|].
    + destruct (negb (String.eqb owner pluginId)); [discriminate|]. eauto.
    + destruct (holder_get holder r pluginId) as [impl'|e]; [|discriminate].
      destruct (truthy impl'); eauto.
Qed.

Lemma getInitDeps_foreign_fails deps name ref :
  In (name, ref) deps -> foreign eps pluginId ref = true ->
  is_ok (getInitDeps eps holder deps pluginId) = false.
Proof.
  intros Hin Hf. unfold getInitDeps.
  destruct (loop_foreign_fails deps [] [] name ref Hin Hf) as [e ->].
  reflexivity.
Qed.

End GetInitDepsFacts.

Lemma Forall_map_set (V : Type) (P : string * V -> Prop) m k v :
  Forall P m -> P (k, v) -> Forall P (map_set m k v).
Proof.
  intros Hm Hkv. induction Hm as [|[k0 v0] m H0 Hm IH]; simpl.
  - constructor; auto.
  - destruct (String.eqb k0 k) eqn:E; constructor; auto.
    apply String.eqb_eq in E. now subst.
Qed.

Lemma module_logged_mono l evs p m :
  module_logged l p m -> module_logged (evs ++ l) p m.
Proof.
  unfold module_logged. destruct (snd m); auto; intros H; apply in_or_app; auto.
Qed.

Lemma node_of_Some modules m n :
  node_of modules m = Some n ->
  In n (moduleGraph modules) /\ fst (DependencyGraph.value n) = m
  /\ In m (map fst modules).
Proof.
  unfold node_of. intros Hf. apply find_some in Hf as [Hin Heq].
  apply String.eqb_eq in Heq. repeat split; auto.
  unfold moduleGraph, DependencyGraph.fromIterable in Hin.
  apply in_map_iff in Hin as ([k v] & <- & Hin). simpl in *. subst.
  apply in_map_iff. exists (m, v). auto.
Qed.

Lemma all_completed_In t m st :
  all_completed t -> In (m, st) (t_modules t) -> st = Completed.
Proof.
  unfold all_completed. rewrite forallb_forall. intros H Hin.
  specialize (H _ Hin). simpl in H. destruct st; simpl in H; congruence.
Qed.

Section TaskInvariant.
Variable w : World.
Variable pluginInits : PluginInits.
Variable moduleInits : ModuleInits.
Variable eps : list (string * (JsValue * string)).
Variable holder : option ServiceRegistry.t.

Let step (a : TaskAction) (t : PluginTask) :=
  exec_task w eps holder (map_get pluginInits (t_pluginId t))
            (modules_of moduleInits (t_pluginId t)) a t.

Let one_justified := one_justified pluginInits moduleInits eps holder.

Lemma task_inv_mono l evs t :
  task_inv pluginInits moduleInits l t ->
  task_inv pluginInits moduleInits (evs ++ l) t.
Proof.
  unfold task_inv. intros (Hk & Hm & Hp). split; [auto|]. split.
  - eapply Forall_impl; [|exact Hm]. intros. now apply module_logged_mono.
  - destruct (t_phase t); auto; destruct Hp as [Hc Hin]; split; auto;
      try (apply in_or_app; auto).
    intros Hhas. apply in_or_app. auto.
Qed.

Lemma set_module_inv l t m st :
  task_inv pluginInits moduleInits l t ->
  In m (map fst (t_modules t)) ->
  module_logged l (t_pluginId t) (m, st) ->
  (match t_phase t with InModules | PluginFailed _ => True | _ => False end) ->
  task_inv pluginInits moduleInits l (set_module m st t).
Proof.
  unfold task_inv. intros (Hk & Hm & Hp) Hin Hl Hph. simpl.
  split; [rewrite map_set_keys; auto|]. split.
  - apply Forall_map_set; auto.
  - destruct (t_phase t); auto; contradiction.
Qed.

Lemma in_flight_phase l t m r :
  task_inv pluginInits moduleInits l t ->
  map_get (t_modules t) m = Some (InFlight r) ->
  match t_phase t with InModules | PluginFailed _ => True | _ => False end.
Proof.
  intros (_ & _ & Hp) Hg. apply map_get_In in Hg.
  destruct (t_phase t); auto; destruct Hp as [Hc _];
    pose proof (all_completed_In _ _ _ Hc Hg); discriminate.
Qed.

Lemma exec_task_inv l t a t' evs :
  task_inv pluginInits moduleInits l t ->
  step a t = Some (t', evs) ->
  t_pluginId t' = t_pluginId t
  /\ task_inv pluginInits moduleInits (evs ++ l) t'
  /\ one_justified evs l
  /\ Forall task_event evs
  /\ t_phase t <> PluginDone.
Proof.
  intros Hinv. pose proof Hinv as (Hk & Hm & Hp).
  unfold step. destruct a as [m|m| | | |]; simpl.
  - (* VisitModule *)
    unfold visitModule.
    destruct (t_phase t) eqn:Eph; try discriminate.
    destruct (module_state t m) eqn:Ems; try discriminate.
    destruct (node_of (modules_of moduleInits (t_pluginId t)) m) as [n|] eqn:En;
      try discriminate.
    destruct (DependencyGraph.ready _ _ n) eqn:Er; try discriminate.
    apply node_of_Some in En as Hn. destruct Hn as (Hng & Hnm & Hmk).
    assert (Hmk' : In m (map fst (t_modules t)))
      by (rewrite Hk; exact Hmk).
    destruct (getInitDeps eps holder _ (t_pluginId t)) as [deps|e] eqn:Eg;
      intros [= <- <-]; simpl.
    + split; [reflexivity|]. split; [|split; [|split]].
      * apply set_module_inv; auto.
        -- apply (task_inv_mono _ [_]). exact Hinv.
        -- unfold module_logged. simpl. now left.
        -- now rewrite Eph.
      * split; [reflexivity|]. exists n. split; [exact En|]. split.
        -- now rewrite Eg.
        -- intros n' Hin' Hdep.
           unfold DependencyGraph.ready in Er. rewrite forallb_forall in Er.
           specialize (Er _ Hin'). rewrite Hdep in Er.
           unfold completed, module_state in Er.
           destruct (map_get (t_modules t) (fst (DependencyGraph.value n')))
             as [st|] eqn:Eg'; [|discriminate].
           destruct st; try discriminate.
           apply map_get_In in Eg'. rewrite Forall_forall in Hm.
           apply (Hm _ Eg').
      * repeat constructor; discriminate.
      * congruence.
    + split; [reflexivity|]. split; [|split; [|split]]; simpl; auto.
      * pose proof (set_module_inv l t m Failed Hinv Hmk') as Hs.
        unfold module_logged in Hs. simpl in Hs. rewrite Eph in Hs.
        specialize (Hs I I). destruct Hs as (Hk' & Hm' & _).
        unfold task_inv. simpl. auto.
      * congruence.
  - (* SettleModule *)
    unfold settleModule.
    destruct (map_get (t_modules t) m) as [[|[u|cause]| |]|] eqn:Eg;
      try discriminate.
    + intros [= <- <-]. simpl.
      pose proof (in_flight_phase _ _ _ _ Hinv Eg) as Hph.
      apply map_get_In in Eg as Hin.
      split; [reflexivity|]. split; [|split; [|split]].
      * apply set_module_inv; auto.
        -- apply (task_inv_mono _ [_]). exact Hinv.
        -- apply in_map_iff. exists (m, InFlight (Ok u)). auto.
        -- unfold module_logged. simpl. now left.
      * split; [reflexivity|]. simpl. rewrite Forall_forall in Hm.
        apply (Hm _ Hin).
      * repeat constructor; discriminate.
      * intros E. rewrite E in Hph. exact Hph.
    + intros [= <- <-]. simpl.
      pose proof (in_flight_phase _ _ _ _ Hinv Eg) as Hph.
      apply map_get_In in Eg as Hin.
      assert (Hs : task_inv pluginInits moduleInits l (set_module m Failed t)).
      { apply set_module_inv; auto.
        - apply in_map_iff. exists (m, InFlight (Err cause)). auto.
        - unfold module_logged. simpl. exact I. }
      split; [destruct (is_InModules (t_phase t)); reflexivity|].
      split; [|split; [|split]]; simpl; auto.
      * destruct (is_InModules (t_phase t)); [|exact Hs].
        destruct Hs as (Hk' & Hm' & _). unfold task_inv. simpl. auto.
      * intros E. rewrite E in Hph. exact Hph.
  - (* TraversalDone *)
    unfold traversalDone. destruct (t_phase t) eqn:Eph; try discriminate.
    destruct (forallb _ (t_modules t)) eqn:Ec; try discriminate.
    assert (Hdone : forall m', In m' (module_ids moduleInits (t_pluginId t)) ->
                               In (ModuleInitDone (t_pluginId t) m') l).
    { intros m' Hin. rewrite <- Hk in Hin.
      apply in_map_iff in Hin as ([k st] & <- & Hin). simpl.
      pose proof (all_completed_In t _ _ Ec Hin) as ->.
      rewrite Forall_forall in Hm. apply (Hm _ Hin). }
    destruct (map_get pluginInits (t_pluginId t)) as [pluginInit|] eqn:Epi.
    + destruct (getInitDeps eps holder _ (t_pluginId t)) as [deps|e] eqn:Eg;
        intros [= <- <-]; simpl.
      * split; [reflexivity|]. split; [|split; [|split]].
        -- unfold task_inv. simpl. split; [auto|]. split.
           ++ eapply Forall_impl; [|exact Hm]. intros.
              now apply (module_logged_mono _ [_]).
           ++ split; [exact Ec|now left].
        -- split; [reflexivity|]. split; [|exact Hdone].
           exists pluginInit. split; [exact Epi|]. now rewrite Eg.
        -- repeat constructor; discriminate.
        -- congruence.
      * split; [reflexivity|]. split; [|split; [|split]]; simpl; auto.
        -- unfold task_inv. simpl. auto.
        -- congruence.
    + intros [= <- <-]. simpl.
      split; [reflexivity|]. split; [|split; [|split]]; simpl; auto.
      * unfold task_inv. simpl. split; [auto|]. split; [auto|].
        split; [exact Ec|]. unfold map_has. rewrite Epi. discriminate.
      * congruence.
  - (* SettlePluginInit *)
    unfold settlePluginInit.
    destruct (t_phase t) as [|[u|cause]| | | |] eqn:Eph; try discriminate;
      intros [= <- <-]; simpl; destruct Hp as [Hc Hcalled].
    + split; [reflexivity|]. split; [|split; [|split]].
      * unfold task_inv. simpl. split; [auto|]. split.
        -- eapply Forall_impl; [|exact Hm]. intros.
           now apply (module_logged_mono _ [_]).
        -- split; [exact Hc|]. intros _. now left.
      * split; [reflexivity|]. exact Hcalled.
      * repeat constructor; discriminate.
      * congruence.
    + split; [reflexivity|]. split; [|split; [|split]]; simpl; auto.
      * unfold task_inv. simpl. auto.
      * congruence.
  - (* CallStartup *)
    unfold callStartup. destruct (t_phase t) eqn:Eph; try discriminate.
    destruct Hp as [Hc Hdone].
    destruct (getPluginLifecycleImpl holder (t_pluginId t)) as [h|e];
      intros [= <- <-]; simpl.
    + split; [reflexivity|]. split; [|split; [|split]].
      * unfold task_inv. simpl. split; [auto|]. split.
        -- eapply Forall_impl; [|exact Hm]. intros.
           now apply (module_logged_mono _ [_]).
        -- split; [exact Hc|now left].
      * split; [reflexivity|]. split; [|exact Hdone].
        intros m' Hin. rewrite <- Hk in Hin.
        apply in_map_iff in Hin as ([k st] & <- & Hin). simpl.
        pose proof (all_completed_In t _ _ Hc Hin) as ->.
        rewrite Forall_forall in Hm. apply (Hm _ Hin).
      * repeat constructor; discriminate.
      * congruence.
    + split; [reflexivity|]. split; [|split; [|split]]; simpl; auto.
      * unfold task_inv. simpl. auto.
      * congruence.
  - (* SettleStartup *)
    unfold settleStartup. destruct (t_phase t) eqn:Eph; try discriminate.
    destruct Hp as [Hc Hcalled].
    destruct (pluginStartupHooks w (t_pluginId t)) as [u|e];
      intros [= <- <-]; simpl.
    + split; [reflexivity|]. split; [|split; [|split]].
      * unfold task_inv. simpl. split; [auto|]. split.
        -- eapply Forall_impl; [|exact Hm]. intros.
           now apply (module_logged_mono _ [_]).
        -- split; [exact Hc|now left].
      * split; [reflexivity|]. exact Hcalled.
      * repeat constructor; discriminate.
      * congruence.
    + split; [reflexivity|]. split; [|split; [|split]]; simpl; auto.
      * unfold task_inv. simpl. auto.
      * congruence.
Qed.

End TaskInvariant.

Lemma keeps_ret {A X} (f : State -> X) (a : A) : keeps f (ret a).
Proof. intros s. reflexivity. Qed.

Lemma keeps_throw {A X} (f : State -> X) e : keeps f (@throw A e).
Proof. intros s. reflexivity. Qed.

Lemma keeps_await {A X} (f : State -> X) (r : result A) : keeps f (await r).
Proof. intros s. reflexivity. Qed.

Lemma keeps_get_state {X} (f : State -> X) : keeps f get_state.
Proof. intros s. reflexivity. Qed.

Lemma keeps_modify {X} (f : State -> X) g :
  (forall s, f (g s) = f s) -> keeps f (modify g).
Proof. intros H s. apply H. Qed.

Lemma keeps_bind {A B X} (f : State -> X) (c : M A) (k : A -> M B) :
  keeps f c -> (forall a, keeps f (k a)) -> keeps f (bind c k).
Proof.
  intros Hc Hk s. unfold bind. specialize (Hc s).
  destruct (c s) as [[a|e] s']; simpl in *; [|exact Hc].
  now rewrite Hk.
Qed.

Lemma keeps_foldM {A B X} (f : State -> X) (body : B -> A -> M B) xs :
  (forall acc x, keeps f (body acc x)) -> forall acc, keeps f (foldM body acc xs).
Proof.
  intros Hb. induction xs as [|x xs IH]; intros acc; simpl.
  - apply keeps_ret.
  - apply keeps_bind; auto.
Qed.

Ltac keeps_tac :=
  repeat first
    [ apply keeps_ret | apply keeps_throw | apply keeps_await
    | apply keeps_get_state
    | apply keeps_modify; intros; reflexivity
    | apply keeps_bind; [|intros]
    | apply keeps_foldM; intros
    | match goal with
      | |- keeps _ (if ?b then _ else _) => destruct b
      | |- keeps _ (match ?x with _ => _ end) => destruct x
      | |- keeps _ (let (_, _) := ?x in _) => destruct x
      end ].

Lemma addFeature_keeps {X} (f : State -> X) feature :
  (forall p s, f (set_providedServiceFactories p s) = f s) ->
  (forall p s, f (set_features p s) = f s) ->
  keeps f (addFeature feature).
Proof.
  intros H1 H2. unfold addFeature.
  repeat first
    [ apply keeps_ret | apply keeps_throw | apply keeps_get_state
    | apply keeps_modify; intros; first [apply H1 | apply H2]
    | apply keeps_bind; [|intros]
    | match goal with
      | |- keeps _ (if ?b then _ else _) => destruct b
      | |- keeps _ (match ?x with _ => _ end) => destruct x
      end ].
Qed.

Lemma add_keeps {X} (f : State -> X) feature :
  (forall p s, f (set_providedServiceFactories p s) = f s) ->
  (forall p s, f (set_features p s) = f s) ->
  keeps f (add feature).
Proof.
  intros H1 H2. unfold add. apply keeps_bind; [apply keeps_get_state|].
  intros s. destruct (startPromise s); [apply keeps_throw|].
  now apply addFeature_keeps.
Qed.

Lemma indexFeatures_keeps {X} (f : State -> X) fs :
  (forall p s, f (set_extensionPoints p s) = f s) ->
  keeps f (indexFeatures fs).
Proof.
  intros H. unfold indexFeatures. apply keeps_foldM. intros acc feature.
  apply keeps_foldM. intros idx r. unfold indexRegistration.
  apply keeps_bind.
  - unfold registerExtensionPoints. apply keeps_foldM. intros provides [extRef extImpl].
    apply keeps_bind; [apply keeps_get_state|]. intros s.
    destruct (map_has _ _); [apply keeps_throw|].
    apply keeps_bind; [apply keeps_modify; intros; apply H|].
    intros; apply keeps_ret.
  - intros provides. destruct idx as [pluginInits moduleInits].
    destruct (r_type r).
    + destruct (map_has _ _); [apply keeps_throw|apply keeps_ret].
    + destruct (map_has _ _); [apply keeps_throw|apply keeps_ret].
Qed.

Lemma discoverFeatures_keeps {X} (f : State -> X) w reg :
  (forall p s, f (set_providedServiceFactories p s) = f s) ->
  (forall p s, f (set_features p s) = f s) ->
  keeps f (discoverFeatures w reg).
Proof.
  intros H1 H2. unfold discoverFeatures.
  apply keeps_bind; [apply keeps_await|]. intros fd.
  destruct (truthy fd); [|apply keeps_ret].
  apply keeps_bind; [apply keeps_await|]. intros found.
  unfold forM_. apply keeps_foldM. intros _ x. now apply addFeature_keeps.
Qed.

Lemma initRootServices_keeps {X} (f : State -> X) reg :
  keeps f (initRootServices reg).
Proof.
  unfold initRootServices, forM_. apply keeps_foldM. intros _ ref.
  destruct (is_root_scoped ref); keeps_tac.
Qed.

Lemma doStart_sequential_keeps {X} (f : State -> X) w :
  (forall p s, f (set_serviceHolder p s) = f s) ->
  (forall p s, f (set_providedServiceFactories p s) = f s) ->
  (forall p s, f (set_features p s) = f s) ->
  (forall p s, f (set_extensionPoints p s) = f s) ->
  keeps f (doStart_sequential w).
Proof.
  intros H0 H1 H2 H3. unfold doStart_sequential.
  apply keeps_bind; [apply keeps_get_state|]. intros s0.
  apply keeps_bind; [apply keeps_modify; intros; apply H0|]. intros _.
  apply keeps_bind; [now apply discoverFeatures_keeps|]. intros _.
  apply keeps_bind; [apply initRootServices_keeps|]. intros _.
  apply keeps_bind; [apply keeps_get_state|]. intros s1.
  now apply indexFeatures_keeps.
Qed.

(** The service holder that [#doStart] creates is the one it ends with. *)
Lemma doStart_sequential_holder w s :
  serviceHolder (snd (doStart_sequential w s))
  = Some (ServiceRegistry.create
            (defaultApiFactories s ++ providedServiceFactories s)).
Proof.
  unfold doStart_sequential, bind at 1. simpl. unfold bind at 1. simpl.
  set (reg := ServiceRegistry.create _).
  set (s1 := set_serviceHolder (Some reg) s).
  change (Some reg) with (serviceHolder s1).
  generalize s1. intros s'.
  apply (keeps_bind serviceHolder).
  - apply discoverFeatures_keeps; reflexivity.
  - intros _. apply keeps_bind; [apply initRootServices_keeps|]. intros _.
    apply keeps_bind; [apply keeps_get_state|]. intros s2.
    apply indexFeatures_keeps; reflexivity.
Qed.

Lemma configured_fresh {X} (f : State -> X) defaults fs :
  (forall p s, f (set_providedServiceFactories p s) = f s) ->
  (forall p s, f (set_features p s) = f s) ->
  f (configured defaults fs) = f (new_BackendInitializer defaults).
Proof.
  intros H1 H2. unfold configured.
  generalize (new_BackendInitializer defaults) as s.
  induction fs as [|x fs IH]; intros s; simpl; [reflexivity|].
  rewrite IH. now apply add_keeps.
Qed.

Lemma find_task_Some p ts t :
  find_task p ts = Some t -> In t ts /\ t_pluginId t = p.
Proof.
  unfold find_task. intros H. apply find_some in H as [Hin Heq].
  apply String.eqb_eq in Heq. auto.
Qed.

Lemma replace_task_ids t' ts :
  map t_pluginId (replace_task t' ts) = map t_pluginId ts.
Proof.
  unfold replace_task. rewrite map_map. apply map_ext. intros t.
  destruct (String.eqb (t_pluginId t) (t_pluginId t')) eqn:E; [|reflexivity].
  apply String.eqb_eq in E. auto.
Qed.

Lemma replace_task_Forall (P : PluginTask -> Prop) t' ts :
  P t' -> Forall P ts -> Forall P (replace_task t' ts).
Proof.
  intros Ht' Hts. unfold replace_task. apply Forall_map.
  eapply Forall_impl; [|exact Hts]. intros t Ht. simpl.
  destruct (String.eqb _ _); auto.
Qed.

Lemma ordered_emit pluginInits moduleInits eps holder evs l :
  ordered pluginInits moduleInits eps holder l ->
  one_justified pluginInits moduleInits eps holder evs l ->
  ordered pluginInits moduleInits eps holder (evs ++ l).
Proof.
  intros Hl Hj. destruct evs as [|ev rest]; simpl; [exact Hl|].
  destruct Hj as [-> Hj]. simpl. auto.
Qed.

Section RunInvariant.
Variable w : World.
Variable pluginInits : PluginInits.
Variable moduleInits : ModuleInits.
Variable eps : list (string * (JsValue * string)).
Variable holder : option ServiceRegistry.t.
Variable ls0 : list (string * Listener).

Let Inv := run_inv w pluginInits moduleInits eps holder ls0.

Lemma run_inv_exec a s s' : Inv s -> exec w a s = Some s' -> Inv s'.
Proof.
  intros (ds & Hsp & Hpi & Hmi & Hep & Hh & Hids & Htasks & Hord & Hst & Hls).
  unfold exec. rewrite Hsp. destruct a as [p ta| |].
  - (* a plugin task takes a step *)
    destruct (find_task p (ds_tasks ds)) as [t|] eqn:Ef; [|discriminate].
    apply find_task_Some in Ef as [Hin Hp]. subst p.
    rewrite Hep, Hh, Hpi, Hmi.
    destruct (exec_task _ _ _ _ _ ta t) as [[t' evs]|] eqn:Ex; [|discriminate].
    intros [= <-].
    assert (Ht : task_inv pluginInits moduleInits (log s) t)
      by (rewrite Forall_forall in Htasks; auto).
    destruct (exec_task_inv w pluginInits moduleInits eps holder
                            (log s) t ta t' evs Ht Ex)
      as (Hid & Ht' & Hj & Hev & Hnd).
    assert (Hstage : match ds_stage ds with
                     | AwaitPlugins | Settled (Err _) => True
                     | _ => False
                     end).
    { revert Hst. unfold stage_inv.
      destruct (ds_stage ds) as [| |[u|e]]; auto; intros [Hall _];
        rewrite Forall_forall in Hall; apply Hnd; auto. }
    eexists. split; [reflexivity|]. simpl.
    repeat split; auto.
    + now rewrite replace_task_ids.
    + apply replace_task_Forall; [exact Ht'|].
      eapply Forall_impl; [|exact Htasks]. intros. now apply task_inv_mono.
    + now apply ordered_emit.
    + unfold stage_inv, stage_after. simpl.
      destruct (ds_stage ds) as [| |[u|e]]; try contradiction; auto.
      destruct (t_phase t'); auto.
    + rewrite Hls. unfold resolved, stage_after. simpl.
      destruct (ds_stage ds) as [| |[u|e]]; try contradiction; auto.
      destruct (t_phase t'); auto.
  - (* Promise.all resolved *)
    destruct (ds_stage ds) eqn:Es; try discriminate.
    destruct (forallb is_PluginDone (ds_tasks ds)) eqn:Eall; [|discriminate].
    assert (Hall : Forall (fun t => t_phase t = PluginDone) (ds_tasks ds)).
    { apply Forall_forall. intros t Hin. rewrite forallb_forall in Eall.
      specialize (Eall _ Hin). unfold is_PluginDone in Eall.
      destruct (t_phase t); congruence. }
    assert (Hres : resolved ds = false) by (unfold resolved; now rewrite Es).
    rewrite Hres in Hls.
    destruct (getRootLifecycleImpl (serviceHolder s)) as [h|e].
    + destruct (rootStartup s); intros [= <-];
        (eexists; split; [reflexivity|]); simpl; repeat split; auto;
        try (unfold stage_inv; simpl; auto; fail).
      * eapply Forall_impl; [|exact Htasks]. intros.
        now apply (task_inv_mono _ _ _ [_]).
      * intros p Hp. rewrite <- Hids in Hp.
        apply in_map_iff in Hp as (t & <- & Hin).
        rewrite Forall_forall in Htasks, Hall.
        destruct (Htasks _ Hin) as (_ & _ & Hph).
        rewrite (Hall _ Hin) in Hph. apply Hph.
    + intros [= <-]. eexists; split; [reflexivity|]. simpl.
      repeat split; auto.
  - (* the root startup settled *)
    destruct (ds_stage ds) eqn:Es; try discriminate.
    assert (Hres : resolved ds = false) by (unfold resolved; now rewrite Es).
    rewrite Hres in Hls.
    unfold stage_inv in Hst. rewrite Es in Hst. destruct Hst as [Hall Hcalled].
    assert (Hfin : forall l, listeners s = l -> l = ls0 ++ exitListeners ++ [])
      by (intros l <-; exact Hls).
    destruct (rootStartupHooks w) as [u|e]; intros [= <-].
    + unfold installErrorHooks. simpl.
      assert (Htasks' : Forall (task_inv pluginInits moduleInits
                                         (RootStartupDone :: log s)) (ds_tasks ds)).
      { eapply Forall_impl; [|exact Htasks]. intros.
        now apply (task_inv_mono _ _ _ [_]). }
      assert (Hdone : stage_inv (set_stage (Settled (Ok tt)) ds)
                                (RootStartupDone :: log s)).
      { unfold stage_inv. simpl. split; [exact Hall|now left]. }
      destruct (test_mode w) eqn:Et.
      * eexists; split; [reflexivity|]. simpl.
        repeat (split; [solve [auto]|]). rewrite Hls, Et. reflexivity.
      * rewrite Hh.
        destruct (holder_get holder coreServices.rootLogger "root") as [v|e];
          (eexists; split; [reflexivity|]); simpl;
          repeat (split; [solve [auto | exact I]|]); rewrite Hls, ?Et.
        -- simpl. now rewrite <- app_assoc.
        -- reflexivity.
    + eexists; split; [reflexivity|]. simpl.
      repeat (split; [solve [auto | exact I]|]). rewrite Hls. reflexivity.
Qed.

Lemma run_inv_run actions : forall s s',
  Inv s -> run w actions s = Some s' -> Inv s'.
Proof.
  induction actions as [|a actions IH]; simpl; intros s s' Hinv.
  - now intros [= <-].
  - destruct (exec w a s) as [s1|] eqn:E; [|discriminate].
    apply IH. eapply run_inv_exec; eauto.
Qed.

End RunInvariant.

Lemma spawnTask_inv pluginInits moduleInits p :
  task_inv pluginInits moduleInits [] (spawnTask moduleInits p).
Proof.
  unfold task_inv, spawnTask. simpl. repeat split.
  - unfold module_ids. rewrite map_map. reflexivity.
  - apply Forall_map. apply Forall_forall. intros m _. exact I.
  - destruct (DependencyGraph.detectCircularDependency _); exact I.
Qed.

Lemma start_inv w s0 :
  startPromise s0 = None -> log s0 = [] ->
  exists ds1,
    startPromise (started w s0) = Some ds1
    /\ run_inv w (ds_pluginInits ds1) (ds_moduleInits ds1)
               (extensionPoints (started w s0)) (serviceHolder (started w s0))
               (listeners s0) (started w s0).
Proof.
  intros Hsp Hlog. unfold started, start. rewrite Hsp.
  set (s1 := set_listeners (listeners s0 ++ exitListeners) s0).
  assert (Hl : listeners (snd (doStart_sequential w s1)) = listeners s1)
    by (apply doStart_sequential_keeps; reflexivity).
  assert (Hg : log (snd (doStart_sequential w s1)) = log s1)
    by (apply doStart_sequential_keeps; reflexivity).
  destruct (doStart_sequential w s1) as [[[pluginInits moduleInits]|e] s2];
    simpl in *.
  - eexists. split; [reflexivity|]. eexists. split; [reflexivity|]. simpl.
    repeat split; auto.
    + rewrite map_map. simpl. apply map_id.
    + rewrite Hg, Hlog. apply Forall_map. apply Forall_forall. intros p _.
      apply spawnTask_inv.
    + rewrite Hg, Hlog. exact I.
    + unfold stage_inv. simpl. destruct (first_rejection _); exact I.
    + rewrite Hl. unfold resolved. simpl.
      destruct (first_rejection _); simpl; reflexivity.
  - eexists. split; [reflexivity|]. eexists. split; [reflexivity|]. simpl.
    repeat split; auto.
    rewrite Hg, Hlog. exact I.
Qed.

Lemma configured_not_started defaults fs :
  startPromise (configured defaults fs) = None.
Proof. now rewrite configured_fresh. Qed.

Lemma configured_log defaults fs : log (configured defaults fs) = [].
Proof. now rewrite configured_fresh. Qed.

Lemma configured_listeners defaults fs : listeners (configured defaults fs) = [].
Proof. now rewrite configured_fresh. Qed.

(** Every state that a configured backend reaches satisfies the
    invariant of its wiring. *)
Lemma reachable_inv w defaults fs s :
  reachable w (configured defaults fs) s ->
  exists ds1,
    startPromise (started w (configured defaults fs)) = Some ds1
    /\ run_inv w (ds_pluginInits ds1) (ds_moduleInits ds1)
               (extensionPoints (started w (configured defaults fs)))
               (serviceHolder (started w (configured defaults fs)))
               [] s.
Proof.
  intros [actions Hrun].
  destruct (start_inv w (configured defaults fs)
                      (configured_not_started _ _) (configured_log _ _))
    as (ds1 & Hds1 & Hinv).
  rewrite configured_listeners in Hinv.
  exists ds1. split; [exact Hds1|].
  eapply run_inv_run; eauto.
Qed.

Lemma ordered_split pluginInits moduleInits eps holder l1 ev l2 :
  ordered pluginInits moduleInits eps holder (l1 ++ ev :: l2) ->
  justified pluginInits moduleInits eps holder ev l2.
Proof.
  induction l1 as [|x l1 IH]; simpl; intros [Hj Ho]; auto.
Qed.

Lemma trace_split s before ev after_ :
  trace s = before ++ ev :: after_ ->
  log s = rev after_ ++ ev :: rev before.
Proof.
  unfold trace. intros H. rewrite <- (rev_involutive (log s)), H.
  rewrite rev_app_distr. simpl. now rewrite <- app_assoc.
Qed.

Lemma ordered_In pluginInits moduleInits eps holder l ev :
  ordered pluginInits moduleInits eps holder l -> In ev l ->
  exists before,
    justified pluginInits moduleInits eps holder ev before
    /\ incl before l.
Proof.
  induction l as [|x l IH]; simpl; [intros _ []|]. intros [Hj Ho] Hin.
  destruct Hin as [->|Hin].
  - exists l. split; [exact Hj|]. now apply incl_tl, incl_refl.
  - destruct (IH Ho Hin) as (before & Hb & Hincl).
    exists before. split; [exact Hb|]. now apply incl_tl.
Qed.

Lemma set_of_string_In xs : forall x acc,
  In x (fold_left (set_add String.eqb) xs acc) <-> In x acc \/ In x xs.
Proof.
  induction xs as [|y xs IH]; simpl; intros x acc; [tauto|].
  rewrite IH. unfold set_add, set_has.
  destruct (existsb (String.eqb y) acc) eqn:E.
  - apply existsb_exists in E as (z & Hz & Hyz). apply String.eqb_eq in Hyz.
    subst z. intuition. subst. auto.
  - rewrite in_app_iff. simpl. intuition.
Qed.

Lemma allPluginIds_In pluginInits moduleInits p :
  In p (allPluginIds pluginInits moduleInits)
  <-> In p (map_keys pluginInits) \/ In p (map_keys moduleInits).
Proof.
  unfold allPluginIds, set_of. rewrite set_of_string_In, in_app_iff. simpl.
  tauto.
Qed.

Lemma node_of_map_get modules m n :
  node_of modules m = Some n ->
  map_get modules m = Some (snd (DependencyGraph.value n)).
Proof.
  unfold node_of, moduleGraph, DependencyGraph.fromIterable.
  induction modules as [|[k v] modules IH]; simpl; [discriminate|].
  destruct (String.eqb k m) eqn:E; [now intros [= <-]|auto].
Qed.

Lemma modules_of_In moduleInits p m mi :
  map_get (modules_of moduleInits p) m = Some mi ->
  In p (map_keys moduleInits).
Proof.
  unfold modules_of. destruct (map_get moduleInits p) as [ms|] eqn:E;
    [|discriminate].
  intros _. apply map_get_In in E. unfold map_keys.
  apply in_map_iff. exists (p, ms). auto.
Qed.

(** ** Missing refs are reported together *)




Lemma justified_mono pluginInits moduleInits eps holder ev b b' :
  incl b b' ->
  justified pluginInits moduleInits eps holder ev b ->
  justified pluginInits moduleInits eps holder ev b'.
Proof.
  intros Hincl. destruct ev; simpl; auto.
  - intros (n & Hn & Hok & Hdeps). exists n. repeat split; auto.
  - intros [Hex Hall]. split; auto.
  - intros [Hall Hinit]. split; auto.
Qed.

(** Whatever is in the log was justified by what is in the log. *)
Lemma logged_justified pluginInits moduleInits eps holder l ev :
  ordered pluginInits moduleInits eps holder l -> In ev l ->
  justified pluginInits moduleInits eps holder ev l.
Proof.
  intros Ho Hin. destruct (ordered_In _ _ _ _ _ _ Ho Hin) as (b & Hj & Hincl).
  eapply justified_mono; eauto.
Qed.

Lemma reachable_run_inv w defaults fs s ds :
  reachable w (configured defaults fs) s ->
  startPromise s = Some ds ->
  run_inv w (ds_pluginInits ds) (ds_moduleInits ds)
          (extensionPoints s) (serviceHolder s) [] s.
Proof.
  intros Hr Hsp. destruct (reachable_inv _ _ _ _ Hr) as (ds1 & _ & Hinv).
  pose proof Hinv as (ds' & Hsp' & Hpi & Hmi & Hep & Hh & _).
  rewrite Hsp in Hsp'. injection Hsp' as <-.
  now rewrite Hpi, Hmi, Hep, Hh.
Qed.

Lemma reachable_ordered w defaults fs s ds :
  reachable w (configured defaults fs) s ->
  startPromise s = Some ds ->
  ordered (ds_pluginInits ds) (ds_moduleInits ds)
          (extensionPoints s) (serviceHolder s) (log s).
Proof.
  intros Hr Hsp. destruct (reachable_run_inv _ _ _ _ _ Hr Hsp)
    as (ds' & Hsp' & _ & _ & _ & _ & _ & _ & Ho & _).
  exact Ho.
Qed.

Lemma in_trace s ev : In ev (trace s) <-> In ev (log s).
Proof. unfold trace. symmetry. apply in_rev. Qed.

(** When [start()] has resolved, the startup of every plugin is done. *)
Lemma resolved_plugins_done w defaults fs s ds p :
  reachable w (configured defaults fs) s ->
  startPromise s = Some ds ->
  startOutcome s = Some (Ok tt) ->
  In p (allPluginIds (ds_pluginInits ds) (ds_moduleInits ds)) ->
  In (PluginStartupDone p) (log s).
Proof.
  intros Hr Hsp Hout Hp.
  destruct (reachable_run_inv _ _ _ _ _ Hr Hsp)
    as (ds' & Hsp' & _ & _ & _ & _ & Hids & Htasks & _ & Hst & _).
  rewrite Hsp in Hsp'. injection Hsp' as <-.
  unfold startOutcome in Hout. rewrite Hsp in Hout.
  unfold stage_inv in Hst.
  destruct (ds_stage ds) as [| |[u|e]]; try discriminate.
  destruct Hst as [Hall _]. rewrite <- Hids in Hp.
  apply in_map_iff in Hp as (t & <- & Hin).
  rewrite Forall_forall in Htasks, Hall.
  destruct (Htasks _ Hin) as (_ & _ & Hph). rewrite (Hall _ Hin) in Hph.
  apply Hph.
Qed.

(** The startup of a plugin is called after its modules and its own
    initializer are done. *)
Lemma startup_done_after w defaults fs s ds p :
  reachable w (configured defaults fs) s ->
  startPromise s = Some ds ->
  In (PluginStartupDone p) (log s) ->
  In (PluginStartupCalled p) (log s)
  /\ (forall m, In m (module_ids (ds_moduleInits ds) p) ->
                In (ModuleInitDone p m) (log s)
                /\ In (ModuleInitCalled p m) (log s))
  /\ (map_has (ds_pluginInits ds) p = true ->
      In (PluginInitDone p) (log s) /\ In (PluginInitCalled p) (log s)).
Proof.
  intros Hr Hsp Hdone.
  pose proof (reachable_ordered _ _ _ _ _ Hr Hsp) as Ho.
  pose proof (logged_justified _ _ _ _ _ _ Ho Hdone) as Hcalled.
  simpl in Hcalled.
  pose proof (logged_justified _ _ _ _ _ _ Ho Hcalled) as [Hmods Hinit].
  split; [exact Hcalled|]. split.
  - intros m Hm. split; [auto|].
    apply (logged_justified _ _ _ _ _ _ Ho (Hmods m Hm)).
  - intros Hhas. split; [auto|].
    apply (logged_justified _ _ _ _ _ _ Ho (Hinit Hhas)).
Qed.



(** ** Initialization order *)

(** C2.  In every run of [start()]: when the [init.func] of a plugin is
    called, the [init.func] of every module of that plugin has completed;
    when the lifecycle [startup()] of a plugin is called, the [init.func]
    of the plugin (if it has one) has completed; and when the root
    lifecycle [startup()] is called, the [startup()] of every plugin has
    completed. *)
Theorem start_initializes_in_order w defaults fs s ds before ev later :
  reachable w (configured defaults fs) s ->
  startPromise s = Some ds ->
  trace s = before ++ ev :: later ->
  (forall p m, ev = PluginInitCalled p ->
               In m (module_ids (ds_moduleInits ds) p) ->
               In (ModuleInitDone p m) before)
  /\ (forall p, ev = PluginStartupCalled p ->
                map_has (ds_pluginInits ds) p = true ->
                In (PluginInitDone p) before)
  /\ (ev = RootStartupCalled ->
      forall p, In p (allPluginIds (ds_pluginInits ds) (ds_moduleInits ds)) ->
                In (PluginStartupDone p) before).
Proof.
  intros Hr Hsp Htrace.
  pose proof (reachable_ordered _ _ _ _ _ Hr Hsp) as Ho.
  rewrite (trace_split _ _ _ _ Htrace) in Ho.
  apply ordered_split in Ho.
  split; [|split].
  - intros p m -> Hm. destruct Ho as [_ Hmods]. apply in_rev. auto.
  - intros p -> Hhas. destruct Ho as [_ Hinit]. apply in_rev. auto.
  - intros -> p Hp. apply in_rev. apply Ho. exact Hp.
Qed.

(** A module whose deps do not resolve is never initialized, and
    [start()] does not resolve. *)
Lemma unresolved_module_blocks w defaults fs s ds p m moduleInit :
  reachable w (configured defaults fs) s ->
  startPromise s = Some ds ->
  map_get (modules_of (ds_moduleInits ds) p) m = Some moduleInit ->
  is_ok (getInitDeps (extensionPoints s) (serviceHolder s)
                     (init_deps (init moduleInit)) p) = false ->
  ~ In (ModuleInitCalled p m) (log s) /\ startOutcome s <> Some (Ok tt).
Proof.
  intros Hr Hsp Hm Hres.
  pose proof (reachable_ordered _ _ _ _ _ Hr Hsp) as Ho.
  assert (Hnot : ~ In (ModuleInitCalled p m) (log s)).
  { intros Hin. apply (logged_justified _ _ _ _ _ _ Ho) in Hin.
    destruct Hin as (n & Hn & Hok & _).
    apply node_of_map_get in Hn. rewrite Hm in Hn. injection Hn as Heq.
    rewrite <- Heq, Hres in Hok. discriminate. }
  split; [exact Hnot|]. intros Hout. apply Hnot.
  assert (Hp : In p (allPluginIds (ds_pluginInits ds) (ds_moduleInits ds)))
    by (apply allPluginIds_In; right; eapply modules_of_In; eauto).
  pose proof (resolved_plugins_done _ _ _ _ _ _ Hr Hsp Hout Hp) as Hdone.
  destruct (startup_done_after _ _ _ _ _ _ Hr Hsp Hdone) as (_ & Hmods & _).
  apply Hmods. unfold module_ids. apply in_map_iff.
  exists (m, moduleInit). split; [reflexivity|]. now apply map_get_In.
Qed.

(** A plugin whose deps do not resolve is never initialized, and
    [start()] does not resolve. *)
Lemma unresolved_plugin_blocks w defaults fs s ds p pluginInit :
  reachable w (configured defaults fs) s ->
  startPromise s = Some ds ->
  map_get (ds_pluginInits ds) p = Some pluginInit ->
  is_ok (getInitDeps (extensionPoints s) (serviceHolder s)
                     (init_deps (init pluginInit)) p) = false ->
  ~ In (PluginInitCalled p) (log s) /\ startOutcome s <> Some (Ok tt).
Proof.
  intros Hr Hsp Hpi Hres.
  pose proof (reachable_ordered _ _ _ _ _ Hr Hsp) as Ho.
  assert (Hnot : ~ In (PluginInitCalled p) (log s)).
  { intros Hin. apply (logged_justified _ _ _ _ _ _ Ho) in Hin.
    destruct Hin as [(pi' & Hpi' & Hok) _].
    rewrite Hpi in Hpi'. injection Hpi' as Heq.
    rewrite <- Heq, Hres in Hok. discriminate. }
  split; [exact Hnot|]. intros Hout. apply Hnot.
  assert (Hp : In p (allPluginIds (ds_pluginInits ds) (ds_moduleInits ds))).
  { apply allPluginIds_In. left. apply map_get_In in Hpi.
    unfold map_keys. apply in_map_iff. exists (p, pluginInit). auto. }
  pose proof (resolved_plugins_done _ _ _ _ _ _ Hr Hsp Hout Hp) as Hdone.
  destruct (startup_done_after _ _ _ _ _ _ Hr Hsp Hdone) as (_ & _ & Hinit).
  apply Hinit. unfold map_has. now rewrite Hpi.
Qed.

(** The visit of a module whose deps do not resolve rejects a pending
    [start()] with the error of the resolution. *)
Lemma visit_unresolved_module_rejects w s ds p m moduleInit s' :
  startPromise s = Some ds ->
  ds_stage ds = AwaitPlugins ->
  map_get (modules_of (ds_moduleInits ds) p) m = Some moduleInit ->
  exec w (TaskStep p (VisitModule m)) s = Some s' ->
  forall e,
    getInitDeps (extensionPoints s) (serviceHolder s)
                (init_deps (init moduleInit)) p = Err e ->
    startOutcome s' = Some (Err e).
Proof.
  intros Hsp Hstage Hm Hex e He. unfold exec in Hex. rewrite Hsp in Hex.
  destruct (find_task p (ds_tasks ds)) as [t|] eqn:Ef; [|discriminate].
  apply find_task_Some in Ef as [_ Hid].
  simpl in Hex. unfold visitModule in Hex.
  destruct (t_phase t); try discriminate.
  destruct (module_state t m); try discriminate.
  destruct (node_of _ m) as [n|] eqn:En; try discriminate.
  apply node_of_map_get in En. rewrite Hm in En. injection En as Heq.
  destruct (DependencyGraph.ready _ _ n); try discriminate.
  rewrite <- Heq, Hid, He in Hex. injection Hex as <-.
  unfold startOutcome. simpl. now rewrite Hstage.
Qed.

Lemma begin_unresolved_plugin_rejects w s ds p pluginInit s' :
  startPromise s = Some ds ->
  ds_stage ds = AwaitPlugins ->
  map_get (ds_pluginInits ds) p = Some pluginInit ->
  exec w (TaskStep p TraversalDone) s = Some s' ->
  forall e,
    getInitDeps (extensionPoints s) (serviceHolder s)
                (init_deps (init pluginInit)) p = Err e ->
    startOutcome s' = Some (Err e).
Proof.
  intros Hsp Hstage Hpi Hex e He. unfold exec in Hex. rewrite Hsp in Hex.
  destruct (find_task p (ds_tasks ds)) as [t|] eqn:Ef; [|discriminate].
  apply find_task_Some in Ef as [_ Hid].
  simpl in Hex. unfold traversalDone in Hex.
  destruct (t_phase t); try discriminate.
  destruct (forallb _ (t_modules t)); try discriminate.
  rewrite Hpi, Hid, He in Hex. injection Hex as <-.
  unfold startOutcome. simpl. now rewrite Hstage.
Qed.

Lemma foreign_spec eps p ref impl owner :
  map_get eps (ref_id ref) = Some (impl, owner) ->
  owner <> p -> foreign eps p ref = true.
Proof.
  intros Hep Hne. unfold foreign. rewrite Hep.
  apply negb_true_iff. now apply String.eqb_neq.
Qed.

Lemma getInitDeps_ownership eps holder deps p name ref :
  In (name, ref) deps -> foreign eps p ref = true ->
  (forall n r, In (n, r) deps -> resolution_throws eps holder p r = false) ->
  exists owner',
    owner' <> p
    /\ getInitDeps eps holder deps p
       = Err (ExtensionPointOwnershipViolation owner' p).
Proof.
  intros Hin Hf Hnt. unfold getInitDeps.
  destruct (loop_foreign_ownership eps holder p deps [] [] name ref Hin Hf Hnt)
    as (owner' & Hne & ->).
  eauto.
Qed.

Lemma getInitDeps_binds_own eps holder deps p name ref impl bound :
  NoDup (map fst deps) -> In (name, ref) deps ->
  map_get eps (ref_id ref) = Some (impl, p) ->
  getInitDeps eps holder deps p = Ok bound ->
  map_get bound name = Some impl.
Proof.
  intros Hnd Hin Hep. unfold getInitDeps.
  destruct (getInitDeps_loop eps holder p deps [] []) as [[b missing]|e] eqn:El;
    [|discriminate].
  destruct (Nat.ltb 0 (List.length missing)); [discriminate|].
  intros [= <-]. eapply loop_binds_own_extension_point; eauto.
Qed.

(** ** Extension points of another plugin *)

(** C1 (as amended).  Let module [m] of plugin [p] have a dep [name] that
    refers to an extension point recorded with implementation [impl] for
    plugin [owner].  If [owner] is not [p], the resolution of the deps of
    [m] fails, with [ExtensionPointOwnershipViolation] unless the
    resolution of a service among the deps throws; the visit of [m]
    rejects a pending [start()] with that error; the [init.func] of [m] is
    never called and [start()] never resolves.  If [owner] is [p], a
    resolution that returns binds [name] to [impl]. *)
Theorem module_extension_point_ownership
        w defaults fs s ds p m moduleInit name ref impl owner :
  reachable w (configured defaults fs) s ->
  startPromise s = Some ds ->
  map_get (modules_of (ds_moduleInits ds) p) m = Some moduleInit ->
  In (name, ref) (init_deps (init moduleInit)) ->
  map_get (extensionPoints s) (ref_id ref) = Some (impl, owner) ->
  let resolution :=
    getInitDeps (extensionPoints s) (serviceHolder s)
                (init_deps (init moduleInit)) p in
  (owner <> p ->
   is_ok resolution = false
   /\ ((forall n r, In (n, r) (init_deps (init moduleInit)) ->
                    resolution_throws (extensionPoints s) (serviceHolder s) p r
                    = false) ->
       exists owner',
         owner' <> p
         /\ resolution = Err (ExtensionPointOwnershipViolation owner' p))
   /\ (forall s' e,
          ds_stage ds = AwaitPlugins ->
          exec w (TaskStep p (VisitModule m)) s = Some s' ->
          resolution = Err e ->
          startOutcome s' = Some (Err e))
   /\ ~ In (ModuleInitCalled p m) (trace s)
   /\ startOutcome s <> Some (Ok tt))
  /\ (owner = p ->
      NoDup (map fst (init_deps (init moduleInit))) ->
      forall bound, resolution = Ok bound -> map_get bound name = Some impl).
Proof.
  intros Hr Hsp Hm Hin Hep resolution. split.
  - intros Hne.
    pose proof (foreign_spec _ _ _ _ _ Hep Hne) as Hf.
    assert (Hfail : is_ok resolution = false)
      by (eapply getInitDeps_foreign_fails; eauto).
    split; [exact Hfail|]. split; [|split].
    + intros Hnt. eapply getInitDeps_ownership; eauto.
    + intros s' e Hstage Hex He.
      eapply visit_unresolved_module_rejects; eauto.
    + rewrite in_trace.
      eapply unresolved_module_blocks; eauto.
  - intros -> Hnd bound Hb. eapply getInitDeps_binds_own; eauto.
Qed.

(** C10 (as amended).  Let the deps of the initializer of plugin [p] itself
    refer to an extension point recorded for plugin [owner], which is not
    [p].  The resolution of the deps fails, with the same
    [ExtensionPointOwnershipViolation] as for a module unless the
    resolution of a service among the deps throws; when the task of [p]
    gets to its plugin step, a pending [start()] is rejected with that
    error; the [init.func] of [p] is never called and [start()] never
    resolves. *)
Theorem plugin_extension_point_ownership
        w defaults fs s ds p pluginInit name ref impl owner :
  reachable w (configured defaults fs) s ->
  startPromise s = Some ds ->
  map_get (ds_pluginInits ds) p = Some pluginInit ->
  In (name, ref) (init_deps (init pluginInit)) ->
  map_get (extensionPoints s) (ref_id ref) = Some (impl, owner) ->
  owner <> p ->
  let resolution :=
    getInitDeps (extensionPoints s) (serviceHolder s)
                (init_deps (init pluginInit)) p in
  is_ok resolution = false
  /\ ((forall n r, In (n, r) (init_deps (init pluginInit)) ->
                   resolution_throws (extensionPoints s) (serviceHolder s) p r
                   = false) ->
      exists owner',
        owner' <> p
        /\ resolution = Err (ExtensionPointOwnershipViolation owner' p))
  /\ (forall s' e,
         ds_stage ds = AwaitPlugins ->
         exec w (TaskStep p TraversalDone) s = Some s' ->
         resolution = Err e ->
         startOutcome s' = Some (Err e))
  /\ ~ In (PluginInitCalled p) (trace s)
  /\ startOutcome s <> Some (Ok tt).
Proof.
  intros Hr Hsp Hpi Hin Hep Hne resolution.
  pose proof (foreign_spec _ _ _ _ _ Hep Hne) as Hf.
  assert (Hfail : is_ok resolution = false)
    by (eapply getInitDeps_foreign_fails; eauto).
  split; [exact Hfail|]. split; [|split].
  - intros Hnt. eapply getInitDeps_ownership; eauto.
  - intros s' e Hstage Hex He.
    eapply begin_unresolved_plugin_rejects; eauto.
  - rewrite in_trace. eapply unresolved_plugin_blocks; eauto.
Qed.

Lemma start_initializes_in_order_witness :
  let s := after Examples.production Examples.two_plugins_run
                 (configured Examples.defaults Examples.two_plugins) in
  In (ModuleInitDone "B" "B1") (firstn 6 (trace s))
  /\ In (ModuleInitDone "B" "B2") (firstn 6 (trace s)).
Proof.
  intros s.
  assert (Hr : reachable Examples.production
                         (configured Examples.defaults Examples.two_plugins) s)
    by (exists Examples.two_plugins_run; vm_compute; reflexivity).
  assert (Hsp : startPromise s = Some (final_DoStart s))
    by (vm_compute; reflexivity).
  assert (Htrace : trace s
                   = firstn 6 (trace s) ++ PluginInitCalled "B"
                                        :: skipn 7 (trace s))
    by (vm_compute; reflexivity).
  destruct (start_initializes_in_order _ _ _ _ _ _ _ _ Hr Hsp Htrace)
    as (Hmods & _ & _).
  split.
  - apply (Hmods "B" "B1" eq_refl). vm_compute. left. reflexivity.
  - apply (Hmods "B" "B2" eq_refl). vm_compute. right. left. reflexivity.
Defined.

(** ** Acyclic graphs *)

Section Acyclic.
Variable T : Type.




End Acyclic.

(** ** The reported path is a cycle *)

Section CycleFound.
Variable T : Type.













Section Walk.
Variable core : list (nat * DependencyGraph.Node T).
Hypothesis core_NoDup : NoDup (map fst core).
Hypothesis core_stable : DependencyGraph.peel_round core = core.




End Walk.

End CycleFound.









(** What [start()] leaves behind [#startPromise]: the plugin tasks, or the
    error of the sequential part. *)
Lemma started_cases w s0 :
  startPromise s0 = None ->
  (exists pluginInits moduleInits,
      startPromise (started w s0) = Some (spawn pluginInits moduleInits))
  \/ (exists e, startPromise (started w s0) = Some (rejected_doStart e)).
Proof.
  intros Hsp. unfold started, start. rewrite Hsp.
  destruct (doStart_sequential w _) as [[[pluginInits moduleInits]|e] s2];
    simpl; eauto.
Qed.


(** ** The graph of the modules of a plugin *)



(** The cycle of the example is reported as M1 -> M2 -> M1. *)
Example cyclic_modules_message :
  startOutcome (started Examples.production
                        (configured Examples.defaults Examples.cyclic_modules))
  = Some (Err (ConflictError
                 "Circular dependency detected for modules of plugin 'P', 'M1' -> 'M2' -> 'M1'")).
Proof. vm_compute. reflexivity. Qed.

(** What a call of [stop()] does once [#startPromise] has settled. *)
Lemma stop_settled s ds r :
  startPromise s = Some ds -> ds_stage ds = Settled r ->
  match getRootLifecycleImpl (serviceHolder s) with
  | Err e => stop s = Some (Err e, s)
  | Ok _ =>
      exists res s',
        stop s = Some (res, s')
        /\ log s' = RootShutdownCalled :: log s
        /\ (rootShutdown s = Idle -> res = Ok tt)
        /\ (rootShutdown s <> Idle ->
            res = Err (Collaborator LifecycleAlreadyInvoked "shutdown"))
        /\ rootShutdown s' <> Idle
        /\ startPromise s' = startPromise s
        /\ serviceHolder s' = serviceHolder s
  end.
Proof.
  intros Hsp Hst. unfold stop. rewrite Hsp, Hst.
  unfold bind, await. destruct (getRootLifecycleImpl (serviceHolder s)) as [h|e];
    [|reflexivity].
  unfold rootLifecycle_shutdown, bind, modify, get_state. simpl.
  destruct (rootShutdown s) eqn:E; simpl;
    (eexists; eexists; split; [reflexivity|]); simpl;
    repeat split; auto; try discriminate; try congruence;
    try (intros H; now contradiction H).
  all: rewrite E; discriminate.
Qed.

(** ** Stopping *)




(** ** Process listeners *)

Lemma exitHandler_exit_code s s' :
  exitHandler s = Some s' ->
  exists r s2,
    stop (set_listeners
            (removeListener "beforeExit" ExitHandler
               (removeListener "SIGINT" ExitHandler
                  (removeListener "SIGTERM" ExitHandler (listeners s)))) s)
    = Some (r, s2)
    /\ log s' = ProcessExit (if is_ok r then 0 else 1) :: log s2.
Proof.
  unfold exitHandler.
  destruct (stop _) as [[[u|e] s2]|]; [| |discriminate];
    intros [= <-]; eexists; eexists; split; reflexivity.
Qed.

(** C5 (as amended).  The handlers of SIGTERM, SIGINT and beforeExit are
    installed by [start()] itself, before any of the startup has run and in
    test mode as well; they stay installed through the startup; the
    handler calls [stop()] and exits with code 0 when it resolves and 1
    when it is rejected.  The hooks for unhandled errors are installed only
    when [start()] has resolved and only outside test mode. *)
Theorem exit_handlers_installed_by_start w defaults fs :
  listeners (started w (configured defaults fs)) = exitListeners
  /\ (forall s,
         reachable w (configured defaults fs) s ->
         listeners s
         = exitListeners
             ++ (if is_running s && negb (test_mode w) then errorHooks else []))
  /\ (forall s s',
         exitHandler s = Some s' ->
         exists r s2,
           stop (set_listeners
                   (removeListener "beforeExit" ExitHandler
                      (removeListener "SIGINT" ExitHandler
                         (removeListener "SIGTERM" ExitHandler (listeners s)))) s)
           = Some (r, s2)
           /\ log s' = ProcessExit (if is_ok r then 0 else 1) :: log s2).
Proof.
  assert (Hreach : forall s,
             reachable w (configured defaults fs) s ->
             listeners s
             = exitListeners
                 ++ (if is_running s && negb (test_mode w) then errorHooks else [])).
  { intros s Hr. destruct (reachable_inv _ _ _ _ Hr) as (ds1 & _ & Hinv).
    destruct Hinv as (ds & Hsp & _ & _ & _ & _ & _ & _ & _ & _ & Hls).
    rewrite Hls. simpl. unfold is_running, startOutcome, resolved.
    rewrite Hsp. destruct (ds_stage ds) as [| |[u|e]]; reflexivity. }
  split; [|split; [exact Hreach|exact exitHandler_exit_code]].
  assert (Hr : reachable w (configured defaults fs)
                         (started w (configured defaults fs)))
    by (exists []; reflexivity).
  rewrite (Hreach _ Hr).
  destruct (started_cases w _ (configured_not_started defaults fs))
    as [(pluginInits & moduleInits & Hs)|(e & Hs)];
    unfold is_running, startOutcome; rewrite Hs; simpl.
  - destruct (first_rejection _); reflexivity.
  - reflexivity.
Qed.

(** C5, counterexample.  In test mode, on a backend without a root
    lifecycle service, [start()] is rejected, the backend never runs, and
    the three exit handlers are installed all the same. *)
Lemma exit_handlers_in_test_mode_without_running :
  let s := after Examples.testing [PluginsSettled] (configured [] []) in
  test_mode Examples.testing = true
  /\ startOutcome s = Some (Err UnexpectedRootLifecycle)
  /\ listeners s
     = [("SIGTERM", ExitHandler); ("SIGINT", ExitHandler);
        ("beforeExit", ExitHandler)].
Proof. vm_compute. auto. Qed.

(** ** After a failed start *)

(** C6 (as amended).  After a [start()] whose promise was rejected, a
    further call of [start()] fails with [AlreadyStarted], and [stop()]
    ignores the error of the start and fetches the root lifecycle: when
    that fails, [stop()] is rejected with its error; otherwise it calls
    the root lifecycle [shutdown()] and, that being its first call,
    resolves. *)
Theorem stop_and_start_after_failed_start w s ds e :
  startPromise s = Some ds ->
  ds_stage ds = Settled (Err e) ->
  start w s = (Some AlreadyStarted, s)
  /\ match getRootLifecycleImpl (serviceHolder s) with
     | Err e' => stop s = Some (Err e', s)
     | Ok _ =>
         exists res s',
           stop s = Some (res, s')
           /\ log s' = RootShutdownCalled :: log s
           /\ (rootShutdown s = Idle -> res = Ok tt)
     end.
Proof.
  intros Hsp Hst. split.
  - unfold start. now rewrite Hsp.
  - pose proof (stop_settled s ds _ Hsp Hst) as H.
    destruct (getRootLifecycleImpl (serviceHolder s)); [|exact H].
    destruct H as (res & s' & Hstop & Hlog & Hidle & _). eauto.
Qed.

Lemma stop_and_start_after_failed_start_witness :
  let s := after Examples.production [TaskStep "B" (VisitModule "M")]
                 (configured Examples.defaults Examples.cross_plugin) in
  start Examples.production s = (Some AlreadyStarted, s)
  /\ exists s',
      stop s = Some (Ok tt, s') /\ log s' = RootShutdownCalled :: log s.
Proof.
  intros s.
  assert (Hsp : startPromise s = Some (final_DoStart s))
    by (vm_compute; reflexivity).
  assert (Hst : ds_stage (final_DoStart s)
                = Settled (Err (ExtensionPointOwnershipViolation "A" "B")))
    by (vm_compute; reflexivity).
  destruct (stop_and_start_after_failed_start Examples.production s _ _ Hsp Hst)
    as [Hstart Hstop].
  split; [exact Hstart|].
  assert (Hroot : getRootLifecycleImpl (serviceHolder s) = Ok 1)
    by (vm_compute; reflexivity).
  rewrite Hroot in Hstop. destruct Hstop as (res & s' & Hs & Hlog & Hidle).
  exists s'. rewrite Hs, Hidle; [auto|]. vm_compute. reflexivity.
Defined.

(** C6, counterexample.  A backend without a root lifecycle service:
    [start()] is rejected, and so is the [stop()] that follows, without
    any call of [shutdown()]. *)
Lemma stop_rejected_after_failed_start :
  let s := after Examples.production [PluginsSettled] (configured [] []) in
  startOutcome s = Some (Err UnexpectedRootLifecycle)
  /\ stop_outcome s = Some (Err UnexpectedRootLifecycle)
  /\ shutdown_calls (stop_state s) = 0.
Proof. vm_compute. auto. Qed.

Lemma started_holder w defaults fs :
  serviceHolder (started w (configured defaults fs))
  = Some (ServiceRegistry.create
            (defaults ++ providedServiceFactories (configured defaults fs))).
Proof.
  unfold started, start. rewrite configured_not_started.
  set (s1 := set_listeners _ _).
  pose proof (doStart_sequential_holder w s1) as H.
  assert (Hd : defaultApiFactories s1 = defaults).
  { unfold s1. simpl. now rewrite configured_fresh. }
  rewrite Hd in H. simpl in H.
  destruct (doStart_sequential w s1) as [[[pluginInits moduleInits]|e] s2];
    simpl in *; exact H.
Qed.


(** ** Features found by the discovery service *)


(** ** The module ids of a plugin are distinct *)

Lemma foldM_Ok_invariant {A B : Type} (I : B -> Prop) (body : B -> A -> M B) xs :
  (forall acc x s acc' s', I acc -> body acc x s = (Ok acc', s') -> I acc') ->
  forall acc s r s', I acc -> foldM body acc xs s = (Ok r, s') -> I r.
Proof.
  intros Hbody. induction xs as [|x xs IH]; intros acc s r s' Hacc; simpl.
  - unfold ret. now intros [= <- _].
  - unfold bind. destruct (body acc x s) as [[acc'|e] s1] eqn:Eb; [|discriminate].
    apply IH. eapply Hbody; eauto.
Qed.

Lemma map_set_fresh_keys (V : Type) (m : list (string * V)) k v :
  map_get m k = None -> map fst (map_set m k v) = map fst m ++ [k].
Proof.
  induction m as [|[k0 v0] m IH]; simpl; [reflexivity|].
  destruct (String.eqb k0 k); [discriminate|]. intros H. simpl. now rewrite IH.
Qed.

Lemma indexRegistration_distinct idx r s idx' s' :
  distinct_modules (snd idx) ->
  indexRegistration idx r s = (Ok idx', s') ->
  distinct_modules (snd idx').
Proof.
  intros Hwf. unfold indexRegistration, bind.
  destruct (registerExtensionPoints r s) as [[provides|e] s1]; [|discriminate].
  destruct idx as [pluginInits moduleInits]. simpl in Hwf.
  destruct (r_type r).
  - destruct (map_has pluginInits (r_pluginId r)); [discriminate|].
    unfold ret. intros [= <- _]. exact Hwf.
  - set (modules := match map_get moduleInits (r_pluginId r) with
                    | Some modules => modules
                    | None => []
                    end).
    destruct (map_has modules (r_moduleId r)) eqn:Ehas; [discriminate|].
    unfold ret. intros [= <- _]. simpl. intros p ms.
    destruct (String.eqb (r_pluginId r) p) eqn:Ep.
    + apply String.eqb_eq in Ep. subst p. rewrite map_get_set_eq.
      intros [= <-]. unfold map_has in Ehas.
      destruct (map_get modules (r_moduleId r)) eqn:Eg; [discriminate|].
      rewrite map_set_fresh_keys by exact Eg.
      assert (Hnd : NoDup (map fst modules)).
      { unfold modules.
        destruct (map_get moduleInits (r_pluginId r)) eqn:Em;
          [eapply Hwf; eauto|constructor]. }
      apply NoDup_app; [exact Hnd|repeat constructor; auto|].
      intros x Hx [<-|[]]. eapply map_get_None_notin; eauto.
    + apply String.eqb_neq in Ep. rewrite map_get_set_ne by exact Ep.
      apply Hwf.
Qed.

Lemma indexFeatures_distinct fs s idx s' :
  indexFeatures fs s = (Ok idx, s') -> distinct_modules (snd idx).
Proof.
  unfold indexFeatures.
  apply (foldM_Ok_invariant (fun idx => distinct_modules (snd idx))).
  - intros acc feature s0 acc' s0' Hacc.
    apply (foldM_Ok_invariant (fun idx => distinct_modules (snd idx)));
      [|exact Hacc].
    intros idx0 r s1 idx1 s1'. apply indexRegistration_distinct.
  - intros p ms. discriminate.
Qed.

Lemma doStart_sequential_distinct w s idx s' :
  doStart_sequential w s = (Ok idx, s') -> distinct_modules (snd idx).
Proof.
  unfold doStart_sequential, bind at 1. simpl. unfold bind at 1. simpl.
  unfold bind at 1. destruct (discoverFeatures w _ _) as [[u|e] s1];
    [|discriminate].
  unfold bind at 1. destruct (initRootServices _ s1) as [[u'|e] s2];
    [|discriminate].
  unfold bind, get_state. apply indexFeatures_distinct.
Qed.

Lemma started_distinct w defaults fs ds1 :
  startPromise (started w (configured defaults fs)) = Some ds1 ->
  distinct_modules (ds_moduleInits ds1).
Proof.
  unfold started, start. rewrite configured_not_started.
  destruct (doStart_sequential w _) as [[[pluginInits moduleInits]|e] s2] eqn:E;
    simpl; intros [= <-]; simpl.
  - apply (doStart_sequential_distinct _ _ _ _ E).
  - intros p ms. discriminate.
Qed.

Lemma reachable_distinct w defaults fs s ds p :
  reachable w (configured defaults fs) s ->
  startPromise s = Some ds ->
  NoDup (module_ids (ds_moduleInits ds) p).
Proof.
  intros Hr Hsp. destruct (reachable_inv _ _ _ _ Hr) as (ds1 & Hds1 & Hinv).
  destruct Hinv as (ds' & Hsp' & _ & Hmi & _).
  rewrite Hsp in Hsp'. injection Hsp' as <-. rewrite Hmi.
  unfold module_ids, modules_of.
  destruct (map_get (ds_moduleInits ds1) p) as [ms|] eqn:E; [|constructor].
  eapply started_distinct; eauto.
Qed.

(** ** Runs can be continued *)

Lemma run_app w l1 : forall l2 s s1 s2,
  run w l1 s = Some s1 -> run w l2 s1 = Some s2 -> run w (l1 ++ l2) s = Some s2.
Proof.
  induction l1 as [|a l1 IH]; simpl; intros l2 s s1 s2.
  - now intros [= ->].
  - destruct (exec w a s) as [s'|]; [|discriminate]. apply IH.
Qed.

Lemma reachable_step w s0 s a s' :
  reachable w s0 s -> exec w a s = Some s' -> reachable w s0 s'.
Proof.
  intros [actions Hrun] Hex. exists (actions ++ [a]).
  eapply run_app; eauto. simpl. now rewrite Hex.
Qed.


(** What a step of the event loop changes. *)
Lemma exec_shape w a s s' ds :
  startPromise s = Some ds -> exec w a s = Some s' ->
  exists ds' evs,
    startPromise s' = Some ds'
    /\ log s' = evs ++ log s
    /\ (ds_tasks ds' = ds_tasks ds
        \/ exists p ta t t',
            a = TaskStep p ta
            /\ find_task p (ds_tasks ds) = Some t
            /\ exec_task w (extensionPoints s) (serviceHolder s)
                         (map_get (ds_pluginInits ds) p)
                         (modules_of (ds_moduleInits ds) p) ta t = Some (t', evs)
            /\ ds_tasks ds' = replace_task t' (ds_tasks ds)).
Proof.
  intros Hsp. unfold exec. rewrite Hsp. destruct a as [p ta| |].
  - destruct (find_task p (ds_tasks ds)) as [t|] eqn:Ef; [|discriminate].
    destruct (exec_task _ _ _ _ _ ta t) as [[t' evs]|] eqn:Ex; [|discriminate].
    intros [= <-]. eexists. exists evs. simpl.
    split; [reflexivity|]. split; [reflexivity|].
    right. exists p, ta, t, t'. auto.
  - destruct (ds_stage ds); try discriminate.
    destruct (forallb is_PluginDone (ds_tasks ds)); [|discriminate].
    destruct (getRootLifecycleImpl (serviceHolder s)).
    + destruct (rootStartup s); intros [= <-];
        first [ (eexists; exists [RootStartupCalled]; simpl;
                 repeat split; auto; fail)
              | (eexists; exists []; simpl; repeat split; auto) ].
    + intros [= <-]. eexists. exists []. simpl. repeat split; auto.
  - destruct (ds_stage ds); try discriminate.
    destruct (rootStartupHooks w); intros [= <-].
    + unfold installErrorHooks. destruct (test_mode w).
      * eexists. exists [RootStartupDone]. simpl. repeat split; auto.
      * destruct (holder_get _ _ _); eexists; exists [RootStartupDone]; simpl;
          repeat split; auto.
    + eexists. exists []. simpl. repeat split; auto.
Qed.


(** A property of the tasks that every step of a task keeps holds in every
    state of a run. *)
Section TaskProperty.
Variable w : World.
Variable defaults : list ServiceFactory.
Variable fs : list BackendFeature.
Variable Q : State -> list Event -> PluginTask -> Prop.

Hypothesis Q_spawned :
  forall pluginInits moduleInits p,
    startPromise (started w (configured defaults fs))
    = Some (spawn pluginInits moduleInits) ->
    Q (started w (configured defaults fs)) [] (spawnTask moduleInits p).
Hypothesis Q_static :
  forall s s' l t,
    extensionPoints s' = extensionPoints s ->
    serviceHolder s' = serviceHolder s ->
    option_map ds_pluginInits (startPromise s')
    = option_map ds_pluginInits (startPromise s) ->
    option_map ds_moduleInits (startPromise s')
    = option_map ds_moduleInits (startPromise s) ->
    Q s l t -> Q s' l t.
Hypothesis Q_mono : forall s l evs t, Q s l t -> Q s (evs ++ l) t.
Hypothesis Q_step :
  forall s ds l t ta t' evs,
    startPromise s = Some ds ->
    task_inv (ds_pluginInits ds) (ds_moduleInits ds) l t ->
    Q s l t ->
    exec_task w (extensionPoints s) (serviceHolder s)
              (map_get (ds_pluginInits ds) (t_pluginId t))
              (modules_of (ds_moduleInits ds) (t_pluginId t)) ta t
    = Some (t', evs) ->
    Q s (evs ++ l) t'.

Lemma task_property_run actions : forall s s' ds,
  reachable w (configured defaults fs) s ->
  startPromise s = Some ds ->
  Forall (Q s (log s)) (ds_tasks ds) ->
  run w actions s = Some s' ->
  exists ds', startPromise s' = Some ds' /\ Forall (Q s' (log s')) (ds_tasks ds').
Proof.
  induction actions as [|a actions IH]; simpl; intros s s' ds Hr Hsp HQ.
  - intros [= <-]. eauto.
  - destruct (exec w a s) as [s1|] eqn:Ex; [|discriminate].
    destruct (exec_shape _ _ _ _ _ Hsp Ex) as (ds1 & evs & Hsp1 & Hlog & Htasks).
    pose proof (reachable_step _ _ _ _ _ Hr Ex) as Hr1.
    pose proof (reachable_run_inv _ _ _ _ _ Hr Hsp) as Hinv.
    pose proof (reachable_run_inv _ _ _ _ _ Hr1 Hsp1) as Hinv1.
    destruct (reachable_inv _ _ _ _ Hr) as (d0 & Hd0 & I0).
    destruct (reachable_inv _ _ _ _ Hr1) as (d1 & Hd1 & I1).
    rewrite Hd0 in Hd1. injection Hd1 as <-.
    destruct I0 as (x0 & Hx0 & Hpi0 & Hmi0 & Hep0 & Hh0 & _).
    destruct I1 as (x1 & Hx1 & Hpi1 & Hmi1 & Hep1 & Hh1 & _).
    rewrite Hsp in Hx0. injection Hx0 as <-.
    rewrite Hsp1 in Hx1. injection Hx1 as <-.
    assert (Hstatic : forall l t, Q s l t -> Q s1 l t).
    { intros l t. apply Q_static; try congruence.
      - rewrite Hsp, Hsp1. simpl. congruence.
      - rewrite Hsp, Hsp1. simpl. congruence. }
    apply (IH s1 s' ds1 Hr1 Hsp1). rewrite Hlog.
    destruct Htasks as [->|(p & ta & t & t' & -> & Hfind & Hstep & ->)].
    + eapply Forall_impl; [|exact HQ]. intros t Ht. apply Hstatic.
      now apply Q_mono.
    + apply find_task_Some in Hfind as [Hin Hid]. subst p.
      apply replace_task_Forall.
      * apply Hstatic. apply (Q_step s ds (log s) t ta t' evs Hsp);
          [| |exact Hstep].
        -- destruct Hinv as (x & Hx & _ & _ & _ & _ & _ & Hall & _).
           rewrite Hsp in Hx. injection Hx as <-.
           rewrite Forall_forall in Hall. auto.
        -- rewrite Forall_forall in HQ. auto.
      * eapply Forall_impl; [|exact HQ]. intros t0 Ht0. apply Hstatic.
        now apply Q_mono.
Qed.

Lemma task_property_reachable s ds :
  reachable w (configured defaults fs) s ->
  startPromise s = Some ds ->
  Forall (Q s (log s)) (ds_tasks ds).
Proof.
  intros Hr Hsp. pose proof Hr as [actions Hrun].
  assert (Hr0 : reachable w (configured defaults fs)
                          (started w (configured defaults fs)))
    by (exists []; reflexivity).
  destruct (started_cases w _ (configured_not_started defaults fs))
    as [(pluginInits & moduleInits & Hs)|(e & Hs)].
  - assert (H0 : Forall (Q (started w (configured defaults fs))
                           (log (started w (configured defaults fs))))
                        (ds_tasks (spawn pluginInits moduleInits))).
    { destruct (start_inv w _ (configured_not_started defaults fs)
                          (configured_log defaults fs))
        as (d & Hd & _).
      assert (Hl : log (started w (configured defaults fs)) = []).
      { unfold started, start. rewrite configured_not_started.
        pose proof (doStart_sequential_keeps
                      log w (fun _ _ => eq_refl) (fun _ _ => eq_refl)
                      (fun _ _ => eq_refl) (fun _ _ => eq_refl)
                      (set_listeners
                         (listeners (configured defaults fs) ++ exitListeners)
                         (configured defaults fs))) as Hk.
        destruct (doStart_sequential w _) as [[[a b]|e] s2]; simpl in *;
          rewrite Hk; apply configured_log. }
      rewrite Hl. simpl. apply Forall_map. apply Forall_forall.
      intros p _. now apply (Q_spawned pluginInits). }
    destruct (task_property_run actions _ _ _ Hr0 Hs H0 Hrun)
      as (ds' & Hsp' & HQ).
    rewrite Hsp in Hsp'. now injection Hsp' as <-.
  - assert (H0 : Forall (Q (started w (configured defaults fs))
                           (log (started w (configured defaults fs))))
                        (ds_tasks (rejected_doStart e)))
      by constructor.
    destruct (task_property_run actions _ _ _ Hr0 Hs H0 Hrun)
      as (ds' & Hsp' & HQ).
    rewrite Hsp in Hsp'. now injection Hsp' as <-.
Qed.
End TaskProperty.






Lemma NoDup_map_get (V : Type) (l : list (string * V)) k v :
  NoDup (map fst l) -> In (k, v) l -> map_get l k = Some v.
Proof.
  induction l as [|[k0 v0] l IH]; simpl; [tauto|].
  intros Hnd Hin. inversion Hnd as [|? ? Hnot Hnd']; subst.
  destruct Hin as [[= -> ->]|Hin]; [now rewrite String.eqb_refl|].
  destruct (String.eqb k0 k) eqn:E; [|auto].
  apply String.eqb_eq in E. subst k0. exfalso. apply Hnot.
  apply in_map_iff. exists (k, v). auto.
Qed.







(** ** Modules without their plugin *)



Lemma module_extension_point_ownership_witness :
  let s := started Examples.production
                   (configured Examples.defaults Examples.cross_plugin) in
  let resolution :=
    getInitDeps (extensionPoints s) (serviceHolder s)
                (init_deps (init (module_init s "B" "M"))) "B" in
  is_ok resolution = false
  /\ (exists owner',
         owner' <> "B"
         /\ resolution = Err (ExtensionPointOwnershipViolation owner' "B"))
  /\ (exists e,
         resolution = Err e
         /\ startOutcome
              (after Examples.production [TaskStep "B" (VisitModule "M")]
                     (configured Examples.defaults Examples.cross_plugin))
            = Some (Err e))
  /\ ~ In (ModuleInitCalled "B" "M") (trace s)
  /\ startOutcome s <> Some (Ok tt).
Proof.
  intros s resolution.
  assert (Hr : reachable Examples.production
                         (configured Examples.defaults Examples.cross_plugin) s)
    by (exists []; reflexivity).
  assert (Hsp : startPromise s = Some (final_DoStart s))
    by (vm_compute; reflexivity).
  assert (Hm : map_get (modules_of (ds_moduleInits (final_DoStart s)) "B") "M"
               = Some (module_init s "B" "M"))
    by (vm_compute; reflexivity).
  assert (Hin : In ("ext", Examples.extensionPoint "ExtA")
                   (init_deps (init (module_init s "B" "M"))))
    by (vm_compute; auto).
  assert (Hep : map_get (extensionPoints s)
                        (ref_id (Examples.extensionPoint "ExtA"))
                = Some (Examples.impl 20, "A"))
    by (vm_compute; reflexivity).
  destruct (module_extension_point_ownership
              _ _ _ _ _ _ _ _ _ _ _ _ Hr Hsp Hm Hin Hep) as [Hforeign _].
  destruct Hforeign as (Hfail & Hown & Hvisit & Hnever & Hpending);
    [discriminate|].
  split; [exact Hfail|]. split; [|split; [|split]]; auto.
  - apply Hown. intros n r Hnr. vm_compute in Hnr.
    destruct Hnr as [Heq|[]]. injection Heq as <- <-. vm_compute. reflexivity.
  - destruct (getInitDeps (extensionPoints s) (serviceHolder s)
                          (init_deps (init (module_init s "B" "M"))) "B")
      as [bound|e] eqn:Eres; [discriminate Hfail|].
    exists e. split; [reflexivity|].
    apply (Hvisit _ e); [vm_compute; reflexivity|vm_compute; reflexivity|].
    reflexivity.
Defined.

(** C1, counterexample.  Module M of plugin B asks for the extension point
    ExtA, which is recorded for plugin A.  M also provides an extension
    point that module M0 of B consumes, so the traversal visits M0 first
    and M has to wait; the [init.func] of M0 rejects, and [start()] fails
    with [ModuleStartupFailed] for M0, not with an ownership violation. *)
Lemma start_fails_before_ownership_check :
  let s0 := started Examples.production
                    (configured Examples.defaults
                                Examples.cross_plugin_after_failure) in
  let s := after Examples.production
                 [TaskStep "B" (VisitModule "M0");
                  TaskStep "B" (SettleModule "M0")]
                 (configured Examples.defaults
                             Examples.cross_plugin_after_failure) in
  map_get (extensionPoints s0) "ExtA" = Some (Examples.impl 20, "A")
  /\ init_deps (init (module_init s0 "B" "M"))
     = [("ext", Examples.extensionPoint "ExtA")]
  /\ exec Examples.production (TaskStep "B" (VisitModule "M")) s0 = None
  /\ startOutcome s
     = Some (Err (ModuleStartupFailed "M0" "B" (JsError "boom")))
  /\ exec Examples.production (TaskStep "B" (VisitModule "M")) s = None.
Proof. vm_compute. auto. Qed.

Lemma plugin_extension_point_ownership_witness :
  let s := started Examples.production
                   (configured Examples.defaults Examples.cross_plugin_init) in
  let resolution :=
    getInitDeps (extensionPoints s) (serviceHolder s)
                (init_deps (init (plugin_init s "B"))) "B" in
  is_ok resolution = false
  /\ (exists owner',
         owner' <> "B"
         /\ resolution = Err (ExtensionPointOwnershipViolation owner' "B"))
  /\ (exists e,
         resolution = Err e
         /\ startOutcome
              (after Examples.production [TaskStep "B" TraversalDone]
                     (configured Examples.defaults Examples.cross_plugin_init))
            = Some (Err e))
  /\ ~ In (PluginInitCalled "B") (trace s)
  /\ startOutcome s <> Some (Ok tt).
Proof.
  intros s resolution.
  assert (Hr : reachable Examples.production
                         (configured Examples.defaults Examples.cross_plugin_init)
                         s)
    by (exists []; reflexivity).
  assert (Hsp : startPromise s = Some (final_DoStart s))
    by (vm_compute; reflexivity).
  assert (Hp : map_get (ds_pluginInits (final_DoStart s)) "B"
               = Some (plugin_init s "B"))
    by (vm_compute; reflexivity).
  assert (Hin : In ("ext", Examples.extensionPoint "ExtA")
                   (init_deps (init (plugin_init s "B"))))
    by (vm_compute; auto).
  assert (Hep : map_get (extensionPoints s)
                        (ref_id (Examples.extensionPoint "ExtA"))
                = Some (Examples.impl 20, "A"))
    by (vm_compute; reflexivity).
  assert (Hne : "A" <> "B") by discriminate.
  destruct (plugin_extension_point_ownership
              _ _ _ _ _ _ _ _ _ _ _ Hr Hsp Hp Hin Hep Hne)
    as (Hfail & Hown & Hbegin & Hnever & Hpending).
  split; [exact Hfail|]. split; [|split; [|split]]; auto.
  - apply Hown. intros n r Hnr. vm_compute in Hnr.
    destruct Hnr as [Heq|[]]. injection Heq as <- <-. vm_compute. reflexivity.
  - destruct (getInitDeps (extensionPoints s) (serviceHolder s)
                          (init_deps (init (plugin_init s "B"))) "B")
      as [bound|e] eqn:Eres; [discriminate Hfail|].
    exists e. split; [reflexivity|].
    apply (Hbegin _ e); [vm_compute; reflexivity|vm_compute; reflexivity|].
    reflexivity.
Defined.

(** C10, counterexample.  The initializer of plugin B asks for the
    extension point ExtA of plugin A, and the [init.func] of module M0 of B
    rejects: [start()] fails with [ModuleStartupFailed] for M0, the task of
    B never gets to its plugin step, and no ownership violation is
    raised. *)
Lemma start_fails_before_plugin_ownership_check :
  let s0 := started Examples.production
                    (configured Examples.defaults
                                Examples.cross_plugin_init_after_failure) in
  let s := after Examples.production
                 [TaskStep "B" (VisitModule "M0");
                  TaskStep "B" (SettleModule "M0")]
                 (configured Examples.defaults
                             Examples.cross_plugin_init_after_failure) in
  map_get (extensionPoints s0) "ExtA" = Some (Examples.impl 20, "A")
  /\ init_deps (init (plugin_init s0 "B"))
     = [("ext", Examples.extensionPoint "ExtA")]
  /\ exec Examples.production (TaskStep "B" TraversalDone) s0 = None
  /\ startOutcome s
     = Some (Err (ModuleStartupFailed "M0" "B" (JsError "boom")))
  /\ exec Examples.production (TaskStep "B" TraversalDone) s = None.
Proof. vm_compute. auto. Qed.

(** A factory that the discovery service finds is kept among the provided
    factories and the registry does not know its service. *)
Example discovered_factory_is_not_installed :
  let s := started (Examples.discovering
                      [Examples.factory_feature (extra_factory 40)])
                   (configured discovery_defaults []) in
  map (fun sf => ref_id (sf_service sf)) (providedServiceFactories s) = ["extra"]
  /\ holder_get (serviceHolder s) (Examples.serviceRef "extra") "root"
     = Ok JUndefined
  /\ option_map ServiceRegistry.getServiceRefs (serviceHolder s)
     = Some (map sf_service discovery_defaults).
Proof. vm_compute. auto. Qed.

Example discovered_plugin_metadata_is_rejected :
  startOutcome
    (started (Examples.discovering
                [Examples.factory_feature
                   (Examples.constant_factory coreServices.pluginMetadata
                                              (Examples.impl 41))])
             (configured discovery_defaults []))
  = Some (Err ForbiddenServiceOverride).
Proof. vm_compute. reflexivity. Qed.

Example discovered_duplicate_is_rejected :
  startOutcome
    (started (Examples.discovering
                [Examples.factory_feature (extra_factory 42)])
             (configured discovery_defaults
                         [Examples.factory_feature (extra_factory 40)]))
  = Some (Err (DuplicateServiceImpl "extra")).
Proof. vm_compute. reflexivity. Qed.

(** The run of the two plugins: B2, which consumes the extension point of
    B1, is initialized before B1, the modules before the plugin, and the
    root lifecycle last. *)
Example two_plugins_trace :
  trace (after Examples.production Examples.two_plugins_run
               (configured Examples.defaults Examples.two_plugins))
  = [PluginInitCalled "A"; ModuleInitCalled "B" "B2"; PluginInitDone "A";
     ModuleInitDone "B" "B2"; ModuleInitCalled "B" "B1";
     ModuleInitDone "B" "B1"; PluginInitCalled "B"; PluginInitDone "B";
     PluginStartupCalled "A"; PluginStartupCalled "B";
     PluginStartupDone "B"; PluginStartupDone "A"; RootStartupCalled;
     RootStartupDone].
Proof. vm_compute. reflexivity. Qed.

Example module_only_starts :
  let s := after Examples.production Examples.module_only_run
                 (configured Examples.defaults Examples.module_only) in
  startOutcome s = Some (Ok tt)
  /\ trace s
     = [ModuleInitCalled "P" "M"; ModuleInitDone "P" "M";
        PluginStartupCalled "P"; PluginStartupDone "P"; RootStartupCalled;
        RootStartupDone].
Proof. vm_compute. auto. Qed.

(* ===================================================================== *)
(** * Further properties of the initializer *)
(* ===================================================================== *)

(** ** Once [start()] has been called *)

Lemma started_is_started w s0 : startPromise (started w s0) <> None.
Proof.
  unfold started, start. destruct (startPromise s0) eqn:E; simpl.
  - congruence.
  - destruct (doStart_sequential w _) as [[[a b]|e] s2]; simpl; discriminate.
Qed.

Lemma exec_keeps_started w a s s' :
  exec w a s = Some s' -> startPromise s' <> None.
Proof.
  intros Hex. destruct (startPromise s) as [ds|] eqn:Hsp.
  - destruct (exec_shape _ _ _ _ _ Hsp Hex) as (ds' & _ & H & _). congruence.
  - unfold exec in Hex. rewrite Hsp in Hex. discriminate.
Qed.

Lemma run_keeps_started w actions : forall s s',
  startPromise s <> None -> run w actions s = Some s' -> startPromise s' <> None.
Proof.
  induction actions as [|a actions IH]; simpl; intros s s' Hs.
  - now intros [= <-].
  - destruct (exec w a s) as [s1|] eqn:Ex; [|discriminate].
    apply IH. eapply exec_keeps_started; eauto.
Qed.

Lemma reachable_started w s0 s :
  reachable w s0 s -> exists ds, startPromise s = Some ds.
Proof.
  intros [actions Hrun].
  pose proof (run_keeps_started _ _ _ _ (started_is_started w s0) Hrun) as H.
  destruct (startPromise s) as [ds|]; [eauto|congruence].
Qed.

(** X1.  Once [start()] has been called, whatever has become of the
    startup since, [add] throws "feature can not be added after the backend
    has started" and [start()] throws "Backend has already started"; neither
    call changes anything: no feature is recorded, no listener is added. *)
Theorem started_backend_is_closed w s0 s feature :
  reachable w s0 s ->
  add feature s = (Err AlreadyStarted_add, s)
  /\ start w s = (Some AlreadyStarted, s).
Proof.
  intros Hr. destruct (reachable_started _ _ _ Hr) as [ds Hsp].
  unfold add, start, bind, get_state, throw. now rewrite Hsp.
Qed.

Lemma started_backend_is_closed_witness :
  let s := after Examples.production Examples.two_plugins_run
                 (configured Examples.defaults Examples.two_plugins) in
  add (Examples.plugin "C" [] (Examples.succeeds [])) s
  = (Err AlreadyStarted_add, s)
  /\ start Examples.production s = (Some AlreadyStarted, s).
Proof.
  intros s.
  apply (started_backend_is_closed
           Examples.production
           (configured Examples.defaults Examples.two_plugins)).
  exists Examples.two_plugins_run. vm_compute. reflexivity.
Defined.

(** X2.  A call of [add] that throws leaves the initializer as it was, and
    what it throws is one of the six errors of [add] and [#addFeature]. *)
Theorem add_failure_changes_nothing feature s e s' :
  add feature s = (Err e, s') ->
  s' = s /\ In e (add_errors feature).
Proof.
  unfold add, addFeature, add_errors, bind, get_state, throw, modify.
  destruct (startPromise s).
  { intros [= <- <-]. simpl. auto. }
  destruct (negb (String.eqb (f_type feature) _)).
  { intros [= <- <-]. simpl. auto. }
  destruct (f_service feature) as [sf|].
  - destruct (String.eqb (ref_id (sf_service sf)) _).
    { intros [= <- <-]. simpl. auto. }
    destruct (existsb _ _); [|discriminate].
    intros [= <- <-]. split; [reflexivity|]. apply in_or_app. right. now left.
  - destruct (f_getRegistrations feature).
    + destruct (negb (String.eqb (f_version feature) _)); [|discriminate].
      intros [= <- <-]. simpl. auto 6.
    + intros [= <- <-]. simpl. auto 8.
Qed.

Lemma add_failure_changes_nothing_witness :
  let s := configured Examples.defaults
             [Examples.factory_feature (extra_factory 1)] in
  snd (add (Examples.factory_feature (extra_factory 2)) s) = s
  /\ In (DuplicateServiceImpl "extra")
        (add_errors (Examples.factory_feature (extra_factory 2))).
Proof.
  intros s.
  apply (add_failure_changes_nothing
           (Examples.factory_feature (extra_factory 2)) s
           (DuplicateServiceImpl "extra")).
  vm_compute. reflexivity.
Defined.

(** ** [add] *)

Lemma add_features_step f s :
  startPromise s = None ->
  features (snd (add f s))
  = features s ++ (if accepted_feature f then [f] else [])
  /\ startPromise (snd (add f s)) = None.
Proof.
  intros Hsp. unfold add, addFeature, accepted_feature, bind, get_state, throw,
    modify. rewrite Hsp.
  destruct (String.eqb (f_type f) _); simpl;
    [|now rewrite app_nil_r].
  destruct (f_service f) as [sf|]; simpl.
  - destruct (String.eqb (ref_id (sf_service sf)) _); simpl;
      [now rewrite app_nil_r|].
    destruct (existsb _ _); simpl; now rewrite app_nil_r.
  - destruct (f_getRegistrations f); simpl; [|now rewrite app_nil_r].
    destruct (String.eqb (f_version f) _); simpl; [auto|now rewrite app_nil_r].
Qed.

Lemma add_all_features fs : forall s,
  startPromise s = None ->
  features (add_all fs s) = features s ++ filter accepted_feature fs.
Proof.
  induction fs as [|f fs IH]; intros s Hsp; simpl.
  - now rewrite app_nil_r.
  - destruct (add_features_step f s Hsp) as [Hf Hs].
    unfold add_all in IH. rewrite IH by exact Hs. rewrite Hf, <- app_assoc.
    now destruct (accepted_feature f).
Qed.

(** X3.  The features of a backend that has not been started are the
    features given to [add] that have the type tag
    '@backstage/BackendFeature', no [service], a [getRegistrations] and the
    version 'v1', in the order in which they were added; the other ones were
    rejected or are service factories. *)
Theorem configured_features_in_order defaults fs :
  features (configured defaults fs) = filter accepted_feature fs.
Proof.
  unfold configured. rewrite (add_all_features fs); [reflexivity|].
  reflexivity.
Qed.

Lemma preserves_ret {A} I (a : A) : preserves I (ret a).
Proof. intros s H. exact H. Qed.

Lemma preserves_throw {A} I e : preserves I (@throw A e).
Proof. intros s H. exact H. Qed.

Lemma preserves_await {A} I (r : result A) : preserves I (await r).
Proof. intros s H. exact H. Qed.

Lemma preserves_get_state I : preserves I get_state.
Proof. intros s H. exact H. Qed.

Lemma preserves_modify (I : State -> Prop) g :
  (forall s, I s -> I (g s)) -> preserves I (modify g).
Proof. intros H s. apply H. Qed.

Lemma preserves_bind {A B} I (c : M A) (k : A -> M B) :
  preserves I c -> (forall a, preserves I (k a)) -> preserves I (bind c k).
Proof.
  intros Hc Hk s Hs. unfold bind. specialize (Hc s Hs).
  destruct (c s) as [[a|e] s1]; simpl in *; [now apply Hk|exact Hc].
Qed.

Lemma preserves_foldM {A B} I (body : B -> A -> M B) xs :
  (forall acc x, preserves I (body acc x)) ->
  forall acc, preserves I (foldM body acc xs).
Proof.
  intros Hb. induction xs as [|x xs IH]; intros acc; simpl.
  - apply preserves_ret.
  - apply preserves_bind; auto.
Qed.

Lemma existsb_service_ids sf l :
  existsb (fun g => String.eqb (ref_id (sf_service g)) (ref_id (sf_service sf))) l
  = false ->
  ~ In (ref_id (sf_service sf)) (service_ids l).
Proof.
  intros E Hin. unfold service_ids in Hin. apply in_map_iff in Hin.
  destruct Hin as (g & Hg & Hin).
  assert (Ht : existsb (fun g => String.eqb (ref_id (sf_service g))
                                            (ref_id (sf_service sf))) l = true).
  { apply existsb_exists. exists g. split; [exact Hin|].
    now apply String.eqb_eq. }
  congruence.
Qed.

Lemma addFeature_distinct feature : preserves distinct_factories (addFeature feature).
Proof.
  intros s [Hnd Hmeta]. unfold addFeature, bind, get_state, throw, modify.
  destruct (negb _); [split; assumption|].
  destruct (f_service feature) as [sf|].
  - destruct (String.eqb (ref_id (sf_service sf)) _) eqn:Emeta;
      [split; assumption|].
    destruct (existsb _ _) eqn:Edup; [split; assumption|].
    apply existsb_service_ids in Edup. apply String.eqb_neq in Emeta.
    split; simpl; unfold service_ids in *; rewrite map_app; simpl.
    + apply NoDup_app; [exact Hnd|repeat constructor; auto|].
      intros x Hx [<-|[]]. auto.
    + rewrite in_app_iff. simpl. intuition.
  - destruct (f_getRegistrations feature); [|split; assumption].
    destruct (negb _); split; assumption.
Qed.

Lemma add_distinct feature : preserves distinct_factories (add feature).
Proof.
  unfold add. apply preserves_bind; [apply preserves_get_state|]. intros s0.
  destruct (startPromise s0); [apply preserves_throw|apply addFeature_distinct].
Qed.

Lemma configured_distinct defaults fs :
  distinct_factories (configured defaults fs).
Proof.
  unfold configured.
  assert (H0 : distinct_factories (new_BackendInitializer defaults))
    by (split; [constructor|intros []]).
  revert H0. generalize (new_BackendInitializer defaults) as s.
  induction fs as [|f fs IH]; intros s Hs; simpl; [exact Hs|].
  apply IH. now apply add_distinct.
Qed.

Lemma doStart_sequential_distinct_factories w :
  preserves distinct_factories (doStart_sequential w).
Proof.
  assert (Hframe : forall g, (forall s, providedServiceFactories (g s)
                                         = providedServiceFactories s) ->
                             forall s, distinct_factories s ->
                                       distinct_factories (g s)).
  { intros g Hg s. unfold distinct_factories. now rewrite Hg. }
  unfold doStart_sequential.
  apply preserves_bind; [apply preserves_get_state|]. intros s0.
  apply preserves_bind; [apply preserves_modify; now apply Hframe|]. intros _.
  apply preserves_bind.
  { unfold discoverFeatures.
    apply preserves_bind; [apply preserves_await|]. intros fd.
    destruct (truthy fd); [|apply preserves_ret].
    apply preserves_bind; [apply preserves_await|]. intros found.
    unfold forM_. apply preserves_foldM. intros _ x. apply addFeature_distinct. }
  intros _. apply preserves_bind.
  { intros s Hs. unfold distinct_factories.
    now rewrite (initRootServices_keeps providedServiceFactories). }
  intros _. apply preserves_bind; [apply preserves_get_state|]. intros s1.
  intros s Hs. unfold distinct_factories.
  now rewrite (indexFeatures_keeps providedServiceFactories _ (fun _ _ => eq_refl)).
Qed.

Lemma exec_keeps {X} (f : State -> X) w a s s' :
  (forall p s, f (set_startPromise p s) = f s) ->
  (forall evs s, f (emit evs s) = f s) ->
  (forall p s, f (set_rootStartup p s) = f s) ->
  (forall l s, f (set_listeners l s) = f s) ->
  exec w a s = Some s' -> f s' = f s.
Proof.
  intros H1 H2 H3 H4. unfold exec.
  destruct (startPromise s) as [ds|]; [|discriminate].
  destruct a as [p ta| |].
  - destruct (find_task p (ds_tasks ds)) as [t|]; [|discriminate].
    destruct (exec_task _ _ _ _ _ ta t) as [[t' evs]|]; [|discriminate].
    intros [= <-]. now rewrite H2, H1.
  - destruct (ds_stage ds); try discriminate.
    destruct (forallb is_PluginDone (ds_tasks ds)); [|discriminate].
    destruct (getRootLifecycleImpl (serviceHolder s)).
    + destruct (rootStartup s); intros [= <-];
        rewrite ?H2, ?H3, ?H1; reflexivity.
    + intros [= <-]. now rewrite H1.
  - destruct (ds_stage ds); try discriminate.
    destruct (rootStartupHooks w); intros [= <-].
    + unfold installErrorHooks. destruct (test_mode w).
      * now rewrite H1, H2, H3.
      * destruct (holder_get _ _ _); rewrite ?H1, ?H4, ?H2, ?H3; reflexivity.
    + now rewrite H3, H1.
Qed.

Lemma run_keeps {X} (f : State -> X) w actions :
  (forall p s, f (set_startPromise p s) = f s) ->
  (forall evs s, f (emit evs s) = f s) ->
  (forall p s, f (set_rootStartup p s) = f s) ->
  (forall l s, f (set_listeners l s) = f s) ->
  forall s s', run w actions s = Some s' -> f s' = f s.
Proof.
  intros H1 H2 H3 H4. induction actions as [|a actions IH]; simpl; intros s s'.
  - now intros [= <-].
  - destruct (exec w a s) as [s1|] eqn:Ex; [|discriminate].
    intros Hrun. rewrite (IH _ _ Hrun). eapply exec_keeps; eauto.
Qed.

Lemma exec_wiring w a s s' ds :
  startPromise s = Some ds -> exec w a s = Some s' ->
  exists ds',
    startPromise s' = Some ds'
    /\ ds_pluginInits ds' = ds_pluginInits ds
    /\ ds_moduleInits ds' = ds_moduleInits ds.
Proof.
  intros Hsp. unfold exec. rewrite Hsp. destruct a as [p ta| |].
  - destruct (find_task p (ds_tasks ds)) as [t|]; [|discriminate].
    destruct (exec_task _ _ _ _ _ ta t) as [[t' evs]|]; [|discriminate].
    intros [= <-]. eexists. simpl. auto.
  - destruct (ds_stage ds); try discriminate.
    destruct (forallb is_PluginDone (ds_tasks ds)); [|discriminate].
    destruct (getRootLifecycleImpl (serviceHolder s)).
    + destruct (rootStartup s); intros [= <-]; eexists; simpl; auto.
    + intros [= <-]. eexists. simpl. auto.
  - destruct (ds_stage ds); try discriminate.
    destruct (rootStartupHooks w); intros [= <-].
    + unfold installErrorHooks. destruct (test_mode w).
      * eexists. simpl. auto.
      * destruct (holder_get _ _ _); eexists; simpl; auto.
    + eexists. simpl. auto.
Qed.

Lemma run_wiring w actions : forall s s' ds,
  startPromise s = Some ds -> run w actions s = Some s' ->
  exists ds',
    startPromise s' = Some ds'
    /\ ds_pluginInits ds' = ds_pluginInits ds
    /\ ds_moduleInits ds' = ds_moduleInits ds.
Proof.
  induction actions as [|a actions IH]; simpl; intros s s' ds Hsp.
  - intros [= <-]. eauto.
  - destruct (exec w a s) as [s1|] eqn:Ex; [|discriminate].
    destruct (exec_wiring _ _ _ _ _ Hsp Ex) as (ds1 & Hsp1 & Hp & Hm).
    intros Hrun. destruct (IH _ _ _ Hsp1 Hrun) as (ds' & Hsp' & Hp' & Hm').
    exists ds'. repeat split; congruence.
Qed.

(** X4.  However the features were added and whatever the discovery
    service has found, the provided service factories never hold two
    factories for the same service id, and never one for
    [core.pluginMetadata]: before [start()] and in every state of the
    startup. *)
Theorem provided_factories_distinct w defaults fs :
  distinct_factories (configured defaults fs)
  /\ forall s, reachable w (configured defaults fs) s -> distinct_factories s.
Proof.
  split; [apply configured_distinct|].
  intros s [actions Hrun].
  assert (H0 : distinct_factories (started w (configured defaults fs))).
  { unfold started, start. rewrite configured_not_started.
    pose proof (doStart_sequential_distinct_factories w
                  (set_listeners (listeners (configured defaults fs) ++ exitListeners)
                                 (configured defaults fs))
                  (configured_distinct defaults fs)) as H.
    destruct (doStart_sequential w _) as [[[a b]|e] s2]; exact H. }
  unfold distinct_factories.
  rewrite (run_keeps providedServiceFactories w actions
             (fun _ _ => eq_refl) (fun _ _ => eq_refl)
             (fun _ _ => eq_refl) (fun _ _ => eq_refl) _ _ Hrun).
  exact H0.
Qed.

(** ** [start()] and the wiring *)

(** X12.  The running of the initializers changes none of the tables that
    the first part of [#doStart] has built: the extension points, the
    service holder, the features, the provided and default factories and
    the two indexes stay as [start()] left them. *)
Theorem wiring_frozen_during_run w s0 s :
  reachable w s0 s ->
  extensionPoints s = extensionPoints (started w s0)
  /\ serviceHolder s = serviceHolder (started w s0)
  /\ features s = features (started w s0)
  /\ providedServiceFactories s = providedServiceFactories (started w s0)
  /\ defaultApiFactories s = defaultApiFactories (started w s0)
  /\ option_map ds_pluginInits (startPromise s)
     = option_map ds_pluginInits (startPromise (started w s0))
  /\ option_map ds_moduleInits (startPromise s)
     = option_map ds_moduleInits (startPromise (started w s0)).
Proof.
  intros [actions Hrun]. fold (started w s0) in Hrun.
  assert (Hk : forall (X : Type) (f : State -> X),
             (forall p s, f (set_startPromise p s) = f s) ->
             (forall evs s, f (emit evs s) = f s) ->
             (forall p s, f (set_rootStartup p s) = f s) ->
             (forall l s, f (set_listeners l s) = f s) ->
             f s = f (started w s0))
    by (intros X f H1 H2 H3 H4; now apply (run_keeps f w actions)).
  repeat split; try (apply Hk; reflexivity).
  - destruct (startPromise (started w s0)) as [ds|] eqn:Hsp;
      [|now destruct (started_is_started w s0)].
    destruct (run_wiring _ _ _ _ _ Hsp Hrun) as (ds' & -> & Hp & _).
    simpl. congruence.
  - destruct (startPromise (started w s0)) as [ds|] eqn:Hsp;
      [|now destruct (started_is_started w s0)].
    destruct (run_wiring _ _ _ _ _ Hsp Hrun) as (ds' & -> & _ & Hm).
    simpl. congruence.
Qed.

Lemma wiring_frozen_during_run_witness :
  let s0 := configured Examples.defaults Examples.two_plugins in
  let s := after Examples.production Examples.two_plugins_run s0 in
  extensionPoints s = [("Bx", (Examples.impl 10, "B"))]
  /\ option_map ds_pluginInits (startPromise s)
     = option_map ds_pluginInits (startPromise (started Examples.production s0)).
Proof.
  intros s0 s.
  assert (Hr : reachable Examples.production s0 s)
    by (exists Examples.two_plugins_run; vm_compute; reflexivity).
  destruct (wiring_frozen_during_run _ _ _ Hr) as (Hep & _ & _ & _ & _ & Hpi & _).
  split; [|exact Hpi].
  rewrite Hep. vm_compute. reflexivity.
Defined.

Lemma exec_rejected w a s e :
  startPromise s = Some (rejected_doStart e) -> exec w a s = None.
Proof.
  intros Hsp. unfold exec. rewrite Hsp. destruct a; reflexivity.
Qed.

Lemma started_rejected w s0 e s1 :
  startPromise s0 = None ->
  doStart_sequential w (set_listeners (listeners s0 ++ exitListeners) s0)
  = (Err e, s1) ->
  started w s0 = set_startPromise (Some (rejected_doStart e)) s1
  /\ log s1 = log s0.
Proof.
  intros Hsp Hseq. split.
  - unfold started, start. now rewrite Hsp, Hseq.
  - pose proof (doStart_sequential_keeps
                  log w (fun _ _ => eq_refl) (fun _ _ => eq_refl)
                  (fun _ _ => eq_refl) (fun _ _ => eq_refl)
                  (set_listeners (listeners s0 ++ exitListeners) s0)) as Hk.
    rewrite Hseq in Hk. exact Hk.
Qed.

Lemma rejected_start_is_final w s0 e s :
  startPromise (started w s0) = Some (rejected_doStart e) ->
  reachable w s0 s -> s = started w s0.
Proof.
  intros Hst [actions Hrun]. fold (started w s0) in Hrun.
  destruct actions as [|a actions]; simpl in Hrun; [congruence|].
  now rewrite (exec_rejected w a _ e Hst) in Hrun.
Qed.

(** X7.  When [#doStart] throws before it gets to the plugins (the
    discovery, a root scoped service or the enumeration of the features
    threw), the promise of [start()] is rejected with that error and nothing
    else ever happens: no continuation is left to run, so no initializer
    and no lifecycle startup is called. *)
Theorem wiring_failure_runs_nothing w s0 e s1 s :
  startPromise s0 = None ->
  doStart_sequential w (set_listeners (listeners s0 ++ exitListeners) s0)
  = (Err e, s1) ->
  reachable w s0 s ->
  s = started w s0
  /\ startOutcome s = Some (Err e)
  /\ trace s = trace s0.
Proof.
  intros Hsp Hseq Hr.
  destruct (started_rejected w s0 e s1 Hsp Hseq) as [Hst Hlog].
  assert (Hs : s = started w s0).
  { apply (rejected_start_is_final w s0 e); [|exact Hr]. now rewrite Hst. }
  split; [exact Hs|]. subst s. rewrite Hst. split; [reflexivity|].
  unfold trace. simpl. now rewrite Hlog.
Qed.

Lemma wiring_failure_runs_nothing_witness :
  let s0 := configured Examples.defaults
              [Examples.plugin "A" [] (Examples.succeeds []);
               Examples.plugin "A" [] (Examples.succeeds [])] in
  let s := started Examples.production s0 in
  startOutcome s = Some (Err (DuplicatePluginRegistration "A"))
  /\ trace s = [].
Proof.
  intros s0 s.
  destruct (wiring_failure_runs_nothing
              Examples.production s0 (DuplicatePluginRegistration "A")
              (snd (doStart_sequential
                      Examples.production
                      (set_listeners (listeners s0 ++ exitListeners) s0)))
              s) as (_ & Hout & Htr).
  - vm_compute. reflexivity.
  - vm_compute. reflexivity.
  - exists []. reflexivity.
  - split; [exact Hout|]. rewrite Htr. vm_compute. reflexivity.
Defined.

(** ** One task for each plugin id *)

Lemma set_has_app acc x xs :
  set_has String.eqb (acc ++ xs) x
  = set_has String.eqb acc x || set_has String.eqb xs x.
Proof. unfold set_has. apply existsb_app. Qed.

Lemma set_has_In acc x : set_has String.eqb acc x = true <-> In x acc.
Proof.
  unfold set_has. rewrite existsb_exists. split.
  - intros (y & Hy & E). apply String.eqb_eq in E. now subst.
  - intros H. exists x. split; [exact H|apply String.eqb_refl].
Qed.

Lemma unseen_snoc acc y ys :
  ~ In y ys -> unseen (acc ++ [y]) ys = unseen acc ys.
Proof.
  intros Hy. unfold unseen. apply filter_ext_in. intros x Hx.
  rewrite set_has_app. unfold set_has at 2. simpl.
  replace (String.eqb x y) with false; [now rewrite !orb_false_r|].
  symmetry. apply String.eqb_neq. intros ->. auto.
Qed.

Lemma fold_set_add_unseen ys : forall acc,
  NoDup ys ->
  fold_left (set_add String.eqb) ys acc = acc ++ unseen acc ys.
Proof.
  induction ys as [|y ys IH]; intros acc Hnd; simpl.
  - now rewrite app_nil_r.
  - inversion Hnd as [|? ? Hy Hnd']; subst. rewrite IH by exact Hnd'.
    unfold set_add.
    destruct (set_has String.eqb acc y) eqn:E; simpl; [reflexivity|].
    rewrite <- app_assoc. simpl. now rewrite unseen_snoc.
Qed.

Lemma set_of_app_NoDup xs ys :
  NoDup xs -> NoDup ys ->
  set_of String.eqb (xs ++ ys) = xs ++ unseen xs ys.
Proof.
  intros Hx Hy. unfold set_of. rewrite fold_left_app.
  rewrite (fold_set_add_unseen xs []) by exact Hx. simpl.
  assert (Hall : unseen [] xs = xs).
  { unfold unseen. clear. induction xs as [|x xs IH]; [reflexivity|].
    simpl. f_equal. exact IH. }
  rewrite Hall. now apply fold_set_add_unseen.
Qed.

Lemma map_set_keys_NoDup (V : Type) (m : list (string * V)) k v :
  NoDup (map fst m) -> NoDup (map fst (map_set m k v)).
Proof.
  intros Hnd. destruct (map_get m k) as [v0|] eqn:E.
  - rewrite map_set_keys; [exact Hnd|].
    apply map_get_In in E. apply in_map_iff. now exists (k, v0).
  - rewrite map_set_fresh_keys by exact E.
    apply NoDup_app; [exact Hnd|repeat constructor; auto|].
    intros x Hx [<-|[]]. eapply map_get_None_notin; eauto.
Qed.

Lemma indexRegistration_keys idx r s idx' s' :
  NoDup (map_keys (fst idx)) /\ NoDup (map_keys (snd idx)) ->
  indexRegistration idx r s = (Ok idx', s') ->
  NoDup (map_keys (fst idx')) /\ NoDup (map_keys (snd idx')).
Proof.
  intros [Hp Hm]. unfold indexRegistration, bind.
  destruct (registerExtensionPoints r s) as [[provides|e] s1]; [|discriminate].
  destruct idx as [pluginInits moduleInits]. simpl in *.
  destruct (r_type r).
  - destruct (map_has pluginInits (r_pluginId r)); [discriminate|].
    unfold ret. intros [= <- _]. simpl. split; [|exact Hm].
    now apply map_set_keys_NoDup.
  - destruct (map_has _ _); [discriminate|].
    unfold ret. intros [= <- _]. simpl. split; [exact Hp|].
    now apply map_set_keys_NoDup.
Qed.

Lemma indexFeatures_keys fs s idx s' :
  indexFeatures fs s = (Ok idx, s') ->
  NoDup (map_keys (fst idx)) /\ NoDup (map_keys (snd idx)).
Proof.
  unfold indexFeatures.
  apply (foldM_Ok_invariant
           (fun idx => NoDup (map_keys (fst idx)) /\ NoDup (map_keys (snd idx)))).
  - intros acc feature s0 acc' s0' Hacc.
    apply (foldM_Ok_invariant
             (fun idx => NoDup (map_keys (fst idx)) /\ NoDup (map_keys (snd idx))));
      [|exact Hacc].
    intros idx0 r s1 idx1 s1'. apply indexRegistration_keys.
  - split; constructor.
Qed.

Lemma doStart_sequential_keys w s idx s' :
  doStart_sequential w s = (Ok idx, s') ->
  NoDup (map_keys (fst idx)) /\ NoDup (map_keys (snd idx)).
Proof.
  unfold doStart_sequential, bind at 1. simpl. unfold bind at 1. simpl.
  unfold bind at 1. destruct (discoverFeatures w _ _) as [[u|e] s1];
    [|discriminate].
  unfold bind at 1. destruct (initRootServices _ s1) as [[u'|e] s2];
    [|discriminate].
  unfold bind, get_state. apply indexFeatures_keys.
Qed.

Lemma started_keys w defaults fs ds1 :
  startPromise (started w (configured defaults fs)) = Some ds1 ->
  NoDup (map_keys (ds_pluginInits ds1)) /\ NoDup (map_keys (ds_moduleInits ds1)).
Proof.
  unfold started, start. rewrite configured_not_started.
  destruct (doStart_sequential w _) as [[[pluginInits moduleInits]|e] s2] eqn:E;
    simpl; intros [= <-]; simpl.
  - apply (doStart_sequential_keys _ _ _ _ E).
  - split; constructor.
Qed.

Lemma started_tasks w defaults fs ds1 :
  startPromise (started w (configured defaults fs)) = Some ds1 ->
  map t_pluginId (ds_tasks ds1)
  = allPluginIds (ds_pluginInits ds1) (ds_moduleInits ds1).
Proof.
  unfold started, start. rewrite configured_not_started.
  destruct (doStart_sequential w _) as [[[pluginInits moduleInits]|e] s2] eqn:E;
    simpl; intros [= <-]; simpl.
  - rewrite map_map. simpl. apply map_id.
  - reflexivity.
Qed.

(** X15.  [Promise.all] runs one task for each plugin id that has a plugin
    registration or a module, and only one when it has both.  The tasks
    are in the order of the [Set] that [allPluginIds] is built from: the
    ids of the plugins as they were registered, then the ids that only have
    modules. *)
Theorem one_task_per_plugin w defaults fs s ds :
  reachable w (configured defaults fs) s ->
  startPromise s = Some ds ->
  map t_pluginId (ds_tasks ds)
  = map_keys (ds_pluginInits ds)
    ++ unseen (map_keys (ds_pluginInits ds)) (map_keys (ds_moduleInits ds))
  /\ NoDup (map t_pluginId (ds_tasks ds))
  /\ forall p,
      In p (map t_pluginId (ds_tasks ds))
      <-> map_has (ds_pluginInits ds) p = true
          \/ map_has (ds_moduleInits ds) p = true.
Proof.
  intros Hr Hsp.
  destruct (reachable_inv _ _ _ _ Hr) as (ds1 & Hds1 & Hinv).
  destruct Hinv as (ds' & Hsp' & Hpi & Hmi & _ & _ & Hids & _).
  rewrite Hsp in Hsp'. injection Hsp' as <-.
  destruct (started_keys _ _ _ _ Hds1) as [Hp Hm].
  rewrite Hids, Hpi, Hmi. unfold allPluginIds.
  rewrite set_of_app_NoDup by assumption.
  split; [reflexivity|]. split.
  - apply NoDup_app; [exact Hp| |].
    + unfold unseen. now apply NoDup_filter.
    + intros x Hx Hin. unfold unseen in Hin. apply filter_In in Hin as [_ Hn].
      apply set_has_In in Hx. rewrite Hx in Hn. discriminate.
  - intros p. rewrite in_app_iff. unfold unseen. rewrite filter_In.
    unfold map_has.
    assert (Hk : forall (V : Type) (m : list (string * V)),
               In p (map_keys m)
               <-> match map_get m p with Some _ => true | None => false end = true).
    { intros V m. split.
      - intros Hin. destruct (map_get_in_keys _ _ _ Hin) as [v ->]. reflexivity.
      - destruct (map_get m p) eqn:E; [|discriminate]. intros _.
        apply map_get_In in E. apply in_map_iff. now exists (p, v). }
    rewrite <- !Hk. split.
    + intros [H|[H _]]; auto.
    + intros [H|H]; [now left|].
      destruct (set_has String.eqb (map_keys (ds_pluginInits ds1)) p) eqn:E.
      * left. now apply set_has_In.
      * right. auto.
Qed.

Lemma one_task_per_plugin_witness :
  let s := started Examples.production
             (configured Examples.defaults
                [Examples.module "C" "C1" [] (Examples.succeeds []);
                 Examples.plugin "A" [] (Examples.succeeds []);
                 Examples.module "A" "A1" [] (Examples.succeeds [])]) in
  map t_pluginId (ds_tasks (final_DoStart s)) = ["A"; "C"].
Proof.
  intros s.
  assert (Hr : reachable Examples.production
                 (configured Examples.defaults
                    [Examples.module "C" "C1" [] (Examples.succeeds []);
                     Examples.plugin "A" [] (Examples.succeeds []);
                     Examples.module "A" "A1" [] (Examples.succeeds [])]) s)
    by (exists []; reflexivity).
  assert (Hsp : startPromise s = Some (final_DoStart s))
    by (vm_compute; reflexivity).
  destruct (one_task_per_plugin _ _ _ _ _ Hr Hsp) as (Hids & _ & _).
  rewrite Hids. vm_compute. reflexivity.
Defined.

(** ** The enumeration of the features *)

Lemma foldM_app {A B : Type} (body : B -> A -> M B) xs ys : forall acc s,
  foldM body acc (xs ++ ys) s
  = bind (foldM body acc xs) (fun acc' => foldM body acc' ys) s.
Proof.
  induction xs as [|x xs IH]; intros acc s; simpl.
  - reflexivity.
  - unfold bind. destruct (body acc x s) as [[acc'|e] s1]; [|reflexivity].
    rewrite IH. reflexivity.
Qed.

Lemma indexFeatures_flat fs : forall idx s,
  foldM (fun idx feature => foldM indexRegistration idx (getRegistrations feature))
        idx fs s
  = foldM indexRegistration idx (all_registrations fs) s.
Proof.
  induction fs as [|f fs IH]; intros idx s; simpl; [reflexivity|].
  rewrite foldM_app. unfold bind.
  destruct (foldM indexRegistration idx (getRegistrations f) s) as [[idx'|e] s1];
    [apply IH|reflexivity].
Qed.

Lemma map_set_fresh (V : Type) (m : list (string * V)) k v :
  map_has m k = false -> map_set m k v = m ++ [(k, v)].
Proof.
  unfold map_has. induction m as [|[k' v'] m IH]; simpl; [reflexivity|].
  destruct (String.eqb k' k); [discriminate|]. intros H. now rewrite IH.
Qed.

Lemma map_has_In (V : Type) (m : list (string * V)) k :
  map_has m k = true <-> In k (map fst m).
Proof.
  unfold map_has. split.
  - destruct (map_get m k) eqn:E; [|discriminate]. intros _.
    apply map_get_In in E. apply in_map_iff. now exists (k, v).
  - intros H. now destruct (map_get_in_keys _ _ _ H) as [v ->].
Qed.

Lemma map_has_notin (V : Type) (m : list (string * V)) k :
  map_has m k = false <-> ~ In k (map fst m).
Proof.
  rewrite <- map_has_In. destruct (map_has m k); split; congruence.
Qed.

Lemma NoDup_snoc (xs : list string) x :
  NoDup (xs ++ [x]) <-> NoDup xs /\ ~ In x xs.
Proof.
  split.
  - intros H. split.
    + eapply NoDup_app_remove_r; eauto.
    + intros Hin. apply NoDup_remove_2 in H. rewrite app_nil_r in H. auto.
  - intros [H Hn]. apply NoDup_app; [exact H|repeat constructor; auto|].
    intros y Hy [<-|[]]. auto.
Qed.

Section RegisterExtensionPoints.
Variable r : Registration.

Let body := fun (provides : list Ref) (ext : Ref * JsValue) =>
  let (extRef, extImpl) := ext in
  s <- get_state ;;
  if map_has (extensionPoints s) (ref_id extRef)
  then throw (DuplicateExtensionPoint (ref_id extRef))
  else
    modify (fun s =>
      set_extensionPoints
        (map_set (extensionPoints s) (ref_id extRef) (extImpl, r_pluginId r)) s) ;;;
    ret (set_add Ref_eqb provides extRef).

Let decl (exts : list (Ref * JsValue)) :=
  map (fun ext : Ref * JsValue => (ref_id (fst ext), (snd ext, r_pluginId r))) exts.

Lemma register_loop exts : forall provides s,
  NoDup (map fst (extensionPoints s)) ->
  match foldM body provides exts s with
  | (Ok provides', s') =>
      extensionPoints s' = extensionPoints s ++ decl exts
      /\ provides' = fold_left (set_add Ref_eqb) (map fst exts) provides
      /\ NoDup (map fst (extensionPoints s ++ decl exts))
  | (Err e, s') => ~ NoDup (map fst (extensionPoints s ++ decl exts))
  end.
Proof.
  induction exts as [|[extRef extImpl] exts IH]; intros provides s Hnd; simpl.
  - rewrite app_nil_r. auto.
  - unfold bind at 1. unfold get_state at 1. unfold bind at 1.
    destruct (map_has (extensionPoints s) (ref_id extRef)) eqn:Ehas.
    + unfold throw. intros Hno. rewrite map_app in Hno. simpl in Hno.
      apply NoDup_remove_2 in Hno. apply Hno. apply in_or_app. left.
      now apply map_has_In.
    + unfold bind at 1, modify at 1, ret at 1.
      set (s1 := set_extensionPoints _ s).
      assert (Hs1 : extensionPoints s1
                    = extensionPoints s ++ [(ref_id extRef, (extImpl, r_pluginId r))]).
      { unfold s1. simpl. now apply map_set_fresh. }
      assert (Hnd1 : NoDup (map fst (extensionPoints s1))).
      { rewrite Hs1, map_app. simpl. apply NoDup_snoc. split; [exact Hnd|].
        now apply map_has_notin. }
      specialize (IH (set_add Ref_eqb provides extRef) s1 Hnd1).
      rewrite Hs1, <- app_assoc in IH. simpl in IH.
      destruct (foldM body _ exts s1) as [[provides'|e] s']; exact IH.
Qed.

Lemma registerExtensionPoints_spec s :
  NoDup (map fst (extensionPoints s)) ->
  match registerExtensionPoints r s with
  | (Ok provides', s') =>
      extensionPoints s' = extensionPoints s ++ declared r
      /\ provides' = set_of Ref_eqb (map fst (r_extensionPoints r))
      /\ NoDup (map fst (extensionPoints s ++ declared r))
  | (Err e, s') => ~ NoDup (map fst (extensionPoints s ++ declared r))
  end.
Proof. intros Hnd. exact (register_loop (r_extensionPoints r) [] s Hnd). Qed.
End RegisterExtensionPoints.

Lemma filter_snoc {A : Type} (f : A -> bool) xs x :
  filter f (xs ++ [x]) = filter f xs ++ (if f x then [x] else []).
Proof. rewrite filter_app. reflexivity. Qed.

Lemma flat_map_snoc {A B : Type} (f : A -> list B) xs x :
  flat_map f (xs ++ [x]) = flat_map f xs ++ f x.
Proof. rewrite flat_map_app. simpl. now rewrite app_nil_r. Qed.

Lemma modules_of_set moduleInits p0 ms p :
  modules_of (map_set moduleInits p0 ms) p
  = if String.eqb p0 p then ms else modules_of moduleInits p.
Proof.
  unfold modules_of. destruct (String.eqb p0 p) eqn:E.
  - apply String.eqb_eq in E. subst. now rewrite map_get_set_eq.
  - apply String.eqb_neq in E. now rewrite map_get_set_ne.
Qed.

(** One registration more. *)
Lemma indexRegistration_step done idx r s :
  indexed_as done idx s -> distinct_registrations done ->
  match indexRegistration idx r s with
  | (Ok idx', s') =>
      indexed_as (done ++ [r]) idx' s' /\ distinct_registrations (done ++ [r])
  | (Err e, s') => ~ distinct_registrations (done ++ [r])
  end.
Proof.
  intros (Hep & Hpi & Hmi) (Dep & Dpi & Dmi).
  unfold indexRegistration, bind.
  assert (Hnd : NoDup (map fst (extensionPoints s))) by now rewrite Hep.
  pose proof (registerExtensionPoints_spec r s Hnd) as Hreg.
  destruct (registerExtensionPoints r s) as [[provides'|e] s1].
  2:{ intros (D & _). apply Hreg. now rewrite Hep, <- flat_map_snoc. }
  destruct Hreg as (Hep1 & Hprov & Hnd1).
  rewrite Hep, <- flat_map_snoc in Hep1, Hnd1.
  destruct idx as [pluginInits moduleInits]. simpl in Hpi, Hmi.
  assert (Hentry : {| provides := provides';
                      consumes := set_of Ref_eqb (map snd (init_deps (r_init r)));
                      init := r_init r |} = entry_of r)
    by (unfold entry_of; now rewrite Hprov).
  rewrite Hentry.
  destruct (r_type r) eqn:Ety.
  - assert (Hplug : is_plugin r = true) by (unfold is_plugin; now rewrite Ety).
    assert (Hmod : forall p, is_module_of p r = false)
      by (intros p; unfold is_module_of; now rewrite Hplug).
    assert (Hkeys : map fst pluginInits = map r_pluginId (filter is_plugin done)).
    { rewrite Hpi, map_map. reflexivity. }
    destruct (map_has pluginInits (r_pluginId r)) eqn:Ehas.
    + unfold throw. intros (_ & D & _).
      rewrite filter_snoc, Hplug, map_app in D. simpl in D.
      apply NoDup_snoc in D as [_ D]. apply D. rewrite <- Hkeys.
      now apply map_has_In.
    + unfold ret. split; [split; [exact Hep1|split]|split; [exact Hnd1|split]].
      * simpl. rewrite map_set_fresh by exact Ehas.
        rewrite filter_snoc, Hplug, map_app, Hpi. reflexivity.
      * intros p. simpl. rewrite filter_snoc, Hmod, app_nil_r. apply Hmi.
      * rewrite filter_snoc, Hplug, map_app. simpl. apply NoDup_snoc.
        split; [exact Dpi|]. rewrite <- Hkeys. now apply map_has_notin.
      * intros p. rewrite filter_snoc, Hmod, app_nil_r. apply Dmi.
  - assert (Hplug : is_plugin r = false) by (unfold is_plugin; now rewrite Ety).
    assert (Hmod : forall p, is_module_of p r = String.eqb (r_pluginId r) p)
      by (intros p; unfold is_module_of; now rewrite Hplug).
    fold (modules_of moduleInits (r_pluginId r)).
    assert (Hkeys : map fst (modules_of moduleInits (r_pluginId r))
                    = map r_moduleId (filter (is_module_of (r_pluginId r)) done)).
    { rewrite Hmi, map_map. reflexivity. }
    destruct (map_has (modules_of moduleInits (r_pluginId r)) (r_moduleId r))
      eqn:Ehas.
    + unfold throw. intros (_ & _ & D). specialize (D (r_pluginId r)).
      rewrite filter_snoc, Hmod, String.eqb_refl, map_app in D. simpl in D.
      apply NoDup_snoc in D as [_ D]. apply D. rewrite <- Hkeys.
      now apply map_has_In.
    + unfold ret. split; [split; [exact Hep1|split]|split; [exact Hnd1|split]].
      * simpl. rewrite filter_snoc, Hplug, app_nil_r. exact Hpi.
      * intros p. simpl. rewrite modules_of_set, filter_snoc, Hmod.
        destruct (String.eqb (r_pluginId r) p) eqn:Ep.
        -- apply String.eqb_eq in Ep. subst p.
           rewrite map_set_fresh by exact Ehas. now rewrite map_app, Hmi.
        -- rewrite app_nil_r. apply Hmi.
      * rewrite filter_snoc, Hplug, app_nil_r. exact Dpi.
      * intros p. rewrite filter_snoc, Hmod.
        destruct (String.eqb (r_pluginId r) p) eqn:Ep.
        -- apply String.eqb_eq in Ep. subst p. rewrite map_app. simpl.
           apply NoDup_snoc. split; [apply Dmi|]. rewrite <- Hkeys.
           now apply map_has_notin.
        -- rewrite app_nil_r. apply Dmi.
Qed.

Lemma distinct_registrations_prefix done rest :
  distinct_registrations (done ++ rest) -> distinct_registrations done.
Proof.
  intros (D1 & D2 & D3). split; [|split].
  - rewrite flat_map_app, map_app in D1. eapply NoDup_app_remove_r; eauto.
  - rewrite filter_app, map_app in D2. eapply NoDup_app_remove_r; eauto.
  - intros p. specialize (D3 p). rewrite filter_app, map_app in D3.
    eapply NoDup_app_remove_r; eauto.
Qed.

Lemma index_loop rest : forall done idx s,
  indexed_as done idx s -> distinct_registrations done ->
  match foldM indexRegistration idx rest s with
  | (Ok idx', s') =>
      indexed_as (done ++ rest) idx' s' /\ distinct_registrations (done ++ rest)
  | (Err e, s') => ~ distinct_registrations (done ++ rest)
  end.
Proof.
  induction rest as [|r rest IH]; intros done idx s Hidx Hd; simpl.
  - rewrite app_nil_r. auto.
  - unfold bind. pose proof (indexRegistration_step done idx r s Hidx Hd) as Hstep.
    destruct (indexRegistration idx r s) as [[idx1|e] s1].
    + destruct Hstep as [Hidx1 Hd1]. specialize (IH _ _ _ Hidx1 Hd1).
      now rewrite <- app_assoc in IH.
    + intros D. apply Hstep.
      apply (distinct_registrations_prefix (done ++ [r]) rest).
      now rewrite <- app_assoc.
Qed.

Lemma indexFeatures_spec fs s :
  extensionPoints s = [] ->
  match indexFeatures fs s with
  | (Ok idx, s') =>
      indexed_as (all_registrations fs) idx s'
      /\ distinct_registrations (all_registrations fs)
  | (Err e, s') => ~ distinct_registrations (all_registrations fs)
  end.
Proof.
  intros Hep. unfold indexFeatures. rewrite indexFeatures_flat.
  apply (index_loop (all_registrations fs) [] ([], []) s).
  - split; [exact Hep|]. split; reflexivity.
  - split; [constructor|]. split; [constructor|]. intros p. constructor.
Qed.

(** X5.  The enumeration of the features goes through exactly when no
    extension point id is registered twice, no plugin id has two plugin
    registrations and no plugin has two modules with the same id; otherwise
    it throws. *)
Theorem indexFeatures_succeeds_iff_distinct fs s :
  extensionPoints s = [] ->
  is_ok (fst (indexFeatures fs s)) = true
  <-> distinct_registrations (all_registrations fs).
Proof.
  intros Hep. pose proof (indexFeatures_spec fs s Hep) as H.
  destruct (indexFeatures fs s) as [[idx|e] s']; simpl.
  - split; [intros _; apply H|reflexivity].
  - split; [discriminate|]. intros D. now destruct H.
Qed.

Lemma indexFeatures_succeeds_iff_distinct_witness :
  distinct_registrations (all_registrations Examples.two_plugins)
  /\ ~ distinct_registrations
         (all_registrations
            [Examples.plugin "A" [] (Examples.succeeds []);
             Examples.plugin "A" [] (Examples.succeeds [])]).
Proof.
  split.
  - apply (proj1 (indexFeatures_succeeds_iff_distinct
                    Examples.two_plugins
                    (new_BackendInitializer Examples.defaults) eq_refl)).
    vm_compute. reflexivity.
  - intros D.
    apply (proj2 (indexFeatures_succeeds_iff_distinct
                    [Examples.plugin "A" [] (Examples.succeeds []);
                     Examples.plugin "A" [] (Examples.succeeds [])]
                    (new_BackendInitializer Examples.defaults) eq_refl)) in D.
    vm_compute in D. discriminate.
Defined.

(** X6.  When the enumeration of the features goes through, the tables
    hold the registrations as they came: the extension point table lists
    every extension point with its implementation and the plugin id of the
    registration that brought it, [pluginInits] the plugin registrations
    and the modules of a plugin its module registrations, each with the
    set of extension points it provides, the set of refs its deps consume
    and its [init]. *)
Theorem indexFeatures_tables fs s pluginInits moduleInits s' :
  extensionPoints s = [] ->
  indexFeatures fs s = (Ok (pluginInits, moduleInits), s') ->
  extensionPoints s' = flat_map declared (all_registrations fs)
  /\ pluginInits
     = map (fun r => (r_pluginId r, entry_of r))
           (filter is_plugin (all_registrations fs))
  /\ forall p,
      modules_of moduleInits p
      = map (fun r => (r_moduleId r, entry_of r))
            (filter (is_module_of p) (all_registrations fs)).
Proof.
  intros Hep Hidx. pose proof (indexFeatures_spec fs s Hep) as H.
  rewrite Hidx in H. apply H.
Qed.

Lemma indexFeatures_tables_witness :
  extensionPoints
    (snd (indexFeatures Examples.cross_plugin
                        (new_BackendInitializer Examples.defaults)))
  = [("ExtA", (Examples.impl 20, "A"))].
Proof.
  set (res := indexFeatures Examples.cross_plugin
                            (new_BackendInitializer Examples.defaults)).
  destruct (indexFeatures_tables
              Examples.cross_plugin (new_BackendInitializer Examples.defaults)
              (match fst res with Ok idx => fst idx | Err _ => [] end)
              (match fst res with Ok idx => snd idx | Err _ => [] end)
              (snd res) eq_refl) as (Hep & _).
  - vm_compute. reflexivity.
  - rewrite Hep. vm_compute. reflexivity.
Defined.

(** ** What the log says about the tasks *)

Lemma module_state_set m st t m' :
  module_state (set_module m st t) m'
  = if String.eqb m m' then st else module_state t m'.
Proof.
  unfold module_state, set_module. simpl.
  destruct (String.eqb m m') eqn:E.
  - apply String.eqb_eq in E. subst. now rewrite map_get_set_eq.
  - apply String.eqb_neq in E. now rewrite map_get_set_ne.
Qed.

Lemma module_state_phase ph t m :
  module_state (set_phase ph t) m = module_state t m.
Proof. reflexivity. Qed.

Lemma module_state_get t m st :
  map_get (t_modules t) m = Some st -> module_state t m = st.
Proof. unfold module_state. now intros ->. Qed.

Section LogSteps.
Variable w : World.
Variable eps : list (string * (JsValue * string)).
Variable holder : option ServiceRegistry.t.
Variable pluginInit : option BackendRegisterInit.
Variable modules : list (string * BackendRegisterInit).

Ltac settle :=
  intros; simpl in *; rewrite ?module_state_phase, ?module_state_set in *;
  try match goal with E : t_phase _ = _ |- _ => rewrite E in * end;
  repeat match goal with
         | |- context [String.eqb ?a ?b] =>
             let E := fresh "E" in
             destruct (String.eqb a b) eqn:E;
             [apply String.eqb_eq in E; subst|]
         | H : _ /\ _ |- _ => destruct H
         | |- _ /\ _ => split
         end;
  try rewrite String.eqb_refl in *;
  try match goal with
      | E : getPluginLifecycleImpl _ _ = _ |- _ => rewrite E in *; simpl in *
      end;
  try assumption; try exact I; try reflexivity; try congruence; try tauto;
  try lia.

Lemma exec_task_log ta t t' evs :
  exec_task w eps holder pluginInit modules ta t = Some (t', evs) ->
  (forall ev, allows holder t ev -> allows holder t' ev)
  /\ Forall (fun ev => about (t_pluginId t) ev
                       /\ ~ allows holder t ev
                       /\ allows holder t' ev) evs
  /\ t_pluginId t' = t_pluginId t
  /\ (forall e, t_phase t = PluginFailed e -> t_phase t' = PluginFailed e)
  /\ length evs <= 1.
Proof.
  destruct ta as [m|m| | | |]; simpl.
  - unfold visitModule. destruct (t_phase t) eqn:Eph; try discriminate.
    destruct (module_state t m) eqn:Ems; try discriminate.
    destruct (node_of modules m) as [n|]; try discriminate.
    destruct (DependencyGraph.ready _ _ n); try discriminate.
    destruct (getInitDeps _ _ _ _) as [deps|e]; intros [= <- <-].
    + split; [intros ev; destruct ev; settle|].
      split; [repeat constructor; settle|]. settle.
    + split; [intros ev; destruct ev; settle|].
      split; [constructor|]. settle.
  - unfold settleModule.
    destruct (map_get (t_modules t) m) as [[|[u|cause]| |]|] eqn:Eg;
      try discriminate; apply module_state_get in Eg; intros [= <- <-].
    + split; [intros ev; destruct ev; settle|].
      split; [repeat constructor; settle|]. settle.
    + split; [intros ev; destruct ev; destruct (t_phase t) eqn:Eph; settle|].
      split; [constructor|].
      destruct (t_phase t) eqn:Eph; settle.
  - unfold traversalDone. destruct (t_phase t) eqn:Eph; try discriminate.
    destruct (forallb _ _); try discriminate.
    destruct pluginInit as [pi|].
    + destruct (getInitDeps _ _ _ _) as [deps|e]; intros [= <- <-].
      * split; [intros ev; destruct ev; settle|].
        split; [repeat constructor; settle|]. settle.
      * split; [intros ev; destruct ev; settle|].
        split; [constructor|]. settle.
    + intros [= <- <-].
      split; [intros ev; destruct ev; settle|].
      split; [constructor|]. settle.
  - unfold settlePluginInit.
    destruct (t_phase t) as [|[u|cause]| | | |] eqn:Eph; try discriminate;
      intros [= <- <-].
    + split; [intros ev; destruct ev; settle|].
      split; [repeat constructor; settle|]. settle.
    + split; [intros ev; destruct ev; settle|].
      split; [constructor|]. settle.
  - unfold callStartup. destruct (t_phase t) eqn:Eph; try discriminate.
    destruct (getPluginLifecycleImpl holder (t_pluginId t)) as [h|e] eqn:El;
      intros [= <- <-].
    + split; [intros ev; destruct ev; settle|].
      split; [repeat constructor; settle|]. settle.
    + split; [intros ev; destruct ev; settle|].
      split; [constructor|]. settle.
  - unfold settleStartup. destruct (t_phase t) eqn:Eph; try discriminate.
    destruct (pluginStartupHooks w (t_pluginId t)) as [u|e]; intros [= <- <-].
    + split; [intros ev; destruct ev; settle|].
      split; [repeat constructor; settle|]. settle.
    + split; [intros ev; destruct ev; settle|].
      split; [constructor|]. settle.
Qed.
End LogSteps.

Lemma about_unique p q ev : about p ev -> about q ev -> p = q.
Proof. destruct ev; simpl; try tauto; congruence. Qed.

Lemma fold_set_add_NoDup xs : forall acc,
  NoDup acc -> NoDup (fold_left (set_add String.eqb) xs acc).
Proof.
  induction xs as [|x xs IH]; intros acc Hacc; simpl; [exact Hacc|].
  apply IH. unfold set_add. destruct (set_has String.eqb acc x) eqn:E;
    [exact Hacc|].
  apply NoDup_snoc. split; [exact Hacc|].
  intros Hin. apply set_has_In in Hin. congruence.
Qed.

Lemma allPluginIds_NoDup pluginInits moduleInits :
  NoDup (allPluginIds pluginInits moduleInits).
Proof. apply fold_set_add_NoDup. constructor. Qed.

Lemma unique_task ts : forall t t0,
  NoDup (map t_pluginId ts) -> In t ts -> In t0 ts ->
  t_pluginId t = t_pluginId t0 -> t = t0.
Proof.
  induction ts as [|x ts IH]; intros t t0 Hnd Ht Ht0 Hid; [destruct Ht|].
  simpl in Hnd. inversion Hnd as [|? ? Hx Hnd']; subst.
  destruct Ht as [<-|Ht], Ht0 as [<-|Ht0]; auto.
  - destruct Hx. rewrite Hid. now apply in_map.
  - destruct Hx. rewrite <- Hid. now apply in_map.
Qed.

Lemma In_replace_task t' ts t1 :
  In t1 (replace_task t' ts) ->
  t1 = t' \/ (In t1 ts /\ t_pluginId t1 <> t_pluginId t').
Proof.
  unfold replace_task. rewrite in_map_iff. intros (t & Ht & Hin).
  destruct (String.eqb (t_pluginId t) (t_pluginId t')) eqn:E.
  - now left.
  - right. subst t1. split; [exact Hin|]. now apply String.eqb_neq.
Qed.

Lemma replace_task_In t t' ts :
  In t ts -> t_pluginId t = t_pluginId t' -> In t' (replace_task t' ts).
Proof.
  intros Hin Hid. unfold replace_task. apply in_map_iff. exists t.
  split; [|exact Hin]. now rewrite Hid, String.eqb_refl.
Qed.

Lemma replace_task_other t0 t' ts :
  In t0 ts -> t_pluginId t0 <> t_pluginId t' -> In t0 (replace_task t' ts).
Proof.
  intros Hin Hid. unfold replace_task. apply in_map_iff. exists t0.
  split; [|exact Hin]. apply String.eqb_neq in Hid. now rewrite Hid.
Qed.

Lemma stage_after_settled st t' :
  st <> AwaitPlugins -> stage_after st t' = st.
Proof. unfold stage_after. destruct st; congruence. Qed.

Lemma forallb_PluginDone ts :
  forallb is_PluginDone ts = true ->
  Forall (fun t => t_phase t = PluginDone) ts.
Proof.
  rewrite forallb_forall, Forall_forall. intros H t Hin.
  specialize (H t Hin). unfold is_PluginDone in H.
  now destruct (t_phase t).
Qed.

Lemma reflects_root holder l t ev :
  (forall p, ~ about p ev) -> reflects holder l t -> reflects holder (ev :: l) t.
Proof.
  intros Hev Href ev' [<-|Hin] Hab; [now destruct (Hev _ Hab)|auto].
Qed.

Lemma first_rejection_In ts e :
  first_rejection ts = Some e ->
  exists t, In t ts /\ t_phase t = PluginFailed e.
Proof.
  induction ts as [|x ts IH]; simpl; [discriminate|].
  destruct (t_phase x) eqn:E;
    try (intros H; destruct (IH H) as (t & Hin & Hph); exists t; auto).
  intros [= <-]. exists x. auto.
Qed.

Lemma first_rejection_Some ts t e :
  In t ts -> t_phase t = PluginFailed e ->
  exists e', first_rejection ts = Some e'.
Proof.
  induction ts as [|x ts IH]; simpl; [intros []|].
  intros [<-|Hin] Hph.
  - rewrite Hph. eauto.
  - destruct (t_phase x); eauto.
Qed.

Lemma started_log w defaults fs : log (started w (configured defaults fs)) = [].
Proof.
  unfold started, start. rewrite configured_not_started.
  pose proof (doStart_sequential_keeps
                log w (fun _ _ => eq_refl) (fun _ _ => eq_refl)
                (fun _ _ => eq_refl) (fun _ _ => eq_refl)
                (set_listeners
                   (listeners (configured defaults fs) ++ exitListeners)
                   (configured defaults fs))) as Hk.
  destruct (doStart_sequential w _) as [[[a b]|e] s2]; simpl in *;
    rewrite Hk; apply configured_log.
Qed.

Lemma log_inv_started w defaults fs :
  log_inv w (started w (configured defaults fs)).
Proof.
  assert (Hempty : forall ds,
             startPromise (started w (configured defaults fs)) = Some ds ->
             rejection_explained ds ->
             log_inv w (started w (configured defaults fs))).
  { intros ds Hsp Hrej. exists ds. rewrite started_log.
    split; [exact Hsp|]. split; [apply Forall_forall; intros t _ ev []|].
    split; [split; intros []|]. split; [exact Hrej|].
    split; constructor. }
  destruct (started_cases w _ (configured_not_started defaults fs))
    as [(pluginInits & moduleInits & Hs)|(e & Hs)];
    apply (Hempty _ Hs); unfold rejection_explained; simpl.
  - split.
    + intros t e Hin Hph.
      destruct (first_rejection_Some _ _ _ Hin Hph) as [e' ->]. eauto.
    + intros e.
      destruct (first_rejection _) as [e'|] eqn:Ef; [|discriminate].
      intros [= <-]. left. now apply first_rejection_In.
  - split; [intros t e0 []|]. intros e0 _. right. constructor.
Qed.

Lemma log_inv_exec w defaults fs a s s' :
  reachable w (configured defaults fs) s ->
  log_inv w s -> exec w a s = Some s' -> log_inv w s'.
Proof.
  intros Hr (ds & Hsp & Href & Hst & Hrej & Hnd & Hev) Hex.
  destruct (reachable_run_inv _ _ _ _ _ Hr Hsp)
    as (ds0 & Hsp0 & _ & _ & _ & _ & Hids & Htasks & _ & Hsi & _).
  rewrite Hsp in Hsp0. injection Hsp0 as <-. unfold stage_inv in Hsi.
  assert (Hkinds : forall evs holder t t0,
             Forall (fun ev => about (t_pluginId t) ev
                               /\ ~ allows holder t ev
                               /\ allows holder t0 ev) evs ->
             Forall (fun ev => ev = RootStartupCalled \/ ev = RootStartupDone
                               \/ exists p, about p ev) (evs ++ log s)).
  { intros evs holder t t0 H. apply Forall_app. split; [|exact Hev].
    eapply Forall_impl; [|exact H]. intros ev (Hab & _). eauto. }
  unfold exec in Hex. rewrite Hsp in Hex. destruct a as [p ta| |].
  - (* a task takes a step *)
    destruct (find_task p (ds_tasks ds)) as [t|] eqn:Ef; [|discriminate].
    destruct (exec_task _ _ _ _ _ ta t) as [[t' evs]|] eqn:Ex; [|discriminate].
    injection Hex as <-.
    apply find_task_Some in Ef as [Hin Hid]. subst p.
    pose proof (exec_task_log _ _ _ _ _ _ _ _ _ Ex)
      as (Hmono & Hnew & Hid' & Hfail & Hlen).
    rewrite Forall_forall in Href, Htasks.
    destruct (exec_task_inv _ _ _ _ _ (log s) _ _ _ _ (Htasks _ Hin) Ex)
      as (_ & _ & _ & _ & Hnotdone).
    assert (Hbusy : ~ Forall (fun t => t_phase t = PluginDone) (ds_tasks ds)).
    { intros Hall. rewrite Forall_forall in Hall. auto. }
    rewrite Forall_forall in Hnew.
    eexists. simpl. split; [reflexivity|]. split; [|split; [|split; [|split]]].
    + apply Forall_forall. intros t1 H1.
      apply In_replace_task in H1 as [->|[H1 Hne]]; intros ev Hev1 Hab;
        apply in_app_or in Hev1 as [Hev1|Hev1].
      * now apply Hnew.
      * apply Hmono. apply (Href _ Hin); [exact Hev1|]. now rewrite <- Hid'.
      * destruct Hne. rewrite Hid'.
        destruct (Hnew _ Hev1) as (Hab' & _). eapply about_unique; eauto.
      * now apply (Href _ H1).
    + destruct Hst as [Hcalled Hdone].
      split; intros Hroot; apply in_app_or in Hroot as [Hroot|Hroot].
      * destruct (Hnew _ Hroot) as ([] & _).
      * destruct (Hcalled Hroot) as [Hne Hok].
        rewrite stage_after_settled by exact Hne. auto.
      * destruct (Hnew _ Hroot) as ([] & _).
      * destruct (Hdone Hroot) as [Hhooks Hset]. split; [exact Hhooks|].
        rewrite stage_after_settled; [exact Hset|].
        intros E. now rewrite E in Hset.
    + destruct Hrej as [Hrej1 Hrej2]. split.
      * intros t1 e H1 Hph. apply In_replace_task in H1 as [->|[H1 Hne]].
        -- destruct (ds_stage ds) as [| |[u|e0]] eqn:Est.
           ++ unfold stage_after. rewrite Hph. simpl. eauto.
           ++ destruct Hbusy. apply Hsi.
           ++ destruct Hbusy. apply Hsi.
           ++ unfold stage_after. simpl. eauto.
        -- destruct (Hrej1 _ _ H1 Hph) as [e' Est]. rewrite Est.
           unfold stage_after. simpl. eauto.
      * intros e Hstage. left.
        destruct (ds_stage ds) as [| |r] eqn:Est.
        -- unfold stage_after in Hstage.
           destruct (t_phase t') eqn:Eph; try discriminate.
           injection Hstage as <-. exists t'. split; [|exact Eph].
           eapply replace_task_In; eauto.
        -- discriminate.
        -- unfold stage_after in Hstage. injection Hstage as ->.
           destruct (Hrej2 e eq_refl) as [(t0 & H0 & Hph0)|Hall];
             [|now destruct Hbusy].
           destruct (String.eqb (t_pluginId t0) (t_pluginId t')) eqn:E.
           ++ apply String.eqb_eq in E. rewrite Hid' in E.
              assert (t0 = t).
              { apply (unique_task (ds_tasks ds)); auto.
                rewrite Hids. apply allPluginIds_NoDup. }
              subst t0. exists t'. split; [|auto].
              eapply replace_task_In; eauto.
           ++ apply String.eqb_neq in E. exists t0. split; [|exact Hph0].
              now apply replace_task_other.
    + destruct evs as [|ev [|ev' evs]]; simpl in *; [exact Hnd| |lia].
      constructor; [|exact Hnd]. intros Hold.
      destruct (Hnew ev (or_introl eq_refl)) as (Hab & Hno & _).
      apply Hno. now apply (Href _ Hin).
    + apply (Hkinds evs (serviceHolder s) t t'). now apply Forall_forall.
  - (* every task is done *)
    destruct (ds_stage ds) eqn:Est; try discriminate.
    destruct (forallb is_PluginDone (ds_tasks ds)) eqn:Eall; [|discriminate].
    apply forallb_PluginDone in Eall.
    assert (Hfresh : ~ In RootStartupCalled (log s) /\ ~ In RootStartupDone (log s)).
    { destruct Hst as [Hcalled Hdone]. split; intros H.
      - now destruct (Hcalled H).
      - now destruct (Hdone H). }
    assert (Hrejected : forall e,
               log_inv w (set_startPromise
                            (Some (set_stage (Settled (Err e)) ds)) s)).
    { intros e. eexists. simpl. split; [reflexivity|]. split; [exact Href|].
      split; [split; intros H; now destruct Hfresh|].
      split; [|split; assumption].
      split; [intros; simpl; eauto|]. intros e0 _. now right. }
    destruct (getRootLifecycleImpl (serviceHolder s)) as [h|e] eqn:Eroot.
    + destruct (rootStartup s); injection Hex as <-; try apply Hrejected.
      eexists. simpl. split; [reflexivity|].
      split; [|split; [|split; [|split]]].
      * eapply Forall_impl; [|exact Href]. intros t.
        apply reflects_root. intros p [].
      * split.
        -- intros _. rewrite Eroot. split; [discriminate|reflexivity].
        -- intros [H|H]; [discriminate|now destruct Hfresh].
      * split.
        -- intros t e Hin Hph. rewrite Forall_forall in Eall.
           rewrite (Eall _ Hin) in Hph. discriminate.
        -- discriminate.
      * constructor; [apply Hfresh|exact Hnd].
      * constructor; auto.
    + injection Hex as <-. apply Hrejected.
  - (* the root startup settles *)
    destruct (ds_stage ds) eqn:Est; try discriminate.
    destruct Hsi as [Hall _].
    assert (Hfresh : ~ In RootStartupDone (log s)).
    { intros H. destruct Hst as [_ Hdone]. now destruct (Hdone H). }
    assert (Hexplained : forall r, rejection_explained (set_stage (Settled r) ds)).
    { intros r. split; simpl.
      - intros t e Hin Hph. rewrite Forall_forall in Hall.
        rewrite (Hall _ Hin) in Hph. discriminate.
      - intros e _. now right. }
    destruct (rootStartupHooks w) as [u|e] eqn:Ehooks; injection Hex as <-.
    + assert (Hsettled : forall r ls,
                 log_inv w (set_startPromise
                              (Some (set_stage (Settled r) ds))
                              (set_listeners ls
                                 (emit [RootStartupDone] (set_rootStartup Done s))))).
      { intros r ls. eexists. simpl. split; [reflexivity|].
        split; [|split; [|split; [|split]]].
        - eapply Forall_impl; [|exact Href]. intros t.
          apply reflects_root. intros p [].
        - destruct Hst as [Hcalled _]. split.
          + intros [H|H]; [discriminate|]. destruct (Hcalled H) as [_ Hok].
            split; [discriminate|exact Hok].
          + intros _. rewrite Ehooks. now destruct u.
        - apply Hexplained.
        - constructor; [exact Hfresh|exact Hnd].
        - constructor; auto. }
      unfold installErrorHooks. destruct (test_mode w).
      * destruct (Hsettled (Ok tt) (listeners s)) as (d & Hd & H).
        exists d. split; [exact Hd|exact H].
      * simpl. destruct (holder_get (serviceHolder s) _ _).
        -- destruct (Hsettled (Ok tt) (listeners s ++ errorHooks))
             as (d & Hd & H).
           exists d. split; [exact Hd|exact H].
        -- destruct (Hsettled (Err e) (listeners s)) as (d & Hd & H).
           exists d. split; [exact Hd|exact H].
    + eexists. simpl. split; [reflexivity|]. split; [exact Href|].
      split; [|split; [apply Hexplained|split; assumption]].
      destruct Hst as [Hcalled _]. split.
      * intros H. destruct (Hcalled H) as [_ Hok]. split; [discriminate|exact Hok].
      * intros H. now destruct Hfresh.
Qed.

Lemma log_inv_run w defaults fs actions : forall s s',
  reachable w (configured defaults fs) s ->
  log_inv w s -> run w actions s = Some s' -> log_inv w s'.
Proof.
  induction actions as [|a actions IH]; simpl; intros s s' Hr Hinv.
  - now intros [= <-].
  - destruct (exec w a s) as [s1|] eqn:Ex; [|discriminate].
    apply IH.
    + eapply reachable_step; eauto.
    + eapply log_inv_exec; eauto.
Qed.

Lemma reachable_log_inv w defaults fs s :
  reachable w (configured defaults fs) s -> log_inv w s.
Proof.
  intros [actions Hrun].
  apply (log_inv_run w defaults fs actions (started w (configured defaults fs))).
  - exists []. reflexivity.
  - apply log_inv_started.
  - exact Hrun.
Qed.

(** ** Every call is made once, failures are final *)

(** X8.  In every run of [start()] no initializer and no lifecycle startup
    is called twice, and none is reported done twice: the events of the
    run are pairwise different. *)
Theorem initializers_run_at_most_once w defaults fs s :
  reachable w (configured defaults fs) s -> NoDup (trace s).
Proof.
  intros Hr. destruct (reachable_log_inv _ _ _ _ Hr) as (ds & _ & _ & _ & _ & H & _).
  unfold trace. now apply NoDup_rev.
Qed.

Lemma initializers_run_at_most_once_witness :
  NoDup (trace (after Examples.production Examples.two_plugins_run
                      (configured Examples.defaults Examples.two_plugins))).
Proof.
  apply (initializers_run_at_most_once
           Examples.production Examples.defaults Examples.two_plugins).
  exists Examples.two_plugins_run. vm_compute. reflexivity.
Defined.

Lemma reachable_task w defaults fs s ds p :
  reachable w (configured defaults fs) s ->
  startPromise s = Some ds ->
  In p (allPluginIds (ds_pluginInits ds) (ds_moduleInits ds)) ->
  exists t, In t (ds_tasks ds) /\ t_pluginId t = p.
Proof.
  intros Hr Hsp Hp.
  destruct (reachable_run_inv _ _ _ _ _ Hr Hsp)
    as (ds0 & Hsp0 & _ & _ & _ & _ & Hids & _).
  rewrite Hsp in Hsp0. injection Hsp0 as <-.
  rewrite <- Hids in Hp. apply in_map_iff in Hp as (t & Hid & Hin). eauto.
Qed.

Lemma root_startup_after_plugins w defaults fs s ds p :
  reachable w (configured defaults fs) s ->
  startPromise s = Some ds ->
  In p (allPluginIds (ds_pluginInits ds) (ds_moduleInits ds)) ->
  In RootStartupCalled (log s) ->
  In (PluginStartupDone p) (log s) /\ In (PluginStartupCalled p) (log s).
Proof.
  intros Hr Hsp Hp Hroot.
  pose proof (reachable_ordered _ _ _ _ _ Hr Hsp) as Ho.
  pose proof (logged_justified _ _ _ _ _ _ Ho Hroot) as Hall. simpl in Hall.
  split; [auto|]. apply (logged_justified _ _ _ _ _ _ Ho (Hall p Hp)).
Qed.

(** X11.  When the task of a plugin has thrown (the deps of one of its
    initializers did not resolve, an [init.func] or the startup hooks of
    the plugin rejected, the module graph has a cycle), the promise of
    [start()] is rejected with the error of a task that has thrown; the
    startup of that plugin is never reported done and the root lifecycle
    startup is never called. *)
Theorem failed_plugin_rejects_start w defaults fs s ds t e :
  reachable w (configured defaults fs) s ->
  startPromise s = Some ds ->
  In t (ds_tasks ds) ->
  t_phase t = PluginFailed e ->
  (exists t' e',
      In t' (ds_tasks ds) /\ t_phase t' = PluginFailed e'
      /\ startOutcome s = Some (Err e'))
  /\ ~ In (PluginStartupDone (t_pluginId t)) (trace s)
  /\ ~ In RootStartupCalled (trace s).
Proof.
  intros Hr Hsp Hin Hph.
  destruct (reachable_log_inv _ _ _ _ Hr)
    as (ds0 & Hsp0 & Href & _ & [Hrej1 Hrej2] & _).
  rewrite Hsp in Hsp0. injection Hsp0 as <-.
  rewrite Forall_forall in Href.
  assert (Hdone : ~ In (PluginStartupDone (t_pluginId t)) (log s)).
  { intros H. pose proof (Href _ Hin _ H eq_refl) as Ha. simpl in Ha.
    congruence. }
  split; [|split].
  - destruct (Hrej1 _ _ Hin Hph) as [e' Est].
    destruct (Hrej2 _ Est) as [(t' & Hin' & Hph')|Hall].
    + exists t', e'. unfold startOutcome. rewrite Hsp, Est. auto.
    + rewrite Forall_forall in Hall. rewrite (Hall _ Hin) in Hph. discriminate.
  - now rewrite in_trace.
  - rewrite in_trace. intros Hroot. apply Hdone.
    apply (root_startup_after_plugins _ _ _ _ _ _ Hr Hsp); [|exact Hroot].
    destruct (reachable_run_inv _ _ _ _ _ Hr Hsp)
      as (ds0 & Hsp0 & _ & _ & _ & _ & Hids & _).
    rewrite Hsp in Hsp0. injection Hsp0 as <-.
    rewrite <- Hids. now apply in_map.
Qed.

Lemma failed_plugin_rejects_start_witness :
  let s := after Examples.production module_failure_run
                 (configured Examples.defaults
                             Examples.cross_plugin_init_after_failure) in
  startOutcome s
  = Some (Err (ModuleStartupFailed "M0" "B" (JsError "boom")))
  /\ ~ In RootStartupCalled (trace s).
Proof.
  intros s.
  assert (Hr : reachable Examples.production
                 (configured Examples.defaults
                             Examples.cross_plugin_init_after_failure) s)
    by (exists module_failure_run; vm_compute; reflexivity).
  assert (Hsp : startPromise s = Some (final_DoStart s))
    by (vm_compute; reflexivity).
  assert (Hin : In (task_of s "B") (ds_tasks (final_DoStart s)))
    by (vm_compute; right; left; reflexivity).
  assert (Hph : t_phase (task_of s "B")
                = PluginFailed (ModuleStartupFailed "M0" "B" (JsError "boom")))
    by (vm_compute; reflexivity).
  destruct (failed_plugin_rejects_start _ _ _ _ _ _ _ Hr Hsp Hin Hph)
    as (_ & _ & Hroot).
  split; [vm_compute; reflexivity|exact Hroot].
Defined.

(** ** The lifecycle services *)

(** X13.  When the lifecycle service of a plugin cannot be fetched or is
    not a [BackendPluginLifecycleImpl], the startup of that plugin is never
    called, the root lifecycle startup is never called and [start()] does
    not resolve; the task of the plugin throws when it gets there, and
    rejects a [start()] that is still pending with that error. *)
Theorem unexpected_plugin_lifecycle_blocks_startup w defaults fs s ds p e :
  reachable w (configured defaults fs) s ->
  startPromise s = Some ds ->
  In p (allPluginIds (ds_pluginInits ds) (ds_moduleInits ds)) ->
  getPluginLifecycleImpl (serviceHolder s) p = Err e ->
  ~ In (PluginStartupCalled p) (trace s)
  /\ ~ In RootStartupCalled (trace s)
  /\ startOutcome s <> Some (Ok tt)
  /\ (forall s',
         ds_stage ds = AwaitPlugins ->
         exec w (TaskStep p CallStartup) s = Some s' ->
         startOutcome s' = Some (Err e)).
Proof.
  intros Hr Hsp Hp Hlife.
  destruct (reachable_log_inv _ _ _ _ Hr) as (ds0 & Hsp0 & Href & _).
  rewrite Hsp in Hsp0. injection Hsp0 as <-.
  rewrite Forall_forall in Href.
  destruct (reachable_task _ _ _ _ _ _ Hr Hsp Hp) as (t & Hin & Hid).
  assert (Hcalled : ~ In (PluginStartupCalled p) (log s)).
  { intros H. subst p. pose proof (Href _ Hin _ H eq_refl) as [Hok _].
    rewrite Hlife in Hok. discriminate. }
  split; [now rewrite in_trace|]. split; [|split].
  - rewrite in_trace. intros Hroot. apply Hcalled.
    apply (root_startup_after_plugins _ _ _ _ _ _ Hr Hsp Hp Hroot).
  - intros Hout. apply Hcalled.
    apply (startup_done_after _ _ _ _ _ _ Hr Hsp).
    apply (resolved_plugins_done _ _ _ _ _ _ Hr Hsp Hout Hp).
  - intros s' Hstage. unfold exec. rewrite Hsp.
    destruct (find_task p (ds_tasks ds)) as [t0|] eqn:Ef; [|discriminate].
    apply find_task_Some in Ef as [_ Hid0]. simpl. unfold callStartup.
    destruct (t_phase t0); try discriminate.
    rewrite Hid0, Hlife. intros [= <-].
    unfold startOutcome. simpl. now rewrite Hstage.
Qed.

Lemma unexpected_plugin_lifecycle_blocks_startup_witness :
  let s := after Examples.production until_plugin_startup
                 (configured custom_plugin_lifecycle Examples.module_only) in
  startOutcome s = Some (Err UnexpectedPluginLifecycle)
  /\ ~ In (PluginStartupCalled "P") (trace s).
Proof.
  intros s.
  assert (Hr : reachable Examples.production
                 (configured custom_plugin_lifecycle Examples.module_only) s)
    by (exists until_plugin_startup; vm_compute; reflexivity).
  assert (Hsp : startPromise s = Some (final_DoStart s))
    by (vm_compute; reflexivity).
  destruct (unexpected_plugin_lifecycle_blocks_startup
              _ _ _ _ _ "P" UnexpectedPluginLifecycle Hr Hsp)
    as (Hcalled & _).
  - vm_compute. left. reflexivity.
  - vm_compute. reflexivity.
  - split; [vm_compute; reflexivity|exact Hcalled].
Defined.

(** X14.  When the root lifecycle service cannot be fetched or is not a
    [BackendLifecycleImpl], the root lifecycle startup is never called and
    [start()] does not resolve: once every plugin has started, [#doStart]
    throws the error of the fetch, and nothing else happens. *)
Theorem unexpected_root_lifecycle_blocks_startup w defaults fs s ds e :
  reachable w (configured defaults fs) s ->
  startPromise s = Some ds ->
  getRootLifecycleImpl (serviceHolder s) = Err e ->
  ~ In RootStartupCalled (trace s)
  /\ startOutcome s <> Some (Ok tt)
  /\ (forall s',
         exec w PluginsSettled s = Some s' ->
         startOutcome s' = Some (Err e) /\ trace s' = trace s).
Proof.
  intros Hr Hsp Hroot.
  destruct (reachable_log_inv _ _ _ _ Hr) as (ds0 & Hsp0 & _ & [Hcalled _] & _).
  rewrite Hsp in Hsp0. injection Hsp0 as <-.
  assert (Hnot : ~ In RootStartupCalled (log s)).
  { intros H. destruct (Hcalled H) as [_ Hok]. rewrite Hroot in Hok.
    discriminate. }
  split; [now rewrite in_trace|]. split.
  - intros Hout. apply Hnot.
    destruct (reachable_run_inv _ _ _ _ _ Hr Hsp)
      as (ds0 & Hsp0 & _ & _ & _ & _ & _ & _ & Ho & Hsi & _).
    rewrite Hsp in Hsp0. injection Hsp0 as <-.
    unfold startOutcome in Hout. rewrite Hsp in Hout.
    unfold stage_inv in Hsi.
    destruct (ds_stage ds) as [| |[u|e0]]; try discriminate.
    destruct Hsi as [_ Hdone].
    apply (logged_justified _ _ _ _ _ _ Ho Hdone).
  - intros s'. unfold exec. rewrite Hsp.
    destruct (ds_stage ds); try discriminate.
    destruct (forallb is_PluginDone (ds_tasks ds)); [|discriminate].
    rewrite Hroot. intros [= <-]. split; reflexivity.
Qed.

Lemma unexpected_root_lifecycle_blocks_startup_witness :
  let s := after Examples.production until_root_startup
                 (configured custom_root_lifecycle Examples.module_only) in
  startOutcome s = Some (Err UnexpectedRootLifecycle)
  /\ ~ In RootStartupCalled (trace s).
Proof.
  intros s.
  assert (Hr : reachable Examples.production
                 (configured custom_root_lifecycle Examples.module_only) s)
    by (exists until_root_startup; vm_compute; reflexivity).
  assert (Hsp : startPromise s = Some (final_DoStart s))
    by (vm_compute; reflexivity).
  destruct (unexpected_root_lifecycle_blocks_startup
              _ _ _ _ _ UnexpectedRootLifecycle Hr Hsp)
    as (Hcalled & _).
  - vm_compute. reflexivity.
  - split; [vm_compute; reflexivity|exact Hcalled].
Defined.

(** ** A start that resolved *)

Lemma final_DoStart_fields {X} (f : DoStart -> X) s s' :
  option_map f (startPromise s') = option_map f (startPromise s) ->
  f (final_DoStart s') = f (final_DoStart s).
Proof.
  unfold final_DoStart.
  destruct (startPromise s'), (startPromise s); simpl; congruence.
Qed.

Lemma waiting_modules (modules : list (string * BackendRegisterInit)) m st :
  map_get (map (fun m => (fst m, Waiting)) modules) m = Some st -> st = Waiting.
Proof.
  induction modules as [|[k v] modules IH]; simpl; [discriminate|].
  destruct (String.eqb k m); [congruence|exact IH].
Qed.

Lemma map_get_set (V : Type) (m : list (string * V)) k v k' :
  map_get (map_set m k v) k'
  = if String.eqb k k' then Some v else map_get m k'.
Proof.
  destruct (String.eqb k k') eqn:E.
  - apply String.eqb_eq in E. subst. apply map_get_set_eq.
  - apply String.eqb_neq in E. now apply map_get_set_ne.
Qed.

Lemma went_well_step w s ds l t ta t' evs :
  startPromise s = Some ds ->
  went_well w s l t ->
  exec_task w (extensionPoints s) (serviceHolder s)
            (map_get (ds_pluginInits ds) (t_pluginId t))
            (modules_of (ds_moduleInits ds) (t_pluginId t)) ta t
  = Some (t', evs) ->
  went_well w s (evs ++ l) t'.
Proof.
  intros Hsp (Hfly & Hdone & Hph).
  assert (Hds : final_DoStart s = ds) by (unfold final_DoStart; now rewrite Hsp).
  unfold went_well. rewrite Hds in *.
  assert (Hmods : forall m st,
             (forall r, st = InFlight r ->
                        exists mi,
                          map_get (modules_of (ds_moduleInits ds) (t_pluginId t)) m
                          = Some mi
                          /\ init_settles s (t_pluginId t) mi r) ->
             (st = Completed ->
              exists mi,
                map_get (modules_of (ds_moduleInits ds) (t_pluginId t)) m = Some mi
                /\ init_resolves s (t_pluginId t) mi) ->
             (forall m0 r,
                 map_get (map_set (t_modules t) m st) m0 = Some (InFlight r) ->
                 exists mi,
                   map_get (modules_of (ds_moduleInits ds) (t_pluginId t)) m0
                   = Some mi
                   /\ init_settles s (t_pluginId t) mi r)
             /\ (forall m0,
                    map_get (map_set (t_modules t) m st) m0 = Some Completed ->
                    exists mi,
                      map_get (modules_of (ds_moduleInits ds) (t_pluginId t)) m0
                      = Some mi
                      /\ init_resolves s (t_pluginId t) mi)).
  { intros m st H1 H2. split.
    - intros m0 r. rewrite map_get_set.
      destruct (String.eqb m m0) eqn:E; [|apply Hfly].
      apply String.eqb_eq in E. subst m0. intros [= ->]. now apply H1.
    - intros m0. rewrite map_get_set.
      destruct (String.eqb m m0) eqn:E; [|apply Hdone].
      apply String.eqb_eq in E. subst m0. intros [= ->]. now apply H2. }
  destruct ta as [m|m| | | |]; simpl.
  - unfold visitModule. destruct (t_phase t) eqn:Eph; try discriminate.
    destruct (module_state t m); try discriminate.
    destruct (node_of _ m) as [n|] eqn:En; try discriminate.
    destruct (DependencyGraph.ready _ _ n); try discriminate.
    apply node_of_map_get in En.
    destruct (getInitDeps _ _ _ _) as [deps|e] eqn:Eg; intros [= <- <-]; simpl.
    + rewrite Eph.
      destruct (Hmods m (InFlight (init_func (init (snd (DependencyGraph.value n)))
                                             deps))) as [H1 H2];
        [|discriminate|auto].
      intros r [= <-]. eexists. split; [exact En|]. exists deps. auto.
    + destruct (Hmods m Failed) as [H1 H2]; [discriminate|discriminate|auto].
  - unfold settleModule.
    destruct (map_get (t_modules t) m) as [[|[u|cause]| |]|] eqn:Eg;
      try discriminate; intros [= <- <-].
    + simpl. destruct (Hmods m Completed) as [H1 H2]; [discriminate| |auto].
      intros _. destruct (Hfly _ _ Eg) as (mi & Hmi & Hs). exists mi.
      split; [exact Hmi|]. now destruct u.
    + destruct (Hmods m Failed) as [H1 H2]; [discriminate|discriminate|].
      destruct (is_InModules (t_phase t)); simpl; auto.
  - unfold traversalDone. destruct (t_phase t) eqn:Eph; try discriminate.
    destruct (forallb _ _); try discriminate.
    destruct (map_get (ds_pluginInits ds) (t_pluginId t)) as [pi|] eqn:Epi.
    + destruct (getInitDeps _ _ _ _) as [deps|e] eqn:Eg; intros [= <- <-];
        simpl; [|auto].
      split; [exact Hfly|]. split; [exact Hdone|].
      exists pi. split; [exact Epi|]. exists deps. auto.
    + intros [= <- <-]. simpl. split; [exact Hfly|]. split; [exact Hdone|].
      intros pi Hpi. rewrite Epi in Hpi. discriminate.
  - unfold settlePluginInit.
    destruct (t_phase t) as [|[u|cause]| | | |] eqn:Eph; try discriminate;
      intros [= <- <-]; simpl; [|auto].
    split; [exact Hfly|]. split; [exact Hdone|].
    destruct Hph as (pi0 & Hpi0 & Hs). intros pi Hpi.
    rewrite Hpi0 in Hpi. injection Hpi as <-. now destruct u.
  - unfold callStartup. destruct (t_phase t) eqn:Eph; try discriminate.
    destruct (getPluginLifecycleImpl _ _) as [h|e] eqn:El; intros [= <- <-];
      simpl; [|auto].
    rewrite El. auto.
  - unfold settleStartup. destruct (t_phase t) eqn:Eph; try discriminate.
    destruct (pluginStartupHooks w _) as [u|e] eqn:Eh; intros [= <- <-];
      simpl; [|auto].
    destruct Hph as [Hpi Hok]. rewrite Eh. destruct u. auto.
Qed.

Lemma reachable_went_well w defaults fs s ds :
  reachable w (configured defaults fs) s ->
  startPromise s = Some ds ->
  Forall (went_well w s (log s)) (ds_tasks ds).
Proof.
  apply (task_property_reachable w defaults fs (went_well w)).
  - intros pluginInits moduleInits p _. unfold went_well, spawnTask. simpl.
    split; [|split].
    + intros m r H. apply waiting_modules in H. discriminate.
    + intros m H. apply waiting_modules in H. discriminate.
    + now destruct (DependencyGraph.detectCircularDependency _).
  - intros s0 s1 l t Hep Hh Hpi Hmi. unfold went_well, init_resolves, init_settles.
    rewrite (final_DoStart_fields ds_pluginInits _ _ Hpi),
      (final_DoStart_fields ds_moduleInits _ _ Hmi), Hep, Hh. auto.
  - intros s0 l evs t H. exact H.
  - intros s0 ds0 l t ta t' evs Hsp _. now apply went_well_step.
Qed.

(** X9.  When [start()] has resolved, every initializer has been called
    and has completed: for every plugin id, the [init.func] of each of its
    modules and of the plugin itself if it is registered, and the startup
    of its lifecycle; then the startup of the root lifecycle. *)
Theorem resolved_start_ran_everything w defaults fs s ds :
  reachable w (configured defaults fs) s ->
  startPromise s = Some ds ->
  startOutcome s = Some (Ok tt) ->
  (forall p,
      In p (allPluginIds (ds_pluginInits ds) (ds_moduleInits ds)) ->
      (forall m, In m (module_ids (ds_moduleInits ds) p) ->
                 In (ModuleInitCalled p m) (trace s)
                 /\ In (ModuleInitDone p m) (trace s))
      /\ (map_has (ds_pluginInits ds) p = true ->
          In (PluginInitCalled p) (trace s) /\ In (PluginInitDone p) (trace s))
      /\ In (PluginStartupCalled p) (trace s)
      /\ In (PluginStartupDone p) (trace s))
  /\ In RootStartupCalled (trace s)
  /\ In RootStartupDone (trace s).
Proof.
  intros Hr Hsp Hout. split.
  - intros p Hp.
    pose proof (resolved_plugins_done _ _ _ _ _ _ Hr Hsp Hout Hp) as Hdone.
    destruct (startup_done_after _ _ _ _ _ _ Hr Hsp Hdone)
      as (Hcalled & Hmods & Hinit).
    split; [|split; [|split]]; rewrite ?in_trace; auto.
    + intros m Hm. rewrite ?in_trace. destruct (Hmods m Hm). auto.
    + intros Hhas. rewrite ?in_trace. destruct (Hinit Hhas). auto.
  - destruct (reachable_run_inv _ _ _ _ _ Hr Hsp)
      as (ds0 & Hsp0 & _ & _ & _ & _ & _ & _ & Ho & Hsi & _).
    rewrite Hsp in Hsp0. injection Hsp0 as <-.
    unfold startOutcome in Hout. rewrite Hsp in Hout.
    unfold stage_inv in Hsi.
    destruct (ds_stage ds) as [| |[u|e0]]; try discriminate.
    destruct Hsi as [_ Hdone]. rewrite !in_trace. split; [|exact Hdone].
    apply (logged_justified _ _ _ _ _ _ Ho Hdone).
Qed.

Lemma resolved_start_ran_everything_witness :
  let s := after Examples.production Examples.two_plugins_run
                 (configured Examples.defaults Examples.two_plugins) in
  In (ModuleInitDone "B" "B1") (trace s)
  /\ In (PluginInitDone "A") (trace s)
  /\ In RootStartupDone (trace s).
Proof.
  intros s.
  assert (Hr : reachable Examples.production
                         (configured Examples.defaults Examples.two_plugins) s)
    by (exists Examples.two_plugins_run; vm_compute; reflexivity).
  assert (Hsp : startPromise s = Some (final_DoStart s))
    by (vm_compute; reflexivity).
  assert (Hout : startOutcome s = Some (Ok tt)) by (vm_compute; reflexivity).
  destruct (resolved_start_ran_everything _ _ _ _ _ Hr Hsp Hout)
    as (Hplugins & _ & Hroot).
  split; [|split; [|exact Hroot]].
  - assert (HB : In "B" (allPluginIds (ds_pluginInits (final_DoStart s))
                                      (ds_moduleInits (final_DoStart s))))
      by (vm_compute; right; left; reflexivity).
    destruct (Hplugins "B" HB) as (Hmods & _).
    apply Hmods. vm_compute. left. reflexivity.
  - assert (HA : In "A" (allPluginIds (ds_pluginInits (final_DoStart s))
                                      (ds_moduleInits (final_DoStart s))))
      by (vm_compute; left; reflexivity).
    destruct (Hplugins "A" HA) as (_ & Hinit & _).
    apply Hinit. vm_compute. reflexivity.
Defined.

(** X10.  [start()] resolves only if nothing went wrong: the deps of
    every module and plugin initializer resolved and its [init.func]
    resolved, the lifecycle service of every plugin is the expected
    implementation and its startup hooks succeeded, and so for the root
    lifecycle. *)
Theorem resolved_start_had_no_failure w defaults fs s ds :
  reachable w (configured defaults fs) s ->
  startPromise s = Some ds ->
  startOutcome s = Some (Ok tt) ->
  (forall p m mi,
      In (m, mi) (modules_of (ds_moduleInits ds) p) -> init_resolves s p mi)
  /\ (forall p pi,
         map_get (ds_pluginInits ds) p = Some pi -> init_resolves s p pi)
  /\ (forall p,
         In p (allPluginIds (ds_pluginInits ds) (ds_moduleInits ds)) ->
         is_ok (getPluginLifecycleImpl (serviceHolder s) p) = true
         /\ pluginStartupHooks w p = Ok tt)
  /\ is_ok (getRootLifecycleImpl (serviceHolder s)) = true
  /\ rootStartupHooks w = Ok tt.
Proof.
  intros Hr Hsp Hout.
  pose proof (reachable_went_well _ _ _ _ _ Hr Hsp) as Hwell.
  destruct (reachable_run_inv _ _ _ _ _ Hr Hsp)
    as (ds0 & Hsp0 & _ & _ & _ & _ & Hids & Htasks & Ho & Hsi & _).
  rewrite Hsp in Hsp0. injection Hsp0 as <-.
  assert (Hds : final_DoStart s = ds) by (unfold final_DoStart; now rewrite Hsp).
  unfold startOutcome in Hout. rewrite Hsp in Hout. unfold stage_inv in Hsi.
  destruct (ds_stage ds) as [| |[u|e0]]; try discriminate.
  destruct Hsi as [Hall Hroot].
  rewrite Forall_forall in Hwell, Htasks, Hall.
  assert (Htask : forall p,
             In p (allPluginIds (ds_pluginInits ds) (ds_moduleInits ds)) ->
             exists t, In t (ds_tasks ds) /\ t_pluginId t = p
                       /\ t_phase t = PluginDone).
  { intros p Hp. destruct (reachable_task _ _ _ _ _ _ Hr Hsp Hp) as (t & Hin & Hid).
    exists t. auto. }
  split; [|split; [|split]].
  - intros p m mi Hin.
    assert (Hnd : NoDup (map fst (modules_of (ds_moduleInits ds) p)))
      by apply (reachable_distinct _ _ _ _ _ p Hr Hsp).
    pose proof (NoDup_map_get _ _ _ _ Hnd Hin) as Hget.
    assert (Hp : In p (allPluginIds (ds_pluginInits ds) (ds_moduleInits ds))).
    { apply allPluginIds_In. right. eapply modules_of_In; eauto. }
    destruct (Htask p Hp) as (t & Ht & Hid & Hph). subst p.
    destruct (Htasks _ Ht) as (Hkeys & _ & Hinv). rewrite Hph in Hinv.
    destruct Hinv as [Hcompleted _].
    assert (Hm : In m (map fst (t_modules t))).
    { rewrite Hkeys. unfold module_ids. apply in_map_iff. now exists (m, mi). }
    destruct (map_get_in_keys _ _ _ Hm) as [st Hst].
    pose proof (all_completed_In _ _ _ Hcompleted (map_get_In _ _ _ _ Hst)).
    subst st. destruct (Hwell _ Ht) as (_ & Hdone & _).
    destruct (Hdone _ Hst) as (mi' & Hmi' & Hres). rewrite Hds in Hmi'.
    rewrite Hget in Hmi'. now injection Hmi' as <-.
  - intros p pi Hpi.
    assert (Hp : In p (allPluginIds (ds_pluginInits ds) (ds_moduleInits ds))).
    { apply allPluginIds_In. left. apply map_get_In in Hpi.
      apply in_map_iff. now exists (p, pi). }
    destruct (Htask p Hp) as (t & Ht & Hid & Hph). subst p.
    destruct (Hwell _ Ht) as (_ & _ & Hphase). rewrite Hph in Hphase.
    destruct Hphase as (Hres & _). apply Hres. now rewrite Hds.
  - intros p Hp. destruct (Htask p Hp) as (t & Ht & Hid & Hph). subst p.
    destruct (Hwell _ Ht) as (_ & _ & Hphase). rewrite Hph in Hphase.
    destruct Hphase as (_ & Hok & Hhooks). auto.
  - destruct (reachable_log_inv _ _ _ _ Hr)
      as (ds0 & Hsp0 & _ & [Hcalled Hdone] & _).
    destruct (Hdone Hroot) as [Hhooks _]. split; [|exact Hhooks].
    apply Hcalled. apply (logged_justified _ _ _ _ _ _ Ho Hroot).
Qed.

Lemma resolved_start_had_no_failure_witness :
  let s := after Examples.production Examples.two_plugins_run
                 (configured Examples.defaults Examples.two_plugins) in
  init_resolves s "B" (module_init s "B" "B2")
  /\ is_ok (getRootLifecycleImpl (serviceHolder s)) = true.
Proof.
  intros s.
  assert (Hr : reachable Examples.production
                         (configured Examples.defaults Examples.two_plugins) s)
    by (exists Examples.two_plugins_run; vm_compute; reflexivity).
  assert (Hsp : startPromise s = Some (final_DoStart s))
    by (vm_compute; reflexivity).
  assert (Hout : startOutcome s = Some (Ok tt)) by (vm_compute; reflexivity).
  destruct (resolved_start_had_no_failure _ _ _ _ _ Hr Hsp Hout)
    as (Hmods & _ & _ & Hroot & _).
  split; [|exact Hroot].
  apply (Hmods "B" "B2"). vm_compute. right. left. reflexivity.
Defined.

(** ** [#getInitDeps]: what is bound *)

Section GetInitDepsBinds.
Variable eps : list (string * (JsValue * string)).
Variable holder : option ServiceRegistry.t.
Variable pluginId : string.

Lemma loop_keeps_missing deps : forall bound missing bound' missing',
  getInitDeps_loop eps holder pluginId deps bound missing = Ok (bound', missing') ->
  missing <> [] -> missing' <> [].
Proof.
  induction deps as [|[name ref] deps IH]; intros bound missing bound' missing';
    simpl.
  - now intros [= _ <-].
  - destruct (map_get eps (ref_id ref)) as [[impl owner]|].
    + destruct (negb _); [discriminate|]. apply IH.
    + destruct (holder_get holder ref pluginId) as [impl|e]; [|discriminate].
      destruct (truthy impl); [apply IH|].
      intros H Hm. apply (IH _ _ _ _ H). unfold set_add.
      destruct (set_has Ref_eqb missing ref); [exact Hm|].
      now destruct missing.
Qed.

Lemma loop_binds deps : forall bound missing,
  (forall name ref, In (name, ref) deps ->
                    dep_value eps holder pluginId ref <> None) ->
  getInitDeps_loop eps holder pluginId deps bound missing
  = Ok (fold_left (fun b (d : string * Ref) =>
                     map_set b (fst d) (bound_value eps holder pluginId (snd d)))
                  deps bound,
        missing).
Proof.
  induction deps as [|[name ref] deps IH]; intros bound missing Hall; simpl.
  - reflexivity.
  - assert (Hhd : dep_value eps holder pluginId ref <> None)
      by (apply (Hall name); now left).
    assert (Htl : forall n r, In (n, r) deps ->
                              dep_value eps holder pluginId r <> None)
      by (intros n r Hin; apply (Hall n); now right).
    unfold bound_value. unfold dep_value in *.
    destruct (map_get eps (ref_id ref)) as [[impl owner]|].
    + destruct (String.eqb owner pluginId); [|congruence]. simpl.
      now apply IH.
    + destruct (holder_get holder ref pluginId) as [impl|e]; [|congruence].
      destruct (truthy impl); [|congruence]. now apply IH.
Qed.

Lemma loop_unbound deps : forall bound missing name ref,
  In (name, ref) deps -> dep_value eps holder pluginId ref = None ->
  match getInitDeps_loop eps holder pluginId deps bound missing with
  | Ok (_, missing') => missing' <> []
  | Err _ => True
  end.
Proof.
  induction deps as [|[n r] deps IH]; intros bound missing name ref Hin Hnone;
    [destruct Hin|].
  simpl. destruct Hin as [[= -> ->]|Hin].
  - unfold dep_value in Hnone.
    destruct (map_get eps (ref_id ref)) as [[impl owner]|].
    + destruct (String.eqb owner pluginId); [discriminate|]. exact I.
    + destruct (holder_get holder ref pluginId) as [impl|e]; [|exact I].
      destruct (truthy impl); [discriminate|].
      destruct (getInitDeps_loop _ _ _ deps _ _) as [[b' m']|e] eqn:E;
        [|exact I].
      apply (loop_keeps_missing _ _ _ _ _ E). unfold set_add.
      destruct (set_has Ref_eqb missing ref) eqn:Eh.
      * intros ->. discriminate.
      * now destruct missing.
  - destruct (map_get eps (ref_id r)) as [[impl owner]|].
    + destruct (negb _); [exact I|]. now apply (IH _ _ name ref).
    + destruct (holder_get holder r pluginId) as [impl|e]; [|exact I].
      destruct (truthy impl); now apply (IH _ _ name ref).
Qed.

Lemma fold_map_set_fresh (deps : list (string * Ref)) (f : Ref -> JsValue) :
  forall bound,
  NoDup (map fst bound ++ map fst deps) ->
  fold_left (fun b (d : string * Ref) => map_set b (fst d) (f (snd d))) deps bound
  = bound ++ map (fun d => (fst d, f (snd d))) deps.
Proof.
  induction deps as [|[n r] deps IH]; intros bound Hnd; simpl.
  - now rewrite app_nil_r.
  - simpl in Hnd.
    assert (Hfresh : map_has bound n = false).
    { apply map_has_notin. intros Hin. apply NoDup_remove_2 in Hnd.
      apply Hnd. apply in_or_app. now left. }
    rewrite map_set_fresh by exact Hfresh. rewrite IH.
    + now rewrite <- app_assoc.
    + rewrite map_app. simpl. rewrite <- app_assoc. exact Hnd.
Qed.
End GetInitDepsBinds.

(** X17.  The deps of an initializer resolve exactly when every ref is an
    extension point registered for the plugin itself or else a service of
    which the service holder has a truthy implementation. *)
Theorem getInitDeps_succeeds_iff_bound eps holder deps pluginId :
  is_ok (getInitDeps eps holder deps pluginId) = true
  <-> forall name ref, In (name, ref) deps ->
                       dep_value eps holder pluginId ref <> None.
Proof.
  unfold getInitDeps. split.
  - intros Hok name ref Hin Hnone.
    pose proof (loop_unbound eps holder pluginId deps [] [] name ref Hin Hnone)
      as H.
    destruct (getInitDeps_loop _ _ _ deps [] []) as [[b m]|e]; [|discriminate].
    destruct m; [now destruct H|discriminate].
  - intros Hall. now rewrite (loop_binds eps holder pluginId deps [] [] Hall).
Qed.

(** X18.  When the deps of an initializer resolve, the object given to
    [init.func] has the names of the deps, in their order, each bound to
    the implementation of its ref: of the extension point when the ref is
    one, of the service otherwise. *)
Theorem getInitDeps_binds_every_dep eps holder deps pluginId bound :
  NoDup (map fst deps) ->
  getInitDeps eps holder deps pluginId = Ok bound ->
  Forall2 (fun (d : string * Ref) (b : string * JsValue) =>
             fst b = fst d
             /\ dep_value eps holder pluginId (snd d) = Some (snd b))
          deps bound.
Proof.
  intros Hnd Hok.
  assert (Hall : forall name ref, In (name, ref) deps ->
                                  dep_value eps holder pluginId ref <> None).
  { intros name ref Hin Hnone.
    pose proof (loop_unbound eps holder pluginId deps [] [] name ref Hin Hnone)
      as H.
    unfold getInitDeps in Hok.
    destruct (getInitDeps_loop _ _ _ deps [] []) as [[b m]|e]; [|discriminate].
    destruct m; [now destruct H|discriminate]. }
  unfold getInitDeps in Hok.
  rewrite (loop_binds eps holder pluginId deps [] [] Hall) in Hok.
  simpl in Hok. injection Hok as <-.
  rewrite fold_map_set_fresh by exact Hnd. simpl.
  clear Hnd. induction deps as [|[n r] deps IH]; simpl; constructor.
  - simpl. split; [reflexivity|]. unfold bound_value.
    destruct (dep_value eps holder pluginId r) eqn:E; [reflexivity|].
    destruct (Hall n r (or_introl eq_refl) E).
  - apply IH. intros name ref Hin. apply (Hall name). now right.
Qed.

Lemma getInitDeps_succeeds_iff_bound_witness :
  dep_value Examples.table Examples.holder "A" (Examples.extensionPoint "ExtA")
  <> None
  /\ is_ok (getInitDeps Examples.table Examples.holder
                        Examples.unknown_then_foreign "B") = false.
Proof.
  split.
  - apply (proj1 (getInitDeps_succeeds_iff_bound
                    Examples.table Examples.holder
                    [("ext", Examples.extensionPoint "ExtA");
                     ("life", coreServices.lifecycle)] "A"))
      with (name := "ext").
    + vm_compute. reflexivity.
    + left. reflexivity.
  - destruct (is_ok (getInitDeps Examples.table Examples.holder
                                 Examples.unknown_then_foreign "B")) eqn:E;
      [|reflexivity].
    apply (proj1 (getInitDeps_succeeds_iff_bound
                    Examples.table Examples.holder
                    Examples.unknown_then_foreign "B")) with
      (name := "svc") (ref := Examples.serviceRef "unknown") in E.
    + destruct E. vm_compute. reflexivity.
    + left. reflexivity.
Defined.

Lemma getInitDeps_binds_every_dep_witness :
  Forall2 (fun (d : string * Ref) (b : string * JsValue) =>
             fst b = fst d
             /\ dep_value Examples.table Examples.holder "A" (snd d)
                = Some (snd b))
          [("ext", Examples.extensionPoint "ExtA");
           ("life", coreServices.lifecycle)]
          [("ext", Examples.impl 20);
           ("life", JObject BackendPluginLifecycleImpl 2)].
Proof.
  apply (getInitDeps_binds_every_dep Examples.table Examples.holder).
  - repeat constructor; simpl; intuition discriminate.
  - vm_compute. reflexivity.
Defined.

(** X19.  A service for which the service holder has a falsy
    implementation ([null], [false], [0], the empty string) is treated as if
    there were none: it is listed in the error of the missing refs. *)
Theorem falsy_service_reported_missing eps holder deps pluginId name ref impl :
  (forall n r, In (n, r) deps -> passes eps holder pluginId r) ->
  In (name, ref) deps ->
  map_get eps (ref_id ref) = None ->
  holder_get holder ref pluginId = Ok impl ->
  truthy impl = false ->
  exists missing,
    getInitDeps eps holder deps pluginId = Err (UnresolvedDependencies missing)
    /\ In ref missing.
Proof.
  intros Hpass Hin Hep Hget Hfalsy.
  destruct (loop_without_abort eps holder pluginId deps [] [] Hpass)
    as [bound' Hloop].
  set (missing := fold_left (set_add Ref_eqb)
                            (filter (is_missing eps holder pluginId) (map snd deps))
                            []) in *.
  assert (Hmiss : In ref missing).
  { unfold missing. apply fold_set_add_In. right. apply filter_In. split.
    - apply in_map_iff. now exists (name, ref).
    - unfold is_missing. now rewrite Hep, Hget, Hfalsy. }
  exists missing. split; [|exact Hmiss].
  unfold getInitDeps. rewrite Hloop.
  destruct missing; [destruct Hmiss|reflexivity].
Qed.

Lemma falsy_service_reported_missing_witness :
  exists missing,
    getInitDeps [] (Some (ServiceRegistry.create
                            (Examples.defaults ++ [null_service])))
                [("nothing", Examples.serviceRef "nothing")] "A"
    = Err (UnresolvedDependencies missing)
    /\ In (Examples.serviceRef "nothing") missing.
Proof.
  apply (falsy_service_reported_missing
           [] (Some (ServiceRegistry.create (Examples.defaults ++ [null_service])))
           [("nothing", Examples.serviceRef "nothing")] "A"
           "nothing" (Examples.serviceRef "nothing") JNull).
  - intros n r [[= <- <-]|[]]. split; vm_compute; reflexivity.
  - left. reflexivity.
  - reflexivity.
  - vm_compute. reflexivity.
  - reflexivity.
Defined.

(** ** The exit handler *)

Lemma stop_listeners s r s2 :
  stop s = Some (r, s2) -> listeners s2 = listeners s.
Proof.
  unfold stop. destruct (startPromise s) as [ds|]; [|now intros [= _ <-]].
  destruct (ds_stage ds); try discriminate.
  unfold bind at 1, await.
  destruct (getRootLifecycleImpl (serviceHolder s)); [|now intros [= _ <-]].
  unfold rootLifecycle_shutdown, bind, modify, get_state, throw. simpl.
  destruct (rootShutdown s); intros [= _ <-]; reflexivity.
Qed.

(** X16.  The exit handler takes itself off SIGTERM, SIGINT and
    beforeExit before it stops the backend: once it has run, the listeners
    that are left are the two hooks for unhandled errors, if they were
    installed. *)
Theorem exitHandler_removes_its_listeners w defaults fs s s' :
  reachable w (configured defaults fs) s ->
  exitHandler s = Some s' ->
  listeners s'
  = (if is_running s && negb (test_mode w) then errorHooks else []).
Proof.
  intros Hr Hexit.
  destruct (reachable_inv _ _ _ _ Hr) as (ds1 & _ & Hinv).
  destruct Hinv as (ds & Hsp & _ & _ & _ & _ & _ & _ & _ & _ & Hls).
  assert (Hrun : is_running s = resolved ds).
  { unfold is_running, startOutcome, resolved. rewrite Hsp.
    now destruct (ds_stage ds) as [| |[u|e]]. }
  rewrite Hrun.
  unfold exitHandler in Hexit. rewrite Hls in Hexit.
  assert (Hrem : removeListener "beforeExit" ExitHandler
                   (removeListener "SIGINT" ExitHandler
                      (removeListener "SIGTERM" ExitHandler
                         ([] ++ exitListeners
                             ++ (if resolved ds && negb (test_mode w)
                                 then errorHooks else []))))
                 = (if resolved ds && negb (test_mode w) then errorHooks else []))
    by (destruct (resolved ds && negb (test_mode w)); reflexivity).
  rewrite Hrem in Hexit.
  set (s1 := set_listeners _ s) in Hexit.
  destruct (stop s1) as [[[u|e] s2]|] eqn:Es; [| |discriminate];
    injection Hexit as <-; simpl; now rewrite (stop_listeners _ _ _ Es).
Qed.

Lemma exitHandler_removes_its_listeners_witness :
  let s := after Examples.production Examples.two_plugins_run
                 (configured Examples.defaults Examples.two_plugins) in
  listeners (match exitHandler s with Some s' => s' | None => s end)
  = errorHooks.
Proof.
  intros s.
  assert (Hr : reachable Examples.production
                         (configured Examples.defaults Examples.two_plugins) s)
    by (exists Examples.two_plugins_run; vm_compute; reflexivity).
  set (s' := match exitHandler s with Some s' => s' | None => s end).
  assert (Hex : exitHandler s = Some s') by (vm_compute; reflexivity).
  rewrite (exitHandler_removes_its_listeners _ _ _ s s' Hr Hex).
  vm_compute. reflexivity.
Defined.

(** ** The discovery and the root scoped services *)

Lemma addFeature_accepted f s :
  accepted_feature f = true ->
  addFeature f s = (Ok tt, set_features (features s ++ [f]) s).
Proof.
  unfold accepted_feature, addFeature. intros H.
  apply andb_prop in H as [H Hver]. apply andb_prop in H as [H Hreg].
  apply andb_prop in H as [Hty Hsvc]. rewrite Hty. simpl.
  destruct (f_service f); [discriminate|].
  destruct (f_getRegistrations f); [|discriminate].
  now rewrite Hver.
Qed.

Lemma discovered_accepted found : forall s,
  forallb accepted_feature found = true ->
  exists s',
    forM_ found addFeature s = (Ok tt, s')
    /\ features s' = features s ++ found.
Proof.
  unfold forM_. induction found as [|f found IH]; intros s Hall; simpl.
  - exists s. now rewrite app_nil_r.
  - apply andb_prop in Hall as [Hf Hall]. unfold bind.
    rewrite (addFeature_accepted f s Hf).
    destruct (IH (set_features (features s ++ [f]) s) Hall) as (s' & Hrun & Hfs).
    exists s'. split; [exact Hrun|]. rewrite Hfs. simpl.
    now rewrite <- app_assoc.
Qed.

Lemma start_features w s0 :
  startPromise s0 = None ->
  features (started w s0)
  = features (snd (doStart_sequential
                     w (set_listeners (listeners s0 ++ exitListeners) s0))).
Proof.
  intros Hsp. unfold started, start. rewrite Hsp.
  now destruct (doStart_sequential w _) as [[[a b]|e] s2].
Qed.

Lemma doStart_sequential_after_discovery w s :
  features (snd (doStart_sequential w s))
  = features (snd (discoverFeatures w (registry_of s)
                                    (set_serviceHolder (Some (registry_of s)) s))).
Proof.
  unfold doStart_sequential, bind at 1. simpl. unfold bind at 1. simpl.
  fold (registry_of s).
  set (s1 := set_serviceHolder (Some (registry_of s)) s).
  unfold bind at 1.
  destruct (discoverFeatures w (registry_of s) s1) as [[u|e] s2]; [|reflexivity].
  simpl.
  apply (keeps_bind features).
  - apply initRootServices_keeps.
  - intros _. apply keeps_bind; [apply keeps_get_state|]. intros s3.
    apply indexFeatures_keeps; reflexivity.
Qed.

(** X20.  The features that the discovery service finds are added to the
    features of the backend, after the ones given to [add] and in the order
    in which the service lists them, provided each has the type tag, a
    [getRegistrations] and the version 'v1'; without a discovery service
    the features stay as they were. *)
Theorem discovered_features_are_appended w defaults fs fd :
  ServiceRegistry.get (registry_of (configured defaults fs))
                      coreServices.featureDiscoveryServiceRef "root" = Ok fd ->
  (truthy fd = false ->
   features (started w (configured defaults fs)) = filter accepted_feature fs)
  /\ (forall found,
         truthy fd = true ->
         getBackendFeatures w fd = Ok found ->
         forallb accepted_feature found = true ->
         features (started w (configured defaults fs))
         = filter accepted_feature fs ++ found).
Proof.
  intros Hget.
  rewrite (start_features w _ (configured_not_started defaults fs)).
  rewrite doStart_sequential_after_discovery.
  set (s1 := set_listeners _ (configured defaults fs)).
  assert (Hreg : registry_of s1 = registry_of (configured defaults fs))
    by reflexivity.
  rewrite Hreg.
  assert (Hfs : features (set_serviceHolder
                            (Some (registry_of (configured defaults fs))) s1)
                = filter accepted_feature fs)
    by (simpl; unfold configured; now rewrite (add_all_features fs)).
  unfold discoverFeatures, bind at 1 3, await at 1 3. rewrite Hget. split.
  - intros ->. simpl. exact Hfs.
  - intros found -> Hfound Hall. unfold bind, await. rewrite Hfound.
    destruct (discovered_accepted found
                (set_serviceHolder
                   (Some (registry_of (configured defaults fs))) s1) Hall)
      as (s' & -> & Hs').
    simpl. now rewrite Hs', Hfs.
Qed.

Lemma discovered_features_are_appended_witness :
  features (started (Examples.discovering [Examples.module "B" "B3" []
                                             (Examples.succeeds [])])
                    (configured discovery_defaults Examples.two_plugins))
  = Examples.two_plugins
    ++ [Examples.module "B" "B3" [] (Examples.succeeds [])].
Proof.
  destruct (discovered_features_are_appended
              (Examples.discovering [Examples.module "B" "B3" []
                                       (Examples.succeeds [])])
              discovery_defaults Examples.two_plugins
              (JObject (OtherClass "FeatureDiscovery") 4))
    as [_ Hfound].
  - vm_compute. reflexivity.
  - rewrite (Hfound [Examples.module "B" "B3" [] (Examples.succeeds [])]);
      reflexivity.
Defined.

Lemma forM_fails {A : Type} (body : A -> M unit) xs x e :
  (forall s, fst (body x s) = Err e) ->
  In x xs ->
  forall s, exists e', fst (forM_ xs body s) = Err e'.
Proof.
  intros Hfail. unfold forM_.
  induction xs as [|y xs IH]; intros Hin s; [destruct Hin|]. simpl.
  unfold bind. destruct (body y s) as [[[]|e0] s1] eqn:Eb.
  - destruct Hin as [->|Hin].
    + pose proof (Hfail s) as H. rewrite Eb in H. discriminate.
    + apply (IH Hin).
  - simpl. eauto.
Qed.

(** X23.  The root scoped services are created when the backend starts,
    whether or not an initializer asks for them: when the factory of one of
    them throws, [#doStart] throws before it gets to the plugins, the
    promise of [start()] is rejected and no initializer is ever called. *)
Theorem root_services_are_eager w s0 ref e :
  startPromise s0 = None ->
  In ref (ServiceRegistry.getServiceRefs (registry_of s0)) ->
  is_root_scoped ref = true ->
  ServiceRegistry.get (registry_of s0) ref "root" = Err e ->
  exists e',
    forall s, reachable w s0 s ->
              s = started w s0
              /\ startOutcome s = Some (Err e')
              /\ trace s = trace s0.
Proof.
  intros Hsp Hin Hroot Hget.
  set (s1 := set_listeners (listeners s0 ++ exitListeners) s0).
  assert (Hfail : exists e' s2, doStart_sequential w s1 = (Err e', s2)).
  { unfold doStart_sequential, bind at 1. simpl. unfold bind at 1. simpl.
    change (ServiceRegistry.create _) with (registry_of s0).
    unfold bind at 1.
    destruct (discoverFeatures w (registry_of s0) _) as [[u|e0] s2];
      [|eauto].
    unfold bind at 1.
    destruct (forM_fails
                (fun ref => if is_root_scoped ref
                            then _ <- await (ServiceRegistry.get
                                               (registry_of s0) ref "root") ;;
                                 ret tt
                            else ret tt)
                (ServiceRegistry.getServiceRefs (registry_of s0)) ref e)
      with (s := s2) as [e' He']; [|exact Hin|].
    - intros s. rewrite Hroot. unfold bind, await. now rewrite Hget.
    - unfold initRootServices.
      destruct (forM_ _ _ s2) as [[u'|e1] s3]; [discriminate|]. eauto. }
  destruct Hfail as (e' & s2 & Hseq). exists e'. intros s Hr.
  destruct (started_rejected w s0 e' s2 Hsp Hseq) as [Hst Hlog].
  assert (Hs : s = started w s0).
  { apply (rejected_start_is_final w s0 e'); [|exact Hr]. now rewrite Hst. }
  split; [exact Hs|]. subst s. rewrite Hst. split; [reflexivity|].
  unfold trace. simpl. now rewrite Hlog.
Qed.

Lemma root_services_are_eager_witness :
  let s0 := configured (Examples.defaults ++ [broken_root_service])
                       Examples.two_plugins in
  startOutcome (started Examples.production s0) = Some (Err (JsError "broken"))
  /\ trace (started Examples.production s0) = [].
Proof.
  intros s0.
  destruct (root_services_are_eager
              Examples.production s0 (sf_service broken_root_service)
              (JsError "broken")) as [e' He'].
  - vm_compute. reflexivity.
  - vm_compute. do 4 right. left. reflexivity.
  - reflexivity.
  - vm_compute. reflexivity.
  - destruct (He' (started Examples.production s0)) as (_ & Hout & Htr).
    + exists []. reflexivity.
    + split; [vm_compute; reflexivity|]. rewrite Htr. vm_compute. reflexivity.
Defined.

(** ** Provided factories and defaults *)

Lemma lookup_app a b id :
  ServiceRegistry.lookup (a ++ b) id
  = match ServiceRegistry.lookup b id with
    | Some g => Some g
    | None => ServiceRegistry.lookup a id
    end.
Proof.
  induction a as [|f a IH]; simpl.
  - now destruct (ServiceRegistry.lookup b id).
  - rewrite IH. now destruct (ServiceRegistry.lookup b id).
Qed.

Lemma lookup_notin fs id :
  ~ In id (service_ids fs) -> ServiceRegistry.lookup fs id = None.
Proof.
  induction fs as [|f fs IH]; simpl; [reflexivity|]. intros Hn.
  rewrite IH by tauto.
  destruct (String.eqb (ref_id (sf_service f)) id) eqn:E; [|reflexivity].
  apply String.eqb_eq in E. tauto.
Qed.

Lemma lookup_distinct fs sf :
  NoDup (service_ids fs) -> In sf fs ->
  ServiceRegistry.lookup fs (ref_id (sf_service sf)) = Some sf.
Proof.
  induction fs as [|f fs IH]; simpl; [intros _ []|].
  intros Hnd [->|Hin]; inversion Hnd as [|? ? Hf Hnd']; subst.
  - rewrite lookup_notin by exact Hf. now rewrite String.eqb_refl.
  - now rewrite IH.
Qed.

(** X22.  A service factory that was added to the backend is the one the
    registry uses for its service id, also when there is a default factory
    for that id: for every provided factory, in every state of the startup,
    the factory that the service holder has for its id is that factory. *)
Theorem provided_factory_overrides_default w defaults fs sf s :
  In sf (providedServiceFactories (configured defaults fs)) ->
  reachable w (configured defaults fs) s ->
  option_map (fun reg => ServiceRegistry.lookup (ServiceRegistry.factories reg)
                                                (ref_id (sf_service sf)))
             (serviceHolder s)
  = Some (Some sf).
Proof.
  intros Hin [actions Hrun].
  rewrite (run_keeps serviceHolder w actions
             (fun _ _ => eq_refl) (fun _ _ => eq_refl)
             (fun _ _ => eq_refl) (fun _ _ => eq_refl) _ _ Hrun).
  fold (started w (configured defaults fs)). rewrite started_holder. simpl.
  rewrite lookup_app, lookup_distinct; auto.
  apply configured_distinct.
Qed.

Lemma provided_factory_overrides_default_witness :
  let s := after Examples.production Examples.two_plugins_run
                 (configured Examples.defaults
                    (Examples.factory_feature custom_logger
                       :: Examples.two_plugins)) in
  option_map (fun reg => ServiceRegistry.lookup (ServiceRegistry.factories reg)
                                                "core.rootLogger")
             (serviceHolder s)
  = Some (Some custom_logger).
Proof.
  intros s.
  apply (provided_factory_overrides_default
           Examples.production Examples.defaults
           (Examples.factory_feature custom_logger :: Examples.two_plugins)
           custom_logger s).
  - vm_compute. left. reflexivity.
  - exists Examples.two_plugins_run. vm_compute. reflexivity.
Defined.

(** ** After [stop()] *)

Lemma stop_startPromise s r s2 :
  stop s = Some (r, s2) -> startPromise s2 = startPromise s.
Proof.
  unfold stop. destruct (startPromise s) as [ds|] eqn:Hsp;
    [|intros [= _ <-]; exact Hsp].
  destruct (ds_stage ds); try discriminate.
  unfold bind at 1, await.
  destruct (getRootLifecycleImpl (serviceHolder s)); [|intros [= _ <-]; exact Hsp].
  unfold rootLifecycle_shutdown, bind, modify, get_state, throw. simpl.
  destruct (rootShutdown s); intros [= _ <-]; exact Hsp.
Qed.

(** X21.  [stop()] does not reopen the backend: after it, [start()] still
    throws "Backend has already started" and [add] still throws, the
    outcome of the start is what it was, and the listeners of the process
    are the same, the exit handlers among them. *)
Theorem stopped_backend_stays_closed w s0 s r s' feature :
  reachable w s0 s ->
  stop s = Some (r, s') ->
  start w s' = (Some AlreadyStarted, s')
  /\ add feature s' = (Err AlreadyStarted_add, s')
  /\ startOutcome s' = startOutcome s
  /\ listeners s' = listeners s.
Proof.
  intros Hr Hstop. destruct (reachable_started _ _ _ Hr) as [ds Hsp].
  pose proof (stop_startPromise _ _ _ Hstop) as Hsame.
  unfold start, add, bind, get_state, throw, startOutcome.
  rewrite Hsame, Hsp. repeat split. now apply stop_listeners in Hstop.
Qed.

Lemma stopped_backend_stays_closed_witness :
  let s := after Examples.production Examples.two_plugins_run
                 (configured Examples.defaults Examples.two_plugins) in
  let s' := stop_state s in
  start Examples.production s' = (Some AlreadyStarted, s')
  /\ listeners s' = exitListeners ++ errorHooks.
Proof.
  intros s s'.
  assert (Hr : reachable Examples.production
                         (configured Examples.defaults Examples.two_plugins) s)
    by (exists Examples.two_plugins_run; vm_compute; reflexivity).
  assert (Hstop : stop s = Some (Ok tt, s')) by (vm_compute; reflexivity).
  destruct (stopped_backend_stays_closed
              _ _ _ _ _ (Examples.plugin "C" [] (Examples.succeeds [])) Hr Hstop)
    as (Hstart & _ & _ & Hls).
  split; [exact Hstart|]. rewrite Hls. vm_compute. reflexivity.
Defined.
